(** * Multi-Agent DealSeeker: the research notebooks, embedded and verified

    The notebooks are linear Python scripts.  Each function or cell that the
    specification speaks about is translated below into a Rocq definition
    that follows the Python text line by line:

    - Python [str] is [string] (characters restricted to ASCII);
    - Python [float] is an exact rational [Q]: binary rounding, infinities
      and NaN are outside the model;
    - [dict] is stdpp's [gmap]; lists are [list];
    - exceptions are explicit results ([option], or a sum with the raised
      exception);
    - calls that leave the process (the chat endpoints, the vector store,
      the random generators, the tokenizer-backed [Item] class) are
      parameters of the section that uses them. *)

From Stdlib Require Import ZArith QArith Qround Qabs Ascii String List Lia
  Permutation.
From stdpp Require Import base option list strings gmap pretty.

Local Open Scope string_scope.
Local Open Scope list_scope.
Local Open Scope stdpp_scope.

(** ** Python strings *)

Module PyStr.

(** [old in s]: some suffix of [s] starts with [old]. *)
Fixpoint contains (old s : string) : bool :=
  String.prefix old s ||
  match s with
  | EmptyString => false
  | String _ s' => contains old s'
  end.

(** The scan of [str.replace(old, new)] for a non-empty [old]: occurrences
    are found left to right and do not overlap; [skip] counts the characters
    of the occurrence just replaced that are still to be passed over. *)
Fixpoint replace_go (old new : string) (skip : nat) (s : string) : string :=
  match s with
  | EmptyString => EmptyString
  | String c s' =>
      match skip with
      | S k => replace_go old new k s'
      | O =>
          if String.prefix old s
          then new +:+ replace_go old new (String.length old - 1) s'
          else String c (replace_go old new 0 s')
      end
  end.

(** With an empty [old], Python puts [new] before every character and at the
    end. *)
Fixpoint intersperse_all (new s : string) : string :=
  match s with
  | EmptyString => new
  | String c s' => new +:+ String c (intersperse_all new s')
  end.

Definition replace (old new s : string) : string :=
  match old with
  | EmptyString => intersperse_all new s
  | _ => replace_go old new 0 s
  end.

(** [s.split(sep)[0]] for a non-empty [sep]: what comes before the first
    occurrence of [sep], or all of [s] when there is none. *)
Fixpoint before (sep s : string) : string :=
  match s with
  | EmptyString => EmptyString
  | String c s' =>
      if String.prefix sep s then EmptyString else String c (before sep s')
  end.

(** [s[:n]] *)
Fixpoint take (n : nat) (s : string) : string :=
  match n, s with
  | S n', String c s' => String c (take n' s')
  | _, _ => EmptyString
  end.

Definition is_digit (c : ascii) : bool :=
  let n := nat_of_ascii c in ((48 <=? n) && (n <=? 57))%nat.

Definition digit_val (c : ascii) : Z := Z.of_nat (nat_of_ascii c - 48).

(** Reads the longest run of digits at the head of [s]: its value on top of
    [acc], the number of digits read, and what follows. *)
Fixpoint take_digits (s : string) (acc : Z) (n : nat) : Z * nat * string :=
  match s with
  | String c s' =>
      if is_digit c then take_digits s' (10 * acc + digit_val c)%Z (S n)
      else (acc, n, s)
  | EmptyString => (acc, n, s)
  end.

(** [c in s] for a character [c]. *)
Fixpoint mem (c : ascii) (s : string) : bool :=
  match s with
  | EmptyString => false
  | String x s' => Ascii.eqb x c || mem c s'
  end.

(** Some character of [s] is a digit. *)
Fixpoint has_digit (s : string) : bool :=
  match s with
  | EmptyString => false
  | String x s' => is_digit x || has_digit s'
  end.

(** The unsigned part of a decimal literal, with the sign [sgn] read in front
    of it. *)
Definition float_body (sgn : Z) (s1 : string) : option Q :=
  let '(i, ni, s2) := take_digits s1 0%Z 0 in
  match s2 with
  | EmptyString =>
      if (ni =? 0)%nat then None else Some (Qred (sgn * i # 1))
  | String "." s3 =>
      let '(f, nf, s4) := take_digits s3 0%Z 0 in
      match s4 with
      | EmptyString =>
          if (ni + nf =? 0)%nat then None
          else Some (Qred (sgn * (i * 10 ^ Z.of_nat nf + f) #
                            Z.to_pos (10 ^ Z.of_nat nf)))
      | _ => None
      end
  | _ => None
  end.

(** [float(s)] on plain decimal literals: an optional sign, digits, and an
    optional point followed by digits, with at least one digit in all.
    [None] is [ValueError].  Exponents, underscores, blanks and the words
    [inf] and [nan], which Python also accepts, are not covered. *)
Definition float (s : string) : option Q :=
  match s with
  | String "-" r => float_body (-1) r
  | String "+" r => float_body 1 r
  | _ => float_body 1 s
  end.

End PyStr.

(** ** Python's backtracking regular expressions ([re]) *)

Module Re.

Inductive regex : Type :=
| Eps
| Cls (p : ascii -> bool)
| Cat (r1 r2 : regex)
| Alt (r1 r2 : regex)
| Star (r : regex).

(** [r?] and [r+], both greedy. *)
Definition Opt (r : regex) : regex := Alt r Eps.
Definition Plus (r : regex) : regex := Cat r (Star r).

(** A greedy repetition: [step] matches the repeated expression once.  One
    more round is tried first, on condition that it consumes input; when no
    further round leads to a match, the repetition stops here.  [fuel]
    bounds the rounds; the length of the input is enough. *)
Fixpoint star_loop (step : string -> (string -> option string) -> option string)
    (k : string -> option string) (fuel : nat) (s : string) : option string :=
  match fuel with
  | O => k s
  | S fuel' =>
      match step s (fun s' => if (String.length s' <? String.length s)%nat
                              then star_loop step k fuel' s' else None) with
      | Some rest => Some rest
      | None => k s
      end
  end.

(** [exec r s k] matches [r] at the head of [s] and hands what is left to the
    continuation [k]; the first success in Python's order (left alternative
    first, longest repetition first) wins.  The result is the input left
    after the whole match. *)
Fixpoint exec (r : regex) (s : string) (k : string -> option string)
  : option string :=
  match r with
  | Eps => k s
  | Cls p =>
      match s with
      | String c s' => if p c then k s' else None
      | EmptyString => None
      end
  | Cat r1 r2 => exec r1 s (fun s' => exec r2 s' k)
  | Alt r1 r2 =>
      match exec r1 s k with
      | Some rest => Some rest
      | None => exec r2 s k
      end
  | Star r1 => star_loop (exec r1) k (String.length s) s
  end.

(** The strings an expression denotes. *)
Inductive matches : regex -> string -> Prop :=
| MEps : matches Eps EmptyString
| MCls (p : ascii -> bool) (c : ascii) :
    p c = true -> matches (Cls p) (String c EmptyString)
| MCat (r1 r2 : regex) (s1 s2 : string) :
    matches r1 s1 -> matches r2 s2 -> matches (Cat r1 r2) (s1 +:+ s2)
| MAltL (r1 r2 : regex) (s : string) :
    matches r1 s -> matches (Alt r1 r2) s
| MAltR (r1 r2 : regex) (s : string) :
    matches r2 s -> matches (Alt r1 r2) s
| MStar0 (r : regex) : matches (Star r) EmptyString
| MStarS (r : regex) (s1 s2 : string) :
    matches r s1 -> matches (Star r) s2 -> matches (Star r) (s1 +:+ s2).

(** [re.search(r, s)]: the match at the leftmost position that has one;
    the result is [match.group()]. *)
Fixpoint search (r : regex) (s : string) : option string :=
  match exec r s Some with
  | Some rest => Some (PyStr.take (String.length s - String.length rest) s)
  | None =>
      match s with
      | EmptyString => None
      | String _ s' => search r s'
      end
  end.

End Re.

(** ** 04_RAG Test: [get_price] *)

Definition is_sign (c : ascii) : bool :=
  Ascii.eqb c "-" || Ascii.eqb c "+".
Definition is_dot (c : ascii) : bool := Ascii.eqb c ".".

(** [[-+]?\d*\.\d+|\d+]: the alternation binds loosest, so the sign belongs
    to the first branch only. *)
Definition price_re : Re.regex :=
  Re.Alt
    (Re.Cat (Re.Opt (Re.Cls is_sign))
       (Re.Cat (Re.Star (Re.Cls PyStr.is_digit))
          (Re.Cat (Re.Cls is_dot) (Re.Plus (Re.Cls PyStr.is_digit)))))
    (Re.Plus (Re.Cls PyStr.is_digit)).

(** [s.replace('$','').replace(',','')] *)
Definition strip_price_chars (s : string) : string :=
  PyStr.replace "," EmptyString (PyStr.replace "$" EmptyString s).

(** [get_price(s)]; [None] would be a [ValueError] out of [float]. *)
Definition get_price (s : string) : option Q :=
  let s := strip_price_chars s in
  match Re.search price_re s with
  | Some tok => PyStr.float tok
  | None => Some 0%Q
  end.

(** ** Python numbers *)

Module PyNum.

(** [round(x)] of a float: to the nearest integer, a tie to the even one. *)
Definition round (x : Q) : Z :=
  let fl := Qfloor x in
  match Qcompare (x - inject_Z fl) (1 # 2) with
  | Lt => fl
  | Gt => (fl + 1)%Z
  | Eq => if Z.even fl then fl else (fl + 1)%Z
  end.

Definition two_digits (n : Z) : string :=
  if (n <? 10)%Z then "0" +:+ pretty n else pretty n.

(** [f"{x:.2f}"]: sign, integer part, point, two decimals; the hundredths
    are rounded like [round]. *)
Definition format_2f (x : Q) : string :=
  let n := round (Qabs x * 100) in
  (if Qle_bool 0 x then EmptyString else "-")
  +:+ pretty (n / 100)%Z +:+ "." +:+ two_digits (n mod 100)%Z.

End PyNum.

(** ** The [Item] of [utils/items.py] *)

Module Item.

(** Modelled from the spec: the class [Item] of [utils/items.py] is not among
    the sources.  The record holds the fields and the result of the method
    [test_prompt()] that the notebooks read: the training prompt, the test
    prompt (the variant without the price answer), the price, the category,
    the token count and the [include] flag set by the constructor. *)
Record t : Type := mk {
  prompt : string;
  test_prompt : string;
  price : Q;
  category : string;
  token_count : nat;
  include : bool
}.

End Item.

(** ** 04_RAG Test: the request sent to the model *)

Definition nl : string := String "010"%char EmptyString.

(** The suffix that ends a training prompt. *)
Definition PRICE_SUFFIX : string := nl +:+ nl +:+ "Price is $".

Definition context_header : string :=
  "To provide some context, here are some other items that might be similar to the item you need to estimate."
  +:+ nl +:+ nl.

Definition context_entry (similar : string) (price : Q) : string :=
  "Potentially related product:" +:+ nl +:+ similar +:+ nl
  +:+ "Price is $" +:+ PyNum.format_2f price +:+ nl +:+ nl.

(** [make_context(similars, prices)]: the loop appends one entry per pair of
    [zip(similars, prices)]. *)
Definition make_context (similars : list string) (prices : list Q) : string :=
  foldl (fun message sp => message +:+ context_entry sp.1 sp.2)
        context_header (zip similars prices).

Record message : Type := Message { role : string; content : string }.

Definition system_message : string :=
  "You estimate prices of items. Reply only with the price, no explanation".

Definition question_intro : string :=
  "And now the question for you:" +:+ nl +:+ nl.

(** The test prompt with the text [' to the nearest dollar'] and then the
    text ['\n\nPrice is $'] replaced by the empty string. *)
Definition query_text (item : Item.t) : string :=
  PyStr.replace PRICE_SUFFIX EmptyString
    (PyStr.replace " to the nearest dollar" EmptyString
       (Item.test_prompt item)).

Definition messages_for (item : Item.t) (similars : list string)
    (prices : list Q) : list message :=
  let user_prompt := make_context similars prices in
  let user_prompt := user_prompt +:+ question_intro in
  let user_prompt := user_prompt +:+ query_text item in
  [ Message "system" system_message;
    Message "user" user_prompt;
    Message "assistant" "Price is $" ].

Definition QUESTION : string :=
  "How much does this cost to the nearest dollar?" +:+ nl +:+ nl.

(** [description(item)] *)
Definition description (item : Item.t) : string :=
  let text := PyStr.replace QUESTION EmptyString (Item.prompt item) in
  PyStr.before PRICE_SUFFIX text.

(** ** The vector store *)

Module Metadata.
(** [{"category": item.category, "price": item.price}] *)
Record t : Type := mk { category : string; price : Q }.
End Metadata.

Module Store.

(** One stored entry: identifier, vector, document text, metadata. *)
Record record : Type := Record_ {
  id : string;
  embedding : list Q;
  document : string;
  metadata : Metadata.t
}.

(** The dictionary that [collection.query] returns: one inner list per query
    vector, the inner lists of the different keys being parallel. *)
Record query_result : Type := QueryResult {
  ids : list (list string);
  documents : list (list string);
  metadatas : list (list Metadata.t)
}.

(** [collection.query(query_embeddings, n_results)] of the Chroma client, by
    its contract: for each query vector the store ranks its records by
    similarity ([rank], the index's own order) and reports the first
    [n_results] of them. *)
Definition query (rank : list record -> list Q -> list record)
    (coll : list record) (query_embeddings : list (list Q))
    (n_results : nat) : query_result :=
  let hits := map (fun q => take n_results (rank coll q)) query_embeddings in
  {| ids := map (map id) hits;
     documents := map (map document) hits;
     metadatas := map (map metadata) hits |}.

End Store.

(** ** Effects: exceptions, calls that leave the process, standard output *)

Module Py.

Inductive exn : Type :=
| UpstreamError (msg : string)
| UnboundLocalError (name : string)
| ValueError
| IndexError.

Record chat_request : Type := ChatRequest {
  model : string;
  messages : list message;
  seed : Z;
  max_tokens : Z
}.

Inductive event : Type :=
| Query (query_embeddings : list (list Q)) (n_results : nat)
| ChatCreate (req : chat_request)
| Print (line : string).

Inductive outcome (A : Type) : Type :=
| Ok (a : A)
| Raise (e : exn)
| OutOfFuel.
Arguments Ok {A} a.
Arguments Raise {A} e.
Arguments OutOfFuel {A}.

(** A computation reads and extends the log of events so far. *)
Definition M (A : Type) : Type := list event -> outcome A * list event.

Definition ret {A} (a : A) : M A := fun log => (Ok a, log).
Definition raise {A} (e : exn) : M A := fun log => (Raise e, log).
Definition emit (ev : event) : M unit := fun log => (Ok tt, log ++ [ev]).

Definition bind {A B} (m : M A) (f : A -> M B) : M B :=
  fun log =>
    match m log with
    | (Ok a, log') => f a log'
    | (Raise e, log') => (Raise e, log')
    | (OutOfFuel, log') => (OutOfFuel, log')
    end.

(** [try: m / except Exception as e: handler(e)] followed by [k] on the
    value of the branch taken. *)
Definition try_except {A} (m : M A) (handler : exn -> M A) : M A :=
  fun log =>
    match m log with
    | (Raise e, log') => handler e log'
    | r => r
    end.

Definition exn_str (e : exn) : string :=
  match e with
  | UpstreamError msg => msg
  | UnboundLocalError name =>
      "cannot access local variable '" +:+ name +:+
      "' where it is not associated with a value"
  | ValueError => "could not convert string to float"
  | IndexError => "list index out of range"
  end.

Definition chat_requests (log : list event) : list chat_request :=
  omap (fun ev => match ev with ChatCreate req => Some req | _ => None end)
       log.

(** [while cond(st): st = body(st)] *)
Fixpoint while {S} (fuel : nat) (cond : S -> bool) (body : S -> M S)
    (st : S) : M S :=
  if cond st then
    match fuel with
    | O => fun log => (OutOfFuel, log)
    | Datatypes.S fuel' => bind (body st) (while fuel' cond body)
    end
  else ret st.

End Py.

#[global] Instance py_ret : MRet Py.M := @Py.ret.
#[global] Instance py_bind : MBind Py.M := fun A B f m => Py.bind m f.

(** ** 04_RAG Test: retrieval and the two estimators *)

Section Rag.

(** [model.encode]: the sentence encoder, one vector per text. *)
Variable encode : string -> list Q.
(** The persistent collection and the order in which its index ranks the
    records for a query vector. *)
Variable coll : list Store.record.
Variable rank : list Store.record -> list Q -> list Store.record.
(** The chat endpoint: what the call number [k] (counted from 0 over the
    whole run) does on a request, either the failure it raises ([inl]) or
    the content of the first choice of its response ([inr]). *)
Variable endpoint : nat -> Py.chat_request -> string + string.

(** [vector(item)]: a matrix of one row. *)
Definition vector (item : Item.t) : list (list Q) :=
  [encode (description item)].

Definition collection_query (query_embeddings : list (list Q))
    (n_results : nat) : Py.M Store.query_result :=
  Py.emit (Py.Query query_embeddings n_results);;
  mret (Store.query rank coll query_embeddings n_results).

(** The records the store reports for [item]: the first five of its
    ranking for the item's vector. *)
Definition nearest (item : Item.t) : list Store.record :=
  take 5 (rank coll (encode (description item))).

(** [find_similars(item)]; the subscript [[0]] raises [IndexError] on an
    empty list. *)
Definition find_similars (item : Item.t) : Py.M (list string * list Q) :=
  results ← collection_query (vector item) 5;
  match Store.documents results !! 0%nat, Store.metadatas results !! 0%nat with
  | Some documents, Some metadatas =>
      let prices := map Metadata.price metadatas in
      mret (documents, prices)
  | _, _ => Py.raise Py.IndexError
  end.

(** [client.chat.completions.create(...)] followed by
    [response.choices[0].message.content]. *)
Definition chat_create (req : Py.chat_request) : Py.M string :=
  fun log =>
    let k := length (Py.chat_requests log) in
    let log' := log ++ [Py.ChatCreate req] in
    match endpoint k req with
    | inl msg => (Py.Raise (Py.UpstreamError msg), log')
    | inr content => (Py.Ok content, log')
    end.

(** [get_price(reply)] as a step of a computation. *)
Definition get_price_of (reply : string) : Py.M Q :=
  match get_price reply with
  | Some p => mret p
  | None => Py.raise Py.ValueError
  end.

(** [gpt_4o_mini_rag(item)]: one request, no handler. *)
Definition gpt_4o_mini_rag (item : Item.t) : Py.M Q :=
  '(documents, prices) ← find_similars item;
  reply ← chat_create
    {| Py.model := "gpt-4o-mini";
       Py.messages := messages_for item documents prices;
       Py.seed := 42;
       Py.max_tokens := 5 |};
  get_price_of reply.

(** The local variables of the retry loop; [reply] is unbound until a
    request has succeeded. *)
Record retry_state : Type := RetryState {
  retries : Z;
  done : bool;
  reply : option string
}.

Definition deepseek_request (item : Item.t) (documents : list string)
    (prices : list Q) : Py.chat_request :=
  {| Py.model := "deepseek-chat";
     Py.messages := messages_for item documents prices;
     Py.seed := 42;
     Py.max_tokens := 8 |}.

(** [while not done and retries > 0] *)
Definition retry_cond (st : retry_state) : bool :=
  negb (done st) && (0 <? retries st)%Z.

(** The body of the loop: the [try] block and its [except Exception]. *)
Definition retry_body (item : Item.t) (documents : list string)
    (prices : list Q) (st : retry_state) : Py.M retry_state :=
  Py.try_except
    (content ← chat_create (deepseek_request item documents prices);
     mret {| retries := retries st; done := true; reply := Some content |})
    (fun e =>
       Py.emit (Py.Print ("Error: " +:+ Py.exn_str e));;
       mret {| retries := retries st - 1; done := done st;
               reply := reply st |}).

(** The [while] loop, run for at most [fuel] turns. *)
Definition retry_loop (fuel : nat) (item : Item.t) (documents : list string)
    (prices : list Q) : retry_state -> Py.M retry_state :=
  Py.while fuel retry_cond (retry_body item documents prices).

(** [deepseek_api_rag(item)]; [fuel] bounds the iterations of the model's
    loop. *)
Definition deepseek_api_rag (fuel : nat) (item : Item.t) : Py.M Q :=
  '(documents, prices) ← find_similars item;
  st ← retry_loop fuel item documents prices
         {| retries := 8; done := false; reply := None |};
  match reply st with
  | Some reply => get_price_of reply
  | None => Py.raise (Py.UnboundLocalError "reply")
  end.

End Rag.

(** ** 06, second notebook: the balanced sample *)

Definition Qltb (x y : Q) : bool := negb (Qle_bool y x).

Section Balancer.

(** The state of numpy's global generator, [np.random.seed] and
    [np.random.choice(a, size=size, replace=False, p=p)]. *)
Variable np_rng : Type.
Variable np_seed : Z -> np_rng.
Variable np_choice : np_rng -> nat -> nat -> list Q -> list nat * np_rng.

(** [slots[round(item.price)].append(item)] on a [defaultdict(list)]. *)
Definition slots_append (slots : gmap Z (list Item.t)) (item : Item.t)
  : gmap Z (list Item.t) :=
  let k := PyNum.round (Item.price item) in
  <[k := slots !!! k ++ [item]]> slots.

Definition make_slots (items : list Item.t) : gmap Z (list Item.t) :=
  foldl slots_append ∅ items.

Definition raw_weight (item : Item.t) : Q :=
  if String.eqb (Item.category item) "Automotive" then 1%Q else 5%Q.

(** [np.sum] *)
Definition np_sum (ws : list Q) : Q := foldr Qplus 0%Q ws.

(** [weights = np.array([...]); weights = weights / np.sum(weights)] *)
Definition slot_weights (slot : list Item.t) : list Q :=
  let weights := map raw_weight slot in
  map (fun w => (w / np_sum weights)%Q) weights.

(** [[slot[i] for i in selected_indices]]; [None] is [IndexError]. *)
Definition pick (slot : list Item.t) (selected_indices : list nat)
  : option (list Item.t) :=
  mapM (fun i => slot !! i) selected_indices.

(** One turn of [for i in range(1, 1000)]. *)
Definition sample_step (slots : gmap Z (list Item.t))
    (st : list Item.t * np_rng) (i : Z) : option (list Item.t * np_rng) :=
  let '(sample, g) := st in
  let slot := slots !!! i in
  if (240 <=? i)%Z then Some (sample ++ slot, g)
  else if (length slot <=? 1200)%nat then Some (sample ++ slot, g)
  else
    let '(selected_indices, g') :=
      np_choice g (length slot) 1200 (slot_weights slot) in
    chosen ← pick slot selected_indices;
    Some (sample ++ chosen, g').

(** The cell that builds [sample], from [np.random.seed(42)] on. *)
Definition sample (items : list Item.t) : option (list Item.t * np_rng) :=
  let slots := make_slots items in
  foldl (fun acc i => st ← acc; sample_step slots st i)
        (Some ([], np_seed 42)) (seqZ 1 999).

End Balancer.

Arguments sample_step {np_rng} np_choice slots st i.
Arguments sample {np_rng} np_seed np_choice items.

(** ** 06, second notebook: shuffle and split *)

Section Split.

(** The state of the generator of module [random], [random.seed] and the
    generator's [_randbelow]. *)
Variable py_rng : Type.
Variable py_seed : Z -> py_rng.
Variable randbelow : py_rng -> nat -> nat * py_rng.

(** [x[i], x[j] = x[j], x[i]]; [None] is [IndexError]. *)
Definition swap {A} (x : list A) (i j : nat) : option (list A) :=
  xj ← x !! j;
  xi ← x !! i;
  Some (<[j := xi]> (<[i := xj]> x)).

(** One turn of [for i in reversed(range(1, len(x)))]. *)
Definition shuffle_step {A} (st : list A * py_rng) (i : nat)
  : option (list A * py_rng) :=
  let '(x, g) := st in
  let '(j, g') := randbelow g (i + 1) in
  x' ← swap x i j;
  Some (x', g').

(** [random.shuffle(x)] *)
Definition shuffle {A} (x : list A) (g : py_rng) : option (list A * py_rng) :=
  foldl (fun acc i => st ← acc; shuffle_step st i)
        (Some (x, g)) (reverse (seq 1 (length x - 1))).

(** [l[i:j]] for [0 <= i <= j] *)
Definition slice {A} (l : list A) (i j : nat) : list A :=
  take (j - i) (drop i l).

(** The bounds [400_000] and [402_000] of the two slices. *)
Definition TRAIN_END : nat := Z.to_nat 400000.
Definition TEST_END : nat := Z.to_nat 402000.

(** The cell [random.seed(42); random.shuffle(sample); train, test = ...],
    started with the generator in state [g0]; the result is
    [(sample, train, test)] and the generator's new state. *)
Definition train_test_split {A} (g0 : py_rng) (sample : list A)
  : option (list A * list A * list A * py_rng) :=
  let g := py_seed 42 in
  '(sample, g) ← shuffle sample g;
  let train := slice sample 0 TRAIN_END in
  let test := slice sample TRAIN_END TEST_END in
  Some (sample, train, test, g).

End Split.

Arguments shuffle_step {py_rng} randbelow {A} st i.
Arguments shuffle {py_rng} randbelow {A} x g.
Arguments train_test_split {py_rng} py_seed randbelow {A} g0 sample.

(** ** Vector-store notebook: the batch insert loop *)

(** [range(start, stop, step)] for a positive [step]. *)
Definition py_range (start stop step : nat) : list nat :=
  map (fun k => start + k * step) (seq 0 ((stop - start + step - 1) / step)).

Section Build.

Variable encode : string -> list Q.

(** The keyword arguments of one [collection.add] call. *)
Record add_call : Type := AddCall {
  ids : list string;
  documents : list string;
  embeddings : list (list Q);
  metadatas : list Metadata.t
}.

(** The body of [for i in tqdm(range(0, len(train), 1000))]. *)
Definition add_batch (train : list Item.t) (i : nat) : add_call :=
  let documents := map description (slice train i (i + 1000)) in
  let vectors := map encode documents in
  let metadatas :=
    map (fun item => Metadata.mk (Item.category item) (Item.price item))
        (slice train i (i + 1000)) in
  let ids := map (fun j => "doc_" +:+ pretty j) (seq i 1000) in
  {| ids := ids; documents := documents; embeddings := vectors;
     metadatas := metadatas |}.

(** The calls of the whole loop, in order. *)
Definition build_store (train : list Item.t) : list add_call :=
  map (add_batch train) (py_range 0 (length train) 1000).

End Build.

(** ** Ensemble notebook: the feature matrix *)

(** [min(s, f, r)] and [max(s, f, r)]: the first argument is kept until a
    later one is strictly smaller (greater). *)
Definition py_min3 (s f r : Q) : Q :=
  let m := s in
  let m := if Qltb f m then f else m in
  if Qltb r m then r else m.

Definition py_max3 (s f r : Q) : Q :=
  let m := s in
  let m := if Qltb m f then f else m in
  if Qltb m r then r else m.

(** [zip(a, b, c)] *)
Definition zip3 {A B C} (a : list A) (b : list B) (c : list C)
  : list (A * B * C) :=
  zip (zip a b) c.

(** A frame of five named columns. *)
Record DataFrame : Type := Frame {
  Specialist : list Q;
  Frontier : list Q;
  RandomForest : list Q;
  Min : list Q;
  Max : list Q
}.

(** [pd.DataFrame({...})] of five lists; [None] is the [ValueError] raised
    when the lists differ in length. *)
Definition pd_DataFrame (specialists frontiers random_forests mins maxes
    : list Q) : option DataFrame :=
  let n := length specialists in
  if ((length frontiers =? n) && (length random_forests =? n)
      && (length mins =? n) && (length maxes =? n))%nat
  then Some (Frame specialists frontiers random_forests mins maxes)
  else None.

(** The cell that computes [mins], [maxes] and [X]. *)
Definition feature_matrix (specialists frontiers random_forests : list Q)
  : option DataFrame :=
  let mins :=
    map (fun t : Q * Q * Q => let '(s, f, r) := t in py_min3 s f r)
        (zip3 specialists frontiers random_forests) in
  let maxes :=
    map (fun t : Q * Q * Q => let '(s, f, r) := t in py_max3 s f r)
        (zip3 specialists frontiers random_forests) in
  pd_DataFrame specialists frontiers random_forests mins maxes.

(** Row [k] of a frame; [None] when [k] is not a row. *)
Definition frame_row (X : DataFrame) (k : nat) : option (Q * Q * Q * Q * Q) :=
  s ← Specialist X !! k;
  f ← Frontier X !! k;
  r ← RandomForest X !! k;
  mn ← Min X !! k;
  mx ← Max X !! k;
  Some (s, f, r, mn, mx).

(** ** 01_Data Curation: the curated item list *)

Module Datapoint.
(** A raw record of the dataset; every field arrives as text. *)
Record t : Type := mk {
  title : string;
  description : list string;
  features : list string;
  details : string;
  price : string
}.
End Datapoint.

Section Curation.

(** [float(...)] on the price text; [None] is [ValueError]. *)
Variable py_float : string -> option Q.
(** [Item(datapoint, price)], the constructor of [utils/items.py]. *)
Variable Item_init : Datapoint.t -> Q -> Item.t.

(** The body of [for datapoint in dataset], with its [try] and
    [except ValueError: pass]. *)
Definition items_step (items : list Item.t) (datapoint : Datapoint.t)
  : list Item.t :=
  match py_float (Datapoint.price datapoint) with
  | Some price =>
      if Qle_bool 1 price && Qle_bool price 999 then
        let item := Item_init datapoint price in
        if Item.include item then items ++ [item] else items
      else items
  | None => items
  end.

Definition items (dataset : list Datapoint.t) : list Item.t :=
  foldl items_step [] dataset.

(** What one record adds to [items]: the item built from it, when the loop
    body reaches [items.append]. *)
Definition curated (datapoint : Datapoint.t) : option Item.t :=
  match py_float (Datapoint.price datapoint) with
  | Some price =>
      if Qle_bool 1 price && Qle_bool price 999 then
        let item := Item_init datapoint price in
        if Item.include item then Some item else None
      else None
  | None => None
  end.

End Curation.

(** ** 06, first notebook: the deal filter *)

Module Deals.

(** Modelled from the spec: [Core/deals.py] is not among the sources.  The
    structured reply is [{deals: [{product_description: str, price: number,
    url: str}, ...]}], a list of deals whose length the notebook reads with
    [len(result.deals)]. *)
Record Deal : Type := mkDeal {
  product_description : string;
  price : Q;
  url : string
}.

Record DealSelection : Type := mkSelection { deals : list Deal }.

End Deals.

Definition dq : string := String "034"%char EmptyString.

Definition system_prompt : string :=
  "You identify and summarize the 5 most detailed deals from a list, by selecting deals that have the most detailed, high quality description and the most clear price."
  +:+ nl +:+
  "Respond strictly in JSON with no explanation, using this format. You should provide the price as a number derived from the description. If the price of a deal isn't clear, do not include that deal in your response."
  +:+ nl +:+
  "Most important is that you respond with the 5 deals that have the most detailed product description with price. It's not important to mention the terms of the deal; most important is a thorough description of the product."
  +:+ nl +:+
  "Be careful with products that are described as " +:+ dq +:+ "$XXX off"
  +:+ dq +:+ " or " +:+ dq +:+ "reduced by $XXX" +:+ dq +:+
  " - this isn't the actual price of the product. Only respond with products when you are highly confident about the price. "
  +:+ nl +:+ nl +:+
  "{" +:+ dq +:+ "deals" +:+ dq +:+ ": [" +:+ nl +:+
  "    {" +:+ nl +:+
  "        " +:+ dq +:+ "product_description" +:+ dq +:+ ": " +:+ dq +:+
  "Your clearly expressed summary of the product in 4-5 sentences. Details of the item are much more important than why it's a good deal. Avoid mentioning discounts and coupons; focus on the item itself. There should be a paragpraph of text for each item you choose."
  +:+ dq +:+ "," +:+ nl +:+
  "        " +:+ dq +:+ "price" +:+ dq +:+ ": 99.99," +:+ nl +:+
  "        " +:+ dq +:+ "url" +:+ dq +:+ ": " +:+ dq +:+
  "the url as provided" +:+ dq +:+ nl +:+
  "    }," +:+ nl +:+
  "    ..." +:+ nl +:+
  "]}".

Definition user_prompt_header : string :=
  "Respond with the most promising 5 deals from this list, selecting those which have the most detailed, high quality product description and a clear price."
  +:+ nl +:+
  "Respond strictly in JSON, and only JSON. You should rephrase the description to be a summary of the product itself, not the terms of the deal."
  +:+ nl +:+
  "Remember to respond with a paragraph of text in the product_description field for each of the 5 items that you select."
  +:+ nl +:+
  "Be careful with products that are described as " +:+ dq +:+ "$XXX off"
  +:+ dq +:+ " or " +:+ dq +:+ "reduced by $XXX" +:+ dq +:+
  " - this isn't the actual price of the product. Only respond with products when you are highly confident about the price. "
  +:+ nl +:+ nl +:+
  "Deals:" +:+ nl +:+ nl.

(** [sep.join(parts)] *)
Fixpoint join (sep : string) (parts : list string) : string :=
  match parts with
  | [] => EmptyString
  | [p] => p
  | p :: rest => p +:+ sep +:+ join sep rest
  end.

(** The keyword arguments of [openai.beta.chat.completions.parse]. *)
Record parse_request : Type := ParseRequest {
  parse_model : string;
  parse_messages : list message;
  response_format : string
}.

Section Scanner.

(** A scraped listing and its [describe()] text, both of [Core/deals.py]. *)
Variable ScrapedDeal : Type.
Variable describe : ScrapedDeal -> string.
(** The endpoint: the parsed first choice of the reply to a request. *)
Variable parse_endpoint : parse_request -> Deals.DealSelection.

Definition user_prompt (deals : list ScrapedDeal) : string :=
  user_prompt_header +:+ join (nl +:+ nl) (map describe deals).

(** [get_recommendations()], the scraped [deals] being the notebook's
    global. *)
Definition get_recommendations (deals : list ScrapedDeal)
  : Deals.DealSelection :=
  let completion :=
    parse_endpoint
      {| parse_model := "gpt-4o-mini";
         parse_messages :=
           [ Message "system" system_prompt;
             Message "user" (user_prompt deals) ];
         response_format := "DealSelection" |} in
  let result := completion in
  result.

End Scanner.

(** ** The numeric token as the specification words it *)

(** "An optionally signed integer or decimal": the sign may stand in front of
    either form, [[-+]?(\d*\.\d+|\d+)]. *)
Definition signed_number_re : Re.regex :=
  Re.Cat (Re.Opt (Re.Cls is_sign))
    (Re.Alt
       (Re.Cat (Re.Star (Re.Cls PyStr.is_digit))
          (Re.Cat (Re.Cls is_dot) (Re.Plus (Re.Cls PyStr.is_digit))))
       (Re.Plus (Re.Cls PyStr.is_digit))).

(** The price the specification describes: strip, take the first numeric
    token, convert; 0 without a token. *)
Definition first_token_price (s : string) : option Q :=
  let s := strip_price_chars s in
  match Re.search signed_number_re s with
  | Some tok => PyStr.float tok
  | None => Some 0%Q
  end.

(** ** Small concrete surroundings to run the definitions in *)

Module Demo.

Definition mic : Item.t :=
  {| Item.prompt :=
       QUESTION +:+ "Quadcast HyperX condenser mic" +:+ PRICE_SUFFIX
       +:+ "139.00";
     Item.test_prompt :=
       QUESTION +:+ "Quadcast HyperX condenser mic" +:+ PRICE_SUFFIX;
     Item.price := 139;
     Item.category := "Musical_Instruments";
     Item.token_count := 12;
     Item.include := true |}.

Definition wiper : Item.t :=
  {| Item.prompt :=
       QUESTION +:+ "Wiper blade, 22 inch" +:+ PRICE_SUFFIX +:+ "12.00";
     Item.test_prompt := QUESTION +:+ "Wiper blade, 22 inch" +:+ PRICE_SUFFIX;
     Item.price := 12;
     Item.category := "Automotive";
     Item.token_count := 9;
     Item.include := true |}.

Definition projector : Item.t :=
  {| Item.prompt :=
       QUESTION +:+ "Laser projector, 4K" +:+ PRICE_SUFFIX +:+ "1000.00";
     Item.test_prompt := QUESTION +:+ "Laser projector, 4K" +:+ PRICE_SUFFIX;
     Item.price := 1000;
     Item.category := "Electronics";
     Item.token_count := 8;
     Item.include := true |}.

Definition encode (text : string) : list Q :=
  [inject_Z (Z.of_nat (String.length text))].

Definition coll : list Store.record :=
  [ Store.Record_ "doc_0" (encode (description mic)) (description mic)
      (Metadata.mk "Musical_Instruments" 139);
    Store.Record_ "doc_1" (encode (description wiper)) (description wiper)
      (Metadata.mk "Automotive" 12) ].

(** An index that ranks in insertion order. *)
Definition rank (c : list Store.record) (q : list Q) : list Store.record := c.

(** An endpoint that fails at every call. *)
Definition down (k : nat) (req : Py.chat_request) : string + string :=
  inl "503 Service Unavailable".

(** An endpoint that fails twice and then answers. *)
Definition flaky (k : nat) (req : Py.chat_request) : string + string :=
  if (k <? 2)%nat then inl "503 Service Unavailable" else inr "$129.99".

(** A sampler that takes the first [size] positions. *)
Definition np_choice (g n size : nat) (p : list Q) : list nat * nat :=
  (seq 0 size, S g).

(** A congruential generator. *)
Definition randbelow (g n : nat) : nat * nat :=
  (g mod n, (g * 5 + 3) mod 64).

(** A reply with six deals. *)
Definition six_deals (req : parse_request) : Deals.DealSelection :=
  Deals.mkSelection
    (replicate 6 (Deals.mkDeal "A laptop, $200 off" 200 "https://example.org/d")).

Definition item_of (d : Datapoint.t) (price : Q) : Item.t :=
  {| Item.prompt := QUESTION +:+ Datapoint.title d +:+ PRICE_SUFFIX;
     Item.test_prompt := QUESTION +:+ Datapoint.title d +:+ PRICE_SUFFIX;
     Item.price := price;
     Item.category := "Appliances";
     Item.token_count := String.length (Datapoint.title d);
     Item.include := true |}.

End Demo.

(** ** Price slots *)

(** The slot of rounded price [i] in a list of items: its members, in the
    order of the list. *)
Definition in_slot (i : Z) (l : list Item.t) : list Item.t :=
  filter (fun item => PyNum.round (Item.price item) = i) l.

(** Every character of [s] is a digit. *)
Fixpoint all_digits (s : string) : bool :=
  match s with
  | EmptyString => true
  | String c s' => PyStr.is_digit c && all_digits s'
  end.

(** ** More of the notebooks *)

(** The scan of [s.split(sep)] for a non-empty [sep]: the pieces between the
    occurrences of [sep], found left to right without overlap; [skip] counts
    the characters of the occurrence just found that are still to be passed
    over.  The head of the result is the piece being read. *)
Fixpoint str_split_go (sep : string) (skip : nat) (s : string) : list string :=
  match s with
  | EmptyString => [EmptyString]
  | String c s' =>
      match skip with
      | S k => str_split_go sep k s'
      | O =>
          if String.prefix sep s
          then EmptyString :: str_split_go sep (String.length sep - 1) s'
          else
            match str_split_go sep 0 s' with
            | piece :: pieces => String c piece :: pieces
            | [] => [String c EmptyString]
            end
      end
  end.

Definition str_split (sep s : string) : list string := str_split_go sep 0 s.

Module Ensemble.

Definition QUESTION_END : string := "to the nearest dollar?" +:+ nl +:+ nl.

(** [description(item)] of the ensemble notebook:
    [item.prompt.split(...)[1].split(...)[0]]; [None] is the [IndexError] of
    the subscript [[1]]. *)
Definition description (item : Item.t) : option string :=
  text ← str_split QUESTION_END (Item.prompt item) !! 1;
  Some (PyStr.before PRICE_SUFFIX text).

(** The four lists that the collecting loop fills. *)
Record estimates : Type := Estimates {
  specialists : list Q;
  frontiers : list Q;
  random_forests : list Q;
  prices : list Q
}.

Section Loop.

(** The [price(text)] methods of the three agents; [None] is a call that
    raises. *)
Variable specialist_price : string -> option Q.
Variable frontier_price : string -> option Q.
Variable random_forest_price : string -> option Q.

(** The body of [for item in tqdm(test[1000:1250])]. *)
Definition collect_step (acc : estimates) (item : Item.t) : option estimates :=
  text ← description item;
  s ← specialist_price text;
  f ← frontier_price text;
  r ← random_forest_price text;
  Some {| specialists := specialists acc ++ [s];
          frontiers := frontiers acc ++ [f];
          random_forests := random_forests acc ++ [r];
          prices := prices acc ++ [Item.price item] |}.

Definition collect (test : list Item.t) : option estimates :=
  foldl (fun acc item => a ← acc; collect_step a item)
        (Some (Estimates [] [] [] [])) (slice test 1000 1250).

End Loop.

End Ensemble.

(** ** 01_Data Curation: the counting cells *)

Section CurationCounts.

Variable py_float : string -> option Q.
(** [str(...)] of a list of strings. *)
Variable str_of_list : list string -> string.

(** The body of the loop of the cell "How many have prices?". *)
Definition prices_step (prices : nat) (datapoint : Datapoint.t) : nat :=
  match py_float (Datapoint.price datapoint) with
  | Some price => if Qltb 0 price then prices + 1 else prices
  | None => prices
  end.

Definition count_prices (dataset : list Datapoint.t) : nat :=
  foldl prices_step 0 dataset.

(** The body of the loop that gathers [valid_prices] and [lengths]. *)
Definition valid_step (st : list Q * list nat) (datapoint : Datapoint.t)
  : list Q * list nat :=
  let '(valid_prices, lengths) := st in
  match py_float (Datapoint.price datapoint) with
  | Some price =>
      if Qle_bool 1 price && Qle_bool price 999 then
        let content :=
          Datapoint.title datapoint
          +:+ str_of_list (Datapoint.description datapoint)
          +:+ str_of_list (Datapoint.features datapoint)
          +:+ Datapoint.details datapoint in
        (valid_prices ++ [price], lengths ++ [String.length content])
      else st
  | None => st
  end.

Definition valid_prices_lengths (dataset : list Datapoint.t)
  : list Q * list nat :=
  foldl valid_step ([], []) dataset.

End CurationCounts.

(** ** 06, second notebook: the category counter *)

(** [counter[key]] on a [Counter]: the count, 0 for a key it does not have.
    The counter is kept as its items in insertion order. *)
Fixpoint counter_get (counter : list (string * nat)) (key : string) : nat :=
  match counter with
  | [] => 0
  | (k, n) :: rest => if String.eqb k key then n else counter_get rest key
  end.

(** [counter[key] = n]: in place for a key the counter has, at the end for a
    new one. *)
Fixpoint counter_set (counter : list (string * nat)) (key : string) (n : nat)
  : list (string * nat) :=
  match counter with
  | [] => [(key, n)]
  | (k, m) :: rest =>
      if String.eqb k key then (k, n) :: rest
      else (k, m) :: counter_set rest key n
  end.

(** [category_counts[item.category] += 1] for every item. *)
Definition category_counts (items : list Item.t) : list (string * nat) :=
  foldl (fun counter item =>
           counter_set counter (Item.category item)
             (counter_get counter (Item.category item) + 1))
        [] items.

(** [categories = category_counts.keys()] and
    [counts = [category_counts[category] for category in categories]]. *)
Definition categories_of (counter : list (string * nat)) : list string :=
  map fst counter.

Definition counts_of (counter : list (string * nat)) : list nat :=
  map (counter_get counter) (categories_of counter).

(** ** The user interface notebook *)

Module UI.

(** [Opportunity(deal=..., estimate=..., discount=...)]: the class is in
    [Core/deals.py]; the cell constructs it with these three fields. *)
Record Opportunity : Type := mkOpportunity {
  deal : Deals.Deal;
  estimate : Q;
  discount : Q
}.

(** [get_table(opps)]: one row of five cells per opportunity. *)
Definition get_table (opps : list Opportunity)
  : list (string * Q * Q * Q * string) :=
  map (fun opp =>
         (Deals.product_description (deal opp), Deals.price (deal opp),
          estimate opp, discount opp, Deals.url (deal opp)))
      opps.

(** [do_select(opportunities, selected_index)], [row] being
    [selected_index.index[0]]: the alerts sent so far are extended by the
    selected opportunity; [None] is the [IndexError] of
    [opportunities[row]]. *)
Definition do_select (opportunities : list Opportunity) (row : nat)
    (alerts : list Opportunity) : option (list Opportunity) :=
  opportunity ← opportunities !! row;
  Some (alerts ++ [opportunity]).

End UI.

(** ** Vector-store notebook: the prework cell of the plot *)

Definition CATEGORIES : list string :=
  ["Appliances"; "Automotive"; "Cell_Phones_and_Accessories"; "Electronics";
   "Musical_Instruments"; "Office_Products"; "Tools_and_Home_Improvement";
   "Toys_and_Games"].

Definition COLORS : list string :=
  ["red"; "blue"; "brown"; "orange"; "yellow"; "green"; "purple"; "cyan"].

(** The [dataset_names] of the curation notebook. *)
Definition dataset_names : list string :=
  ["Automotive"; "Electronics"; "Office_Products";
   "Tools_and_Home_Improvement"; "Cell_Phones_and_Accessories";
   "Toys_and_Games"; "Appliances"; "Musical_Instruments"].

(** [l.index(x)]; [None] is [ValueError]. *)
Fixpoint list_index (l : list string) (x : string) : option nat :=
  match l with
  | [] => None
  | y :: l' => if String.eqb y x then Some 0 else S <$> list_index l' x
  end.

Module Plot.

(** What the cell can raise. *)
Inductive error : Type :=
| NameError (name : string)
| ValueError
| IndexError.

(** The configuration cell, [MAX_DATAPOINTS = 30_000], as it acts on the
    global namespace [g]: the integer constants of the notebook, by name. *)
Definition configuration (g : gmap string Z) : gmap string Z :=
  <["MAX_DATAPOINTS" := 30000%Z]> g.

(** [collection.get(include=[...], limit=limit)]: the first [limit] records,
    [coll] being the records in the order the store returns them. *)
Definition collection_get (coll : list Store.record) (limit : Z)
  : list Store.record :=
  take (Z.to_nat limit) coll.

(** [COLORS[CATEGORIES.index(c)]]: [index] raises [ValueError] for a
    category that is not in the list, the subscript [IndexError]. *)
Definition color_of (c : string) : error + string :=
  match list_index CATEGORIES c with
  | None => inl ValueError
  | Some i =>
      match COLORS !! i with
      | Some color => inr color
      | None => inl IndexError
      end
  end.

(** [[COLORS[CATEGORIES.index(c)] for c in categories]], left to right. *)
Fixpoint colors_of (categories : list string) : error + list string :=
  match categories with
  | [] => inr []
  | c :: rest =>
      match color_of c with
      | inl e => inl e
      | inr color =>
          match colors_of rest with
          | inl e => inl e
          | inr colors => inr (color :: colors)
          end
      end
  end.

(** The names the cell binds. *)
Record prework_result : Type := Prework {
  vectors : list (list Q);
  documents : list string;
  categories : list string;
  colors : list string
}.

(** The whole cell, run in the namespace [g]: it reads the global
    [MAXIMUM_DATAPOINTS] first, and a name that is not bound raises
    [NameError]. *)
Definition prework (g : gmap string Z) (coll : list Store.record)
  : error + prework_result :=
  match g !! "MAXIMUM_DATAPOINTS" with
  | None => inl (NameError "MAXIMUM_DATAPOINTS")
  | Some limit =>
      let result := collection_get coll limit in
      let vectors := map Store.embedding result in
      let documents := map Store.document result in
      let categories :=
        map (fun r => Metadata.category (Store.metadata r)) result in
      match colors_of categories with
      | inl e => inl e
      | inr colors => inr (Prework vectors documents categories colors)
      end
  end.

End Plot.


(** The lines printed in a log. *)
Definition printed_lines (log : list Py.event) : list string :=
  omap (fun ev => match ev with Py.Print line => Some line | _ => None end)
       log.


(** The number that a run of digits denotes, read on top of [acc]. *)
Fixpoint digits_value (s : string) (acc : Z) : Z :=
  match s with
  | EmptyString => acc
  | String c s' => digits_value s' (10 * acc + PyStr.digit_val c)%Z
  end.

(** * Properties *)

(** ** Strings *)

Lemma PRICE_SUFFIX_eq :
  PRICE_SUFFIX = String "010" (String "010" "Price is $").
Proof. reflexivity. Qed.

Lemma app_nil (s : string) : EmptyString +:+ s = s.
Proof. reflexivity. Qed.

Lemma app_cons (c : ascii) (a b : string) :
  String c a +:+ b = String c (a +:+ b).
Proof. reflexivity. Qed.

Lemma string_app_assoc (a b c : string) : (a +:+ b) +:+ c = a +:+ (b +:+ c).
Proof.
  induction a as [|x a IH]; [done|]. by rewrite !app_cons, IH.
Qed.

Lemma string_app_empty_r (a : string) : a +:+ EmptyString = a.
Proof.
  induction a as [|x a IH]; [done|]. by rewrite app_cons, IH.
Qed.

Lemma prefix_cons (a b : ascii) (s1 s2 : string) :
  String.prefix (String a s1) (String b s2)
  = if ascii_dec a b then String.prefix s1 s2 else false.
Proof. reflexivity. Qed.

Lemma prefix_nil_l (s : string) : String.prefix EmptyString s = true.
Proof. by destruct s. Qed.

Lemma replace_go_cons (old new : string) (c : ascii) (s : string) :
  PyStr.replace_go old new 0 (String c s)
  = if String.prefix old (String c s)
    then new +:+ PyStr.replace_go old new (String.length old - 1) s
    else String c (PyStr.replace_go old new 0 s).
Proof. reflexivity. Qed.

Lemma contains_cons (old : string) (c : ascii) (s : string) :
  PyStr.contains old (String c s)
  = String.prefix old (String c s) || PyStr.contains old s.
Proof. reflexivity. Qed.

(** ** [get_price] *)

Example get_price_ex1 : get_price "$1,299.50 approx" = Some (2599 # 2)%Q.
Proof. reflexivity. Qed.
Example get_price_ex2 : get_price "about 12 or 3.5" = Some 12%Q.
Proof. reflexivity. Qed.
Example get_price_ex3 : get_price "n/a" = Some 0%Q.
Proof. reflexivity. Qed.
Example get_price_ex4 : get_price "-.5" = Some (-1 # 2)%Q.
Proof. reflexivity. Qed.
Example get_price_ex5 : get_price "12." = Some 12%Q.
Proof. reflexivity. Qed.
Example first_token_price_ex1 :
  first_token_price "$1,299.50 approx" = Some (2599 # 2)%Q.
Proof. reflexivity. Qed.

(** *** The matcher finds only what the expression denotes *)

Lemma string_length_app (a b : string) :
  String.length (a +:+ b) = String.length a + String.length b.
Proof.
  induction a as [|x a IH]; [done|]. rewrite app_cons. simpl. by rewrite IH.
Qed.

Lemma take_app_length (tok rest : string) :
  PyStr.take (String.length (tok +:+ rest) - String.length rest)
    (tok +:+ rest) = tok.
Proof.
  rewrite string_length_app.
  replace (String.length tok + String.length rest - String.length rest)
    with (String.length tok) by lia.
  induction tok as [|x tok IH]; [by destruct rest|].
  rewrite app_cons. simpl. by rewrite IH.
Qed.

Lemma star_loop_sound (r : Re.regex)
    (step : string -> (string -> option string) -> option string)
    (k : string -> option string) :
  (forall s k' rest,
     step s k' = Some rest ->
     exists tok s', s = tok +:+ s' /\ Re.matches r tok /\ k' s' = Some rest) ->
  forall fuel s rest,
    Re.star_loop step k fuel s = Some rest ->
    exists tok s',
      s = tok +:+ s' /\ Re.matches (Re.Star r) tok /\ k s' = Some rest.
Proof.
  intros Hstep. induction fuel as [|fuel IH]; intros s rest Hrun.
  - exists EmptyString, s. split; [done|]. split; [constructor | done].
  - simpl in Hrun.
    destruct (step s _) as [x|] eqn:Hs.
    + injection Hrun as ->.
      apply Hstep in Hs as (tok1 & s1 & -> & Hm1 & Hk1).
      destruct (String.length s1 <? String.length (tok1 +:+ s1))%nat;
        [|done].
      apply IH in Hk1 as (tok2 & s2 & -> & Hm2 & Hk2).
      exists (tok1 +:+ tok2), s2.
      split; [by rewrite string_app_assoc|]. split; [by constructor | done].
    + exists EmptyString, s. split; [done|]. split; [constructor | done].
Qed.

(** A successful run of the matcher splits the input into a string the
    expression denotes and the rest that the continuation accepted. *)
Lemma exec_sound (r : Re.regex) :
  forall s k rest,
    Re.exec r s k = Some rest ->
    exists tok s', s = tok +:+ s' /\ Re.matches r tok /\ k s' = Some rest.
Proof.
  induction r as [|p|r1 IH1 r2 IH2|r1 IH1 r2 IH2|r1 IH1];
    intros s k rest Hrun; simpl in Hrun.
  - exists EmptyString, s. split; [done|]. split; [constructor | done].
  - destruct s as [|c s]; [done|]. destruct (p c) eqn:Hp; [|done].
    exists (String c EmptyString), s.
    split; [done|]. split; [by constructor | done].
  - apply IH1 in Hrun as (tok1 & s1 & -> & Hm1 & Hrun).
    apply IH2 in Hrun as (tok2 & s2 & -> & Hm2 & Hk).
    exists (tok1 +:+ tok2), s2.
    split; [by rewrite string_app_assoc|]. split; [by constructor | done].
  - destruct (Re.exec r1 s k) as [x|] eqn:H1.
    + injection Hrun as ->. apply IH1 in H1 as (tok & s' & -> & Hm & Hk).
      exists tok, s'. split; [done|]. split; [by apply Re.MAltL | done].
    + apply IH2 in Hrun as (tok & s' & -> & Hm & Hk).
      exists tok, s'. split; [done|]. split; [by apply Re.MAltR | done].
  - by apply (star_loop_sound r1 (Re.exec r1) k IH1) in Hrun.
Qed.

Lemma exec_token (r : Re.regex) (s rest : string) :
  Re.exec r s Some = Some rest ->
  exists tok,
    s = tok +:+ rest /\ Re.matches r tok /\
    PyStr.take (String.length s - String.length rest) s = tok.
Proof.
  intros (tok & s' & -> & Hm & [= ->])%exec_sound.
  exists tok. split; [done|]. split; [done|]. apply take_app_length.
Qed.

(** What [re.search] returns is a substring of the input that the expression
    denotes. *)
Lemma search_sound (r : Re.regex) (s tok : string) :
  Re.search r s = Some tok ->
  exists pre rest, s = pre +:+ tok +:+ rest /\ Re.matches r tok.
Proof.
  induction s as [|c s IH]; cbn [Re.search]; intros Hrun.
  - destruct (Re.exec r EmptyString Some) as [rest|] eqn:He; [|done].
    injection Hrun as <-.
    apply exec_token in He as (tok' & Hs & Hm & _).
    destruct tok' as [|x tok']; [|by rewrite app_cons in Hs].
    by exists EmptyString, EmptyString.
  - destruct (Re.exec r (String c s) Some) as [rest|] eqn:He.
    + apply exec_token in He as (tok' & Hs & Hm & Htake).
      assert (tok = tok') as ->.
      { rewrite <- Htake. by injection Hrun. }
      by exists EmptyString, rest.
    + apply IH in Hrun as (pre & rest & -> & Hm).
      exists (String c pre), rest. by rewrite app_cons.
Qed.

(** The match that [re.search] returns is the first one: the pattern matches
    where the token starts and at no earlier position. *)
Lemma search_leftmost (r : Re.regex) (s tok : string) :
  Re.search r s = Some tok ->
  exists pre rest,
    s = pre +:+ tok +:+ rest /\
    Re.exec r (tok +:+ rest) Some = Some rest /\
    forall pre1 pre2,
      pre = pre1 +:+ pre2 -> pre2 <> EmptyString ->
      Re.exec r (pre2 +:+ tok +:+ rest) Some = None.
Proof.
  induction s as [|c s IH]; cbn [Re.search]; intros Hrun.
  - destruct (Re.exec r EmptyString Some) as [rest|] eqn:He; [|done].
    injection Hrun as <-.
    pose proof He as He'.
    apply exec_token in He' as (tok' & Hs & Hm & _).
    destruct tok' as [|x tok']; [|by rewrite app_cons in Hs].
    rewrite app_nil in Hs. subst rest.
    exists EmptyString, EmptyString. split; [done|]. split; [done|].
    intros [|x pre1] pre2 Hpre Hne; [by rewrite app_nil in Hpre|].
    by rewrite app_cons in Hpre.
  - destruct (Re.exec r (String c s) Some) as [rest|] eqn:He.
    + pose proof He as He'.
      apply exec_token in He' as (tok' & Hs & Hm & Htake).
      assert (tok = tok') as ->.
      { rewrite <- Htake. by injection Hrun. }
      exists EmptyString, rest. rewrite app_nil. split; [done|].
      split; [by rewrite <- Hs|].
      intros [|x pre1] pre2 Hpre Hne; [by rewrite app_nil in Hpre|].
      by rewrite app_cons in Hpre.
    + apply IH in Hrun as (pre & rest & -> & Hat & Hbefore).
      exists (String c pre), rest. rewrite app_cons.
      split; [done|]. split; [done|].
      intros [|x pre1] pre2 Hpre Hne.
      * rewrite app_nil in Hpre. subst pre2. by rewrite app_cons.
      * rewrite app_cons in Hpre. injection Hpre as -> ->.
        by apply (Hbefore pre1 pre2).
Qed.

(** *** The tokens of the price pattern *)

Lemma matches_star_digits (tok : string) :
  Re.matches (Re.Star (Re.Cls PyStr.is_digit)) tok -> all_digits tok = true.
Proof.
  remember (Re.Star (Re.Cls PyStr.is_digit)) as r eqn:Er.
  induction 1 as [| | | | | |r' s1 s2 H1 _ H2 IH2]; try discriminate; [done|].
  injection Er as ->. inversion H1 as [|p c Hc| | | | |]; subst.
  rewrite app_cons, app_nil. simpl. rewrite Hc. by apply IH2.
Qed.

Lemma matches_plus_digits (tok : string) :
  Re.matches (Re.Plus (Re.Cls PyStr.is_digit)) tok ->
  exists c tok', tok = String c tok' /\ PyStr.is_digit c = true /\
                 all_digits tok' = true.
Proof.
  unfold Re.Plus. inversion 1 as [| |r1 r2 s1 s2 H1 H2| | | |]; subst.
  inversion H1 as [|p c Hc| | | | |]; subst.
  exists c, s2. rewrite app_cons, app_nil.
  split; [done|]. split; [done|]. by apply matches_star_digits.
Qed.

Lemma take_digits_all (s : string) :
  forall acc n,
    all_digits s = true ->
    exists v, PyStr.take_digits s acc n = (v, n + String.length s, EmptyString).
Proof.
  induction s as [|c s IH]; intros acc n Hs; simpl in *.
  - exists acc. by rewrite Nat.add_0_r.
  - apply andb_true_iff in Hs as [Hc Hs]. rewrite Hc.
    destruct (IH (10 * acc + PyStr.digit_val c)%Z (S n) Hs) as [v Hv].
    exists v. rewrite Hv. do 2 f_equal. lia.
Qed.

Lemma take_digits_until_dot (d rest : string) :
  forall acc n,
    all_digits d = true ->
    exists v,
      PyStr.take_digits (d +:+ String "." rest) acc n
      = (v, n + String.length d, String "." rest).
Proof.
  induction d as [|c d IH]; intros acc n Hd.
  - exists acc. rewrite app_nil. simpl. by rewrite Nat.add_0_r.
  - simpl in Hd. apply andb_true_iff in Hd as [Hc Hd].
    rewrite app_cons. simpl. rewrite Hc.
    destruct (IH (10 * acc + PyStr.digit_val c)%Z (S n) Hd) as [v Hv].
    exists v. rewrite Hv. do 2 f_equal. lia.
Qed.

Lemma float_body_integer (sgn : Z) (c : ascii) (tok : string) :
  PyStr.is_digit c = true -> all_digits tok = true ->
  is_Some (PyStr.float_body sgn (String c tok)).
Proof.
  intros Hc Htok. unfold PyStr.float_body.
  destruct (take_digits_all (String c tok) 0%Z 0) as [v Hv].
  { simpl. by rewrite Hc. }
  rewrite Hv. simpl. by eexists.
Qed.

Lemma float_body_decimal (sgn : Z) (d1 : string) (c : ascii) (d2 : string) :
  all_digits d1 = true -> PyStr.is_digit c = true -> all_digits d2 = true ->
  is_Some (PyStr.float_body sgn (d1 +:+ String "." (String c d2))).
Proof.
  intros H1 Hc H2. unfold PyStr.float_body.
  destruct (take_digits_until_dot d1 (String c d2) 0%Z 0 H1) as [v1 Hv1].
  rewrite Hv1.
  destruct (take_digits_all (String c d2) 0%Z 0) as [v2 Hv2].
  { simpl. by rewrite Hc. }
  rewrite Hv2. simpl.
  destruct (String.length d1 + S (String.length d2) =? 0)%nat eqn:E.
  - apply Nat.eqb_eq in E. lia.
  - by eexists.
Qed.

Lemma float_unsigned (c : ascii) (s : string) :
  is_sign c = false ->
  PyStr.float (String c s) = PyStr.float_body 1 (String c s).
Proof.
  destruct c as [[] [] [] [] [] [] [] []]; try reflexivity; discriminate.
Qed.

Lemma float_signed (c : ascii) (s : string) :
  is_sign c = true ->
  exists sgn, PyStr.float (String c s) = PyStr.float_body sgn s.
Proof.
  destruct c as [[] [] [] [] [] [] [] []]; try discriminate; intros _.
  - by exists 1%Z.
  - by exists (-1)%Z.
Qed.

Lemma digit_not_sign (c : ascii) : PyStr.is_digit c = true -> is_sign c = false.
Proof. destruct c as [[] [] [] [] [] [] [] []]; by vm_compute. Qed.

(** The body of the decimal branch, [\d*\.\d+]. *)
Local Abbreviation decimal_body :=
  (Re.Cat (Re.Star (Re.Cls PyStr.is_digit))
     (Re.Cat (Re.Cls is_dot) (Re.Plus (Re.Cls PyStr.is_digit)))).

Lemma matches_decimal_body (tok : string) :
  Re.matches decimal_body tok ->
  exists d1 c d2,
    tok = d1 +:+ String "." (String c d2) /\ all_digits d1 = true /\
    PyStr.is_digit c = true /\ all_digits d2 = true.
Proof.
  inversion 1 as [| |r1 r2 d1 t H1 H2| | | |]; subst.
  inversion H2 as [| |r1 r2 dot d H3 H4| | | |]; subst.
  inversion H3 as [|p c Hc| | | | |]; subst.
  apply matches_plus_digits in H4 as (c2 & d2 & -> & Hc2 & Hd2).
  apply matches_star_digits in H1.
  assert (c = "."%char) as ->.
  { unfold is_dot in Hc. by apply Ascii.eqb_eq in Hc. }
  exists d1, c2, d2. by rewrite app_cons, app_nil.
Qed.

Lemma float_decimal_body (tok : string) :
  Re.matches decimal_body tok -> is_Some (PyStr.float tok).
Proof.
  intros (d1 & c & d2 & -> & H1 & Hc & H2)%matches_decimal_body.
  destruct d1 as [|x d1].
  - rewrite app_nil. rewrite float_unsigned by done.
    by apply (float_body_decimal 1 EmptyString c d2).
  - simpl in H1. apply andb_true_iff in H1 as [Hx H1].
    rewrite app_cons, float_unsigned by (by apply digit_not_sign).
    rewrite <- app_cons. apply float_body_decimal; [|done..].
    simpl. by rewrite Hx.
Qed.

(** [float] converts every token of the price pattern. *)
Lemma float_price_token (tok : string) :
  Re.matches price_re tok -> is_Some (PyStr.float tok).
Proof.
  unfold price_re. inversion 1 as [| | |r1 r2 s Hdec|r1 r2 s Hint| |]; subst.
  - inversion Hdec as [| |r1 r2 sg body Hsg Hbody| | | |]; subst.
    inversion Hsg as [| | |r1 r2 s Hs|r1 r2 s He| |]; subst.
    + inversion Hs as [|p c Hc| | | | |]; subst.
      rewrite app_cons, app_nil.
      destruct (float_signed c body Hc) as [sgn ->].
      apply matches_decimal_body in Hbody
        as (d1 & c' & d2 & -> & H1 & Hc' & H2).
      by apply float_body_decimal.
    + inversion He; subst. rewrite app_nil. by apply float_decimal_body.
  - apply matches_plus_digits in Hint as (c & tok' & -> & Hc & Htok).
    rewrite float_unsigned by (by apply digit_not_sign).
    by apply float_body_integer.
Qed.

(** [get_price] never raises: it returns a number for every reply. *)
Lemma get_price_total (s : string) : is_Some (get_price s).
Proof.
  unfold get_price.
  destruct (Re.search price_re (strip_price_chars s)) as [tok|] eqn:Hs.
  - apply search_sound in Hs as (_ & _ & _ & Hm).
    by apply float_price_token.
  - by eexists.
Qed.

(** *** Stripping, and replies without a digit *)

Lemma replace_char_cons (c x : ascii) (s : string) :
  PyStr.replace (String c EmptyString) EmptyString (String x s)
  = if ascii_dec c x
    then PyStr.replace (String c EmptyString) EmptyString s
    else String x (PyStr.replace (String c EmptyString) EmptyString s).
Proof.
  unfold PyStr.replace. rewrite replace_go_cons, prefix_cons.
  destruct (ascii_dec c x); [|done]. by rewrite prefix_nil_l.
Qed.

(** Replacing a character by the empty string removes every occurrence of it
    and nothing else. *)
Lemma mem_replace_char (c d : ascii) (s : string) :
  PyStr.mem d (PyStr.replace (String c EmptyString) EmptyString s)
  = negb (Ascii.eqb c d) && PyStr.mem d s.
Proof.
  induction s as [|x s IH]; [by rewrite andb_false_r|].
  rewrite replace_char_cons. destruct (ascii_dec c x) as [<-|Hne].
  - rewrite IH. cbn [PyStr.mem]. by destruct (Ascii.eqb c d).
  - cbn [PyStr.mem]. rewrite IH.
    destruct (Ascii.eqb x d) eqn:Exd; [|done].
    apply Ascii.eqb_eq in Exd as ->.
    apply Ascii.eqb_neq in Hne. by rewrite Hne.
Qed.

(** After the two replacements no dollar sign and no comma is left. *)
Lemma strip_price_chars_clean (s : string) :
  PyStr.mem "$" (strip_price_chars s) = false /\
  PyStr.mem "," (strip_price_chars s) = false.
Proof.
  unfold strip_price_chars. rewrite !mem_replace_char.
  split; [|done]. by rewrite andb_false_r.
Qed.

(** Every other character stays. *)
Lemma strip_price_chars_keeps (d : ascii) (s : string) :
  d <> "$"%char -> d <> ","%char ->
  PyStr.mem d (strip_price_chars s) = PyStr.mem d s.
Proof.
  intros H1 H2. unfold strip_price_chars. rewrite !mem_replace_char.
  assert (Ascii.eqb "," d = false) as -> by (apply Ascii.eqb_neq; congruence).
  assert (Ascii.eqb "$" d = false) as -> by (apply Ascii.eqb_neq; congruence).
  done.
Qed.

Lemma has_digit_replace_char (c : ascii) (s : string) :
  PyStr.is_digit c = false ->
  PyStr.has_digit (PyStr.replace (String c EmptyString) EmptyString s)
  = PyStr.has_digit s.
Proof.
  intros Hc. induction s as [|x s IH]; [done|].
  rewrite replace_char_cons. destruct (ascii_dec c x) as [<-|Hne].
  - cbn [PyStr.has_digit]. by rewrite Hc, IH.
  - cbn [PyStr.has_digit]. by rewrite IH.
Qed.

Lemma has_digit_strip (s : string) :
  PyStr.has_digit (strip_price_chars s) = PyStr.has_digit s.
Proof.
  unfold strip_price_chars. by rewrite !has_digit_replace_char.
Qed.

Lemma has_digit_app (a b : string) :
  PyStr.has_digit (a +:+ b) = PyStr.has_digit a || PyStr.has_digit b.
Proof.
  induction a as [|x a IH]; [done|].
  rewrite app_cons. simpl. by rewrite IH, orb_assoc.
Qed.

(** A token of the price pattern has a digit. *)
Lemma price_token_has_digit (tok : string) :
  Re.matches price_re tok -> PyStr.has_digit tok = true.
Proof.
  unfold price_re. inversion 1 as [| | |r1 r2 s Hdec|r1 r2 s Hint| |]; subst.
  - inversion Hdec as [| |r1 r2 sg body Hsg Hbody| | | |]; subst.
    apply matches_decimal_body in Hbody
      as (d1 & c & d2 & -> & _ & Hc & _).
    rewrite !has_digit_app. simpl. rewrite Hc.
    by rewrite !orb_true_r.
  - apply matches_plus_digits in Hint as (c & tok' & -> & Hc & _).
    simpl. by rewrite Hc.
Qed.

(** In a text without a digit the search finds nothing. *)
Lemma search_no_digit (s : string) :
  PyStr.has_digit s = false -> Re.search price_re s = None.
Proof.
  intros Hs. destruct (Re.search price_re s) as [tok|] eqn:Hrun; [|done].
  apply search_sound in Hrun as (pre & rest & -> & Hm).
  apply price_token_has_digit in Hm.
  rewrite !has_digit_app, Hm in Hs. by rewrite orb_true_r in Hs.
Qed.

(** A reply without a digit has no numeric token, and its price is 0. *)
Lemma get_price_no_digit (s : string) :
  PyStr.has_digit s = false -> get_price s = Some 0%Q.
Proof.
  intros Hs. unfold get_price.
  by rewrite search_no_digit by (by rewrite has_digit_strip).
Qed.

(** *** Replies with a digit *)

Lemma star_loop_total
    (step : string -> (string -> option string) -> option string)
    (k : string -> option string) (fuel : nat) (s : string) :
  (forall x, is_Some (k x)) -> is_Some (Re.star_loop step k fuel s).
Proof.
  intros Hk. destruct fuel as [|fuel]; simpl; [apply Hk|].
  destruct (step s _); [by eexists | apply Hk].
Qed.

(** At a digit the pattern matches. *)
Lemma exec_price_at_digit (c : ascii) (s : string) :
  PyStr.is_digit c = true ->
  is_Some (Re.exec price_re (String c s) Some).
Proof.
  intros Hc. unfold price_re. cbn [Re.exec].
  match goal with
  | |- is_Some (match ?e with Some _ => _ | None => _ end) => destruct e
  end; [by eexists|].
  unfold Re.Plus. cbn [Re.exec]. rewrite Hc.
  apply star_loop_total. by eexists.
Qed.

Lemma search_finds (s : string) :
  PyStr.has_digit s = true -> is_Some (Re.search price_re s).
Proof.
  induction s as [|c s IH]; [done|]. intros Hs. cbn [Re.search].
  destruct (Re.exec price_re (String c s) Some) as [rest|] eqn:He;
    [by eexists|].
  apply IH. simpl in Hs. destruct (PyStr.is_digit c) eqn:Hc; [|done].
  destruct (exec_price_at_digit c s Hc) as [x Hx]. congruence.
Qed.

(** A reply with a digit has a token: a piece of the stripped reply that the
    pattern denotes, and the price is its conversion. *)
Lemma get_price_digit (s : string) :
  PyStr.has_digit s = true ->
  exists pre tok rest q,
    strip_price_chars s = pre +:+ tok +:+ rest /\
    Re.matches price_re tok /\
    PyStr.float tok = Some q /\ get_price s = Some q.
Proof.
  intros Hs. rewrite <- has_digit_strip in Hs.
  destruct (search_finds _ Hs) as [tok Htok].
  destruct (search_sound _ _ _ Htok) as (pre & rest & Hsplit & Hm).
  destruct (float_price_token tok Hm) as [q Hq].
  exists pre, tok, rest, q. unfold get_price. by rewrite Htok.
Qed.

(** *** Where the two patterns agree *)

(** At a position that does not start with a sign, the pattern of the code
    and the pattern of the specification run alike. *)
Lemma exec_unsigned (s : string) :
  match s with
  | EmptyString => True
  | String c _ => is_sign c = false
  end ->
  Re.exec signed_number_re s Some = Re.exec price_re s Some.
Proof.
  intros Hs. unfold signed_number_re, price_re, Re.Opt.
  destruct s as [|c s]; cbn [Re.exec]; [done|]. by rewrite Hs.
Qed.

Lemma mem_sign_head (c : ascii) (s : string) :
  PyStr.mem "-" (String c s) = false -> PyStr.mem "+" (String c s) = false ->
  is_sign c = false.
Proof.
  cbn [PyStr.mem]. intros [H1 _]%orb_false_iff [H2 _]%orb_false_iff.
  unfold is_sign. by rewrite H1, H2.
Qed.

Lemma search_unsigned (s : string) :
  PyStr.mem "-" s = false -> PyStr.mem "+" s = false ->
  Re.search signed_number_re s = Re.search price_re s.
Proof.
  induction s as [|c s IH]; intros Hm Hp; cbn [Re.search].
  - by rewrite exec_unsigned.
  - rewrite exec_unsigned by (by apply (mem_sign_head c s)).
    destruct (Re.exec price_re (String c s) Some); [done|].
    cbn [PyStr.mem] in Hm, Hp.
    apply orb_false_iff in Hm as [_ Hm]. apply orb_false_iff in Hp as [_ Hp].
    by apply IH.
Qed.

(** On a reply without a sign character, [get_price] returns the price the
    specification describes. *)
Lemma get_price_unsigned (s : string) :
  PyStr.mem "-" s = false -> PyStr.mem "+" s = false ->
  get_price s = first_token_price s.
Proof.
  intros Hm Hp. unfold get_price, first_token_price.
  by rewrite search_unsigned by (by rewrite strip_price_chars_keeps).
Qed.

(** C1 (code slip).  On the reply [-5] the first numeric token, an optionally
    signed integer, is [-5], and the price the specification describes is
    -5; [get_price] returns 5: in its pattern the sign belongs to the decimal
    branch only, so the integer branch matches from the digit on.  On the
    signed decimal [-5.0] both agree. *)
Theorem get_price_drops_integer_sign :
  get_price "-5" = Some 5%Q /\
  first_token_price "-5" = Some (-5)%Q /\
  get_price "-5.0" = Some (-5)%Q /\
  first_token_price "-5.0" = Some (-5)%Q.
Proof. repeat split; reflexivity. Qed.

(** ** Lists *)

Lemma map_fmap {A B} (f : A -> B) (l : list A) : map f l = f <$> l.
Proof. reflexivity. Qed.

(** ** The ensemble feature matrix *)

Lemma Qltb_true (x y : Q) : Qltb x y = true <-> (x < y)%Q.
Proof.
  unfold Qltb. rewrite negb_true_iff. split.
  - intros H. apply Qnot_le_lt. intros Hle.
    apply Qle_bool_iff in Hle. congruence.
  - intros H. destruct (Qle_bool y x) eqn:E; [|done].
    apply Qle_bool_iff in E. exfalso. by apply (Qlt_not_le x y).
Qed.

Lemma Qltb_false (x y : Q) : Qltb x y = false <-> (y <= x)%Q.
Proof.
  unfold Qltb. rewrite negb_false_iff. apply Qle_bool_iff.
Qed.

Lemma py_min3_spec (s f r : Q) :
  (py_min3 s f r = s \/ py_min3 s f r = f \/ py_min3 s f r = r) /\
  (py_min3 s f r <= s)%Q /\ (py_min3 s f r <= f)%Q /\ (py_min3 s f r <= r)%Q.
Proof.
  unfold py_min3.
  destruct (Qltb f s) eqn:Hfs.
  - apply Qltb_true in Hfs. destruct (Qltb r f) eqn:Hrf.
    + apply Qltb_true in Hrf. repeat split; auto using Qle_refl, Qlt_le_weak.
      apply Qlt_le_weak. by apply Qlt_trans with f.
    + apply Qltb_false in Hrf. repeat split; auto using Qle_refl, Qlt_le_weak.
  - apply Qltb_false in Hfs. destruct (Qltb r s) eqn:Hrs.
    + apply Qltb_true in Hrs. repeat split; auto using Qle_refl, Qlt_le_weak.
      apply Qle_trans with s; auto using Qlt_le_weak.
    + apply Qltb_false in Hrs. repeat split; auto using Qle_refl.
Qed.

Lemma py_max3_spec (s f r : Q) :
  (py_max3 s f r = s \/ py_max3 s f r = f \/ py_max3 s f r = r) /\
  (s <= py_max3 s f r)%Q /\ (f <= py_max3 s f r)%Q /\ (r <= py_max3 s f r)%Q.
Proof.
  unfold py_max3.
  destruct (Qltb s f) eqn:Hsf.
  - apply Qltb_true in Hsf. destruct (Qltb f r) eqn:Hfr.
    + apply Qltb_true in Hfr. repeat split; auto using Qle_refl, Qlt_le_weak.
      apply Qlt_le_weak. by apply Qlt_trans with f.
    + apply Qltb_false in Hfr. repeat split; auto using Qle_refl, Qlt_le_weak.
  - apply Qltb_false in Hsf. destruct (Qltb s r) eqn:Hsr.
    + apply Qltb_true in Hsr. repeat split; auto using Qle_refl, Qlt_le_weak.
      apply Qle_trans with s; auto using Qlt_le_weak.
    + apply Qltb_false in Hsr. repeat split; auto using Qle_refl.
Qed.

Lemma length_zip3 {A B C} (a : list A) (b : list B) (c : list C) :
  length b = length a -> length c = length a ->
  length (zip3 a b c) = length a.
Proof. intros Hb Hc. unfold zip3. rewrite !length_zip. lia. Qed.

Lemma lookup_zip3 {A B C} (a : list A) (b : list B) (c : list C) k x y z :
  a !! k = Some x -> b !! k = Some y -> c !! k = Some z ->
  zip3 a b c !! k = Some (x, y, z).
Proof.
  intros Ha Hb Hc. unfold zip3.
  apply lookup_zip_Some. split; [|done]. by apply lookup_zip_Some.
Qed.

(** C5.  For estimate lists of one length (the collecting loop appends one
    estimate to each list per item) the cell builds a frame with a row per
    item; in every row [Min] is [min(s, f, r)] and [Max] is [max(s, f, r)]
    of that row's three estimates, each is one of the three, and
    [Min <= estimate <= Max] for each of the three. *)
Theorem feature_matrix_min_max (specialists frontiers random_forests : list Q) :
  length frontiers = length specialists ->
  length random_forests = length specialists ->
  exists X,
    feature_matrix specialists frontiers random_forests = Some X /\
    (forall k, k < length specialists -> is_Some (frame_row X k)) /\
    forall k s f r mn mx,
      frame_row X k = Some (s, f, r, mn, mx) ->
      specialists !! k = Some s /\ frontiers !! k = Some f /\
      random_forests !! k = Some r /\
      mn = py_min3 s f r /\ mx = py_max3 s f r /\
      (mn = s \/ mn = f \/ mn = r) /\ (mx = s \/ mx = f \/ mx = r) /\
      (mn <= s <= mx)%Q /\ (mn <= f <= mx)%Q /\ (mn <= r <= mx)%Q.
Proof.
  intros Hf Hr. unfold feature_matrix, pd_DataFrame.
  rewrite !length_map, !(length_zip3 _ _ _ Hf Hr), Hf, Hr, !Nat.eqb_refl.
  simpl. eexists. split; [reflexivity|].
  assert (Hrow : forall k s f r,
    specialists !! k = Some s -> frontiers !! k = Some f ->
    random_forests !! k = Some r ->
    frame_row
      (Frame specialists frontiers random_forests
         (map (fun t : Q * Q * Q => let '(s, f, r) := t in py_min3 s f r)
            (zip3 specialists frontiers random_forests))
         (map (fun t : Q * Q * Q => let '(s, f, r) := t in py_max3 s f r)
            (zip3 specialists frontiers random_forests))) k
    = Some (s, f, r, py_min3 s f r, py_max3 s f r)).
  { intros k s f r Hs Hf' Hr'. unfold frame_row. simpl.
    rewrite Hs, Hf', Hr'. simpl. rewrite !map_fmap, !list_lookup_fmap.
    by rewrite (lookup_zip3 _ _ _ _ _ _ _ Hs Hf' Hr'). }
  split.
  - intros k Hk.
    destruct (lookup_lt_is_Some_2 specialists k Hk) as [s Hs].
    destruct (lookup_lt_is_Some_2 frontiers k ltac:(lia)) as [f Hf'].
    destruct (lookup_lt_is_Some_2 random_forests k ltac:(lia)) as [r Hr'].
    rewrite (Hrow _ _ _ _ Hs Hf' Hr'). by eexists.
  - intros k s f r mn mx Hk.
    assert (Hs : specialists !! k = Some s).
    { unfold frame_row in Hk. simpl in Hk.
      destruct (specialists !! k); simplify_option_eq; done. }
    assert (Hf' : frontiers !! k = Some f).
    { unfold frame_row in Hk. simpl in Hk.
      destruct (specialists !! k), (frontiers !! k);
        simplify_option_eq; done. }
    assert (Hr' : random_forests !! k = Some r).
    { unfold frame_row in Hk. simpl in Hk.
      destruct (specialists !! k), (frontiers !! k), (random_forests !! k);
        simplify_option_eq; done. }
    rewrite (Hrow _ _ _ _ Hs Hf' Hr') in Hk. simplify_eq.
    destruct (py_min3_spec s f r) as (Hm & ? & ? & ?).
    destruct (py_max3_spec s f r) as (HM & ? & ? & ?).
    repeat split; auto.
Qed.

Lemma feature_matrix_min_max_witness :
  length [100; 90; 95]%Q = length [120; 80; 95]%Q /\
  length [110; 70; 96]%Q = length [120; 80; 95]%Q /\
  exists X,
    feature_matrix [120; 80; 95]%Q [100; 90; 95]%Q [110; 70; 96]%Q = Some X /\
    frame_row X 1 = Some (80, 90, 70, 70, 90)%Q.
Proof.
  split; [reflexivity|]. split; [reflexivity|].
  destruct (feature_matrix_min_max [120; 80; 95]%Q [100; 90; 95]%Q
              [110; 70; 96]%Q eq_refl eq_refl) as (X & HX & _ & _).
  exists X. split; [exact HX|].
  vm_compute in HX. injection HX as <-. reflexivity.
Defined.

(** ** The curated item list *)

Section CurationFacts.

Variable py_float : string -> option Q.
Variable Item_init : Datapoint.t -> Q -> Item.t.

Local Abbreviation curated := (curated py_float Item_init).

Lemma items_step_curated (acc : list Item.t) (d : Datapoint.t) :
  items_step py_float Item_init acc d = acc ++ option_list (curated d).
Proof.
  unfold items_step, curated.
  destruct (py_float (Datapoint.price d)) as [price|]; simpl.
  - destruct (Qle_bool 1 price && Qle_bool price 999); simpl.
    + destruct (Item.include (Item_init d price)); simpl; [done|].
      by rewrite app_nil_r.
    + by rewrite app_nil_r.
  - by rewrite app_nil_r.
Qed.

Lemma items_from (acc : list Item.t) (dataset : list Datapoint.t) :
  foldl (items_step py_float Item_init) acc dataset
  = acc ++ omap curated dataset.
Proof.
  revert acc. induction dataset as [|d dataset IH]; intros acc; simpl.
  - by rewrite app_nil_r.
  - rewrite IH, items_step_curated.
    rewrite <- app_assoc. f_equal. by destruct (curated d).
Qed.

(** The loop keeps, in order, what each record contributes. *)
Lemma items_omap (dataset : list Datapoint.t) :
  items py_float Item_init dataset = omap curated dataset.
Proof. unfold items. by rewrite items_from. Qed.

(** C4.  A record whose price text does not convert, or converts to a number
    outside [1, 999], contributes nothing to [items]; and every member of
    [items] was built by [Item(datapoint, price)] from a record of the
    dataset whose price text converts to a number in [1, 999]. *)
Theorem items_price_in_range (dataset : list Datapoint.t) :
  items py_float Item_init dataset = omap curated dataset /\
  (forall d,
     py_float (Datapoint.price d) = None \/
     (exists price, py_float (Datapoint.price d) = Some price /\
                    ~ (1 <= price <= 999)%Q) ->
     curated d = None) /\
  (forall item,
     item ∈ items py_float Item_init dataset ->
     exists d price,
       d ∈ dataset /\ py_float (Datapoint.price d) = Some price /\
       (1 <= price <= 999)%Q /\ item = Item_init d price /\
       Item.include item = true).
Proof.
  split; [apply items_omap|]. split.
  - intros d [Hnone | (price & Hp & Hout)]; unfold curated.
    + by rewrite Hnone.
    + rewrite Hp.
      destruct (Qle_bool 1 price) eqn:H1, (Qle_bool price 999) eqn:H2;
        simpl; try done.
      exfalso. apply Hout. split; by apply Qle_bool_iff.
  - intros item Hin. rewrite items_omap in Hin.
    apply list_elem_of_omap in Hin as (d & Hd & Hc).
    unfold curated in Hc.
    destruct (py_float (Datapoint.price d)) as [price|] eqn:Hp; [|done].
    destruct (Qle_bool 1 price) eqn:H1, (Qle_bool price 999) eqn:H2;
      simpl in Hc; try done.
    destruct (Item.include (Item_init d price)) eqn:Hinc; [|done].
    injection Hc as <-.
    exists d, price. repeat split; auto; by apply Qle_bool_iff.
Qed.

End CurationFacts.

Lemma items_price_in_range_witness :
  PyStr.float "None" = None /\
  curated PyStr.float Demo.item_of (Datapoint.mk "Filter" [] [] "{}" "None")
  = None.
Proof.
  split; [reflexivity|].
  destruct (items_price_in_range PyStr.float Demo.item_of []) as (_ & H & _).
  apply H. left. reflexivity.
Defined.

Example items_ex :
  map Item.price
    (items PyStr.float Demo.item_of
       [ Datapoint.mk "Fridge" [] [] "{}" "499.99";
         Datapoint.mk "Knob" [] [] "{}" "0.99";
         Datapoint.mk "Range" [] [] "{}" "1299";
         Datapoint.mk "Filter" [] [] "{}" "None";
         Datapoint.mk "Hose" [] [] "{}" "999" ])
  = [(49999 # 100)%Q; 999%Q].
Proof. reflexivity. Qed.

(** ** The deal filter *)

Section ScannerFacts.

Variable ScrapedDeal : Type.
Variable describe : ScrapedDeal -> string.
Variable parse_endpoint : parse_request -> Deals.DealSelection.

(** C9, as amended.  [get_recommendations] sends one request, the system
    prompt and the user prompt with the [DealSelection] reply format, and
    returns the parsed reply as it is.  The limit of 5 deals, the warning
    about discount amounts and the rule to leave out unclear prices are
    sentences of the system prompt. *)
Theorem get_recommendations_returns_reply (deals : list ScrapedDeal) :
  get_recommendations ScrapedDeal describe parse_endpoint deals
  = parse_endpoint
      (ParseRequest "gpt-4o-mini"
         [ Message "system" system_prompt;
           Message "user"
             (user_prompt_header +:+ join (nl +:+ nl) (map describe deals)) ]
         "DealSelection") /\
  PyStr.contains "the 5 most detailed deals" system_prompt = true /\
  PyStr.contains
    ("described as " +:+ dq +:+ "$XXX off" +:+ dq +:+ " or " +:+ dq +:+
     "reduced by $XXX" +:+ dq +:+
     " - this isn't the actual price of the product") system_prompt = true /\
  PyStr.contains
    "If the price of a deal isn't clear, do not include that deal in your response."
    system_prompt = true.
Proof. repeat split; reflexivity. Qed.

End ScannerFacts.

(** C9, the claim as stated fails: when the model replies with six deals, one
    of them priced from a discount amount, [get_recommendations] returns all
    six. *)
Lemma get_recommendations_six_deals :
  length (Deals.deals
            (get_recommendations string (fun d => d) Demo.six_deals
               ["A laptop, $200 off"])) = 6 /\
  ~ length (Deals.deals
              (get_recommendations string (fun d => d) Demo.six_deals
                 ["A laptop, $200 off"])) <= 5.
Proof. split; [reflexivity|]. vm_compute. lia. Qed.

(** ** Retrieval and the retry loop *)

Lemma bind_run {A B} (m : Py.M A) (f : A -> Py.M B) (log : list Py.event) :
  (m ≫= f) log =
  match m log with
  | (Py.Ok a, log') => f a log'
  | (Py.Raise e, log') => (Py.Raise e, log')
  | (Py.OutOfFuel, log') => (Py.OutOfFuel, log')
  end.
Proof. reflexivity. Qed.

Lemma chat_requests_app (l1 l2 : list Py.event) :
  Py.chat_requests (l1 ++ l2) = Py.chat_requests l1 ++ Py.chat_requests l2.
Proof. unfold Py.chat_requests. apply omap_app. Qed.

Lemma while_exit {S} (fuel : nat) (cond : S -> bool) (body : S -> Py.M S)
    (st : S) (log : list Py.event) :
  cond st = false -> Py.while fuel cond body st log = (Py.Ok st, log).
Proof. intros H. destruct fuel; simpl; by rewrite H. Qed.

Lemma while_turn {S} (fuel : nat) (cond : S -> bool) (body : S -> Py.M S)
    (st st' : S) (log log' : list Py.event) :
  cond st = true -> body st log = (Py.Ok st', log') ->
  Py.while (Datatypes.S fuel) cond body st log
  = Py.while fuel cond body st' log'.
Proof. intros Hc Hb. simpl. rewrite Hc. unfold Py.bind. by rewrite Hb. Qed.

Section RagFacts.

Variable encode : string -> list Q.
Variable coll : list Store.record.
Variable rank : list Store.record -> list Q -> list Store.record.
Variable endpoint : nat -> Py.chat_request -> string + string.

Local Abbreviation ranked := (nearest encode coll rank).

Lemma find_similars_run (item : Item.t) (log : list Py.event) :
  find_similars encode coll rank item log =
  (Py.Ok (map Store.document (ranked item),
          map Metadata.price (map Store.metadata (ranked item))),
   log ++ [Py.Query [encode (description item)] 5]).
Proof. reflexivity. Qed.

(** C10.  [find_similars] sends the store one query, for the item's vector
    and [n_results = 5]; it returns the document texts of the records the
    store ranks first, in that order, and a price list of the same length
    whose entry [i] is the price metadata of the very record that supplied
    [documents[i]]. *)
Theorem find_similars_ranked (item : Item.t) (log : list Py.event) :
  (forall q r, r ∈ rank coll q -> r ∈ coll) ->
  exists documents prices,
    find_similars encode coll rank item log =
      (Py.Ok (documents, prices),
       log ++ [Py.Query [encode (description item)] 5]) /\
    documents = map Store.document (ranked item) /\
    length documents = length prices /\
    length documents <= 5 /\
    forall i d,
      documents !! i = Some d ->
      exists r,
        ranked item !! i = Some r /\ r ∈ coll /\
        Store.document r = d /\
        prices !! i = Some (Metadata.price (Store.metadata r)).
Proof.
  intros Hsub. eexists _, _. split; [apply find_similars_run|].
  split; [reflexivity|]. split; [by rewrite !length_map|].
  split; [unfold nearest; rewrite length_map, length_take; lia|].
  intros i d Hd. rewrite map_fmap, list_lookup_fmap in Hd.
  destruct (ranked item !! i) as [r|] eqn:Hr; [|done].
  simpl in Hd. injection Hd as <-. exists r. split; [done|].
  split.
  - apply (Hsub (encode (description item))).
    unfold nearest in Hr.
    eapply list_elem_of_lookup_2, lookup_take_Some, Hr.
  - split; [done|]. by rewrite !map_fmap, !list_lookup_fmap, Hr.
Qed.

Lemma retry_body_success (item : Item.t) (documents : list string)
    (prices : list Q) (st : retry_state) (log : list Py.event)
    (content : string) :
  endpoint (length (Py.chat_requests log))
    (deepseek_request item documents prices) = inr content ->
  retry_body endpoint item documents prices st log =
  (Py.Ok (RetryState (retries st) true (Some content)),
   log ++ [Py.ChatCreate (deepseek_request item documents prices)]).
Proof.
  intros He. unfold retry_body, Py.try_except. rewrite bind_run.
  unfold chat_create. by rewrite He.
Qed.

Lemma retry_body_failure (item : Item.t) (documents : list string)
    (prices : list Q) (st : retry_state) (log : list Py.event)
    (msg : string) :
  endpoint (length (Py.chat_requests log))
    (deepseek_request item documents prices) = inl msg ->
  retry_body endpoint item documents prices st log =
  (Py.Ok (RetryState (retries st - 1) (done st) (reply st)),
   log ++ [Py.ChatCreate (deepseek_request item documents prices);
           Py.Print ("Error: " +:+ msg)]).
Proof.
  intros He. unfold retry_body, Py.try_except. rewrite bind_run.
  unfold chat_create. rewrite He. rewrite bind_run. unfold Py.emit. simpl.
  by rewrite <- app_assoc.
Qed.

Section Loop.

Variable item : Item.t.
Variable documents : list string.
Variable prices : list Q.

Local Abbreviation req := (deepseek_request item documents prices).
Local Abbreviation loop :=
  (fun fuel => retry_loop endpoint fuel item documents prices).

Lemma loop_turn (fuel : nat) (st st' : retry_state)
    (log log' : list Py.event) :
  retry_cond st = true ->
  retry_body endpoint item documents prices st log = (Py.Ok st', log') ->
  loop (S fuel) st log = loop fuel st' log'.
Proof. apply while_turn. Qed.

Lemma loop_exit (fuel : nat) (st : retry_state) (log : list Py.event) :
  retry_cond st = false -> loop fuel st log = (Py.Ok st, log).
Proof. apply while_exit. Qed.

Lemma retry_cond_true (n : nat) (r : option string) :
  retry_cond (RetryState (Z.of_nat (S n)) false r) = true.
Proof. unfold retry_cond. simpl. apply Z.ltb_lt. lia. Qed.

(** Whatever the endpoint does, a loop with [n] retries left sends at most
    [n] further requests, all of them [req], and ends normally. *)
Lemma loop_bounded (n : nat) :
  forall fuel r log,
    n <= fuel ->
    exists st' log' m,
      loop fuel (RetryState (Z.of_nat n) false r) log = (Py.Ok st', log') /\
      m <= n /\
      Py.chat_requests log' = Py.chat_requests log ++ replicate m req.
Proof.
  induction n as [|n IH]; intros fuel r log Hfuel.
  - exists (RetryState 0 false r), log, 0. split.
    + by apply loop_exit.
    + split; [lia|]. simpl. by rewrite app_nil_r.
  - destruct fuel as [|fuel]; [lia|].
    destruct (endpoint (length (Py.chat_requests log)) req)
      as [msg|content] eqn:He.
    + rewrite (loop_turn _ _ _ _ _ (retry_cond_true n r)
                 (retry_body_failure _ _ _ _ _ _ He)).
      simpl retries. simpl done. simpl reply.
      replace (Z.of_nat (S n) - 1)%Z with (Z.of_nat n) by lia.
      destruct (IH fuel r
                  (log ++ [Py.ChatCreate req; Py.Print ("Error: " +:+ msg)])
                  ltac:(lia)) as (st' & log' & m & Hrun & Hm & Hreq).
      exists st', log', (S m). split; [done|]. split; [lia|].
      rewrite Hreq, chat_requests_app. simpl.
      by rewrite <- app_assoc.
    + rewrite (loop_turn _ _ _ _ _ (retry_cond_true n r)
                 (retry_body_success _ _ _ _ _ _ He)).
      rewrite loop_exit by done.
      eexists _, _, 1. split; [done|]. split; [lia|].
      by rewrite chat_requests_app.
Qed.

(** When the next [k] calls fail and the one after answers, the loop sends
    [k + 1] requests and binds [reply] to the answer. *)
Lemma loop_first_success (k : nat) :
  forall n fuel r log content,
    k < n -> n <= fuel ->
    (forall j, j < k ->
       exists msg, endpoint (length (Py.chat_requests log) + j) req = inl msg) ->
    endpoint (length (Py.chat_requests log) + k) req = inr content ->
    exists log',
      loop fuel (RetryState (Z.of_nat n) false r) log =
        (Py.Ok (RetryState (Z.of_nat (n - k)) true (Some content)), log') /\
      Py.chat_requests log' = Py.chat_requests log ++ replicate (k + 1) req.
Proof.
  induction k as [|k IH]; intros n fuel r log content Hk Hfuel Hfail Hok.
  - destruct n as [|n]; [lia|]. destruct fuel as [|fuel]; [lia|].
    rewrite Nat.add_0_r in Hok.
    rewrite (loop_turn _ _ _ _ _ (retry_cond_true n r)
               (retry_body_success _ _ _ _ _ _ Hok)).
    rewrite loop_exit by done. simpl retries.
    rewrite Nat.sub_0_r.
    eexists. split; [done|]. by rewrite chat_requests_app.
  - destruct n as [|n]; [lia|]. destruct fuel as [|fuel]; [lia|].
    destruct (Hfail 0 ltac:(lia)) as [msg He].
    rewrite Nat.add_0_r in He.
    rewrite (loop_turn _ _ _ _ _ (retry_cond_true n r)
               (retry_body_failure _ _ _ _ _ _ He)).
    simpl retries. simpl done. simpl reply.
    replace (Z.of_nat (S n) - 1)%Z with (Z.of_nat n) by lia.
    set (log1 := log ++ [Py.ChatCreate req; Py.Print ("Error: " +:+ msg)]).
    assert (Hlen : length (Py.chat_requests log1)
                   = S (length (Py.chat_requests log))).
    { unfold log1. rewrite chat_requests_app, length_app. simpl. lia. }
    destruct (IH n fuel r log1 content ltac:(lia) ltac:(lia)) as (log' & Hrun & Hreq).
    + intros j Hj. rewrite Hlen.
      replace (S (length (Py.chat_requests log)) + j)
        with (length (Py.chat_requests log) + S j) by lia.
      apply Hfail. lia.
    + rewrite Hlen.
      by replace (S (length (Py.chat_requests log)) + k)
        with (length (Py.chat_requests log) + S k) by lia.
    + exists log'. split; [by rewrite Hrun|].
      rewrite Hreq. unfold log1. rewrite chat_requests_app. simpl.
      by rewrite <- app_assoc.
Qed.

(** When the next [n] calls all fail, the loop sends [n] requests and leaves
    [reply] as it found it. *)
Lemma loop_all_fail (n : nat) :
  forall fuel r log,
    n <= fuel ->
    (forall j, j < n ->
       exists msg, endpoint (length (Py.chat_requests log) + j) req = inl msg) ->
    exists log',
      loop fuel (RetryState (Z.of_nat n) false r) log =
        (Py.Ok (RetryState 0 false r), log') /\
      Py.chat_requests log' = Py.chat_requests log ++ replicate n req.
Proof.
  induction n as [|n IH]; intros fuel r log Hfuel Hfail.
  - exists log. split; [by apply loop_exit|]. simpl. by rewrite app_nil_r.
  - destruct fuel as [|fuel]; [lia|].
    destruct (Hfail 0 ltac:(lia)) as [msg He].
    rewrite Nat.add_0_r in He.
    rewrite (loop_turn _ _ _ _ _ (retry_cond_true n r)
               (retry_body_failure _ _ _ _ _ _ He)).
    simpl retries. simpl done. simpl reply.
    replace (Z.of_nat (S n) - 1)%Z with (Z.of_nat n) by lia.
    set (log1 := log ++ [Py.ChatCreate req; Py.Print ("Error: " +:+ msg)]).
    assert (Hlen : length (Py.chat_requests log1)
                   = S (length (Py.chat_requests log))).
    { unfold log1. rewrite chat_requests_app, length_app. simpl. lia. }
    destruct (IH fuel r log1 ltac:(lia)) as (log' & Hrun & Hreq).
    + intros j Hj. rewrite Hlen.
      replace (S (length (Py.chat_requests log)) + j)
        with (length (Py.chat_requests log) + S j) by lia.
      apply Hfail. lia.
    + exists log'. split; [done|].
      rewrite Hreq. unfold log1. rewrite chat_requests_app. simpl.
      by rewrite <- app_assoc.
Qed.

End Loop.

Lemma printed_lines_app (l1 l2 : list Py.event) :
  printed_lines (l1 ++ l2) = printed_lines l1 ++ printed_lines l2.
Proof. apply omap_app. Qed.

(** The loop reports every failure: the lines it prints are the messages of
    the calls that failed, in order; each failed call costs one retry; and
    when the loop ends in success, the call after the failed ones is the one
    that answered. *)
Lemma loop_reports (item : Item.t) (documents : list string)
    (prices : list Q) (n : nat) :
  let req := deepseek_request item documents prices in
  forall fuel r log,
    n <= fuel ->
    exists st' log' msgs,
      retry_loop endpoint fuel item documents prices
        (RetryState (Z.of_nat n) false r) log = (Py.Ok st', log') /\
      printed_lines log'
      = printed_lines log ++ map (String.append "Error: ") msgs /\
      (forall j msg, msgs !! j = Some msg ->
         endpoint (length (Py.chat_requests log) + j) req = inl msg) /\
      length (Py.chat_requests log')
      = length (Py.chat_requests log) + length msgs
        + (if done st' then 1 else 0) /\
      (done st' = true ->
       exists content,
         reply st' = Some content /\
         endpoint (length (Py.chat_requests log) + length msgs) req
         = inr content) /\
      (done st' = false -> reply st' = r /\ length msgs = n).
Proof.
  intros req. induction n as [|n IH]; intros fuel r log Hfuel.
  - exists (RetryState 0 false r), log, []. split.
    + by apply loop_exit.
    + cbn [map length done reply]. rewrite app_nil_r.
      repeat split; try done; try lia.
  - destruct fuel as [|fuel]; [lia|].
    destruct (endpoint (length (Py.chat_requests log)) req)
      as [msg|content] eqn:He.
    + rewrite (loop_turn _ _ _ _ _ _ _ _ (retry_cond_true n r)
                 (retry_body_failure _ _ _ _ _ _ He)).
      cbn [retries done reply].
      replace (Z.of_nat (S n) - 1)%Z with (Z.of_nat n) by lia.
      destruct (IH fuel r
                  (log ++ [Py.ChatCreate req; Py.Print ("Error: " +:+ msg)])
                  ltac:(lia))
        as (st' & log' & msgs & Hrun & Hpr & Hmsg & Hlen & Hdone & Hnot).
      exists st', log', (msg :: msgs). split; [exact Hrun|].
      rewrite chat_requests_app, length_app in Hlen, Hmsg, Hdone.
      change (length (Py.chat_requests [Py.ChatCreate _; Py.Print _]))
        with 1 in Hlen, Hmsg, Hdone.
      split; [|split; [|split; [|split]]].
      * rewrite Hpr, printed_lines_app.
        change (printed_lines [Py.ChatCreate _; Py.Print ?l]) with [l].
        cbn [map]. by rewrite <- app_assoc.
      * intros [|j] msg' Hj.
        -- injection Hj as <-. by rewrite Nat.add_0_r.
        -- replace (length (Py.chat_requests log) + S j)
             with (length (Py.chat_requests log) + 1 + j) by lia.
           by apply Hmsg.
      * cbn [length]. destruct (done st'); lia.
      * intros Hd. destruct (Hdone Hd) as (content & Hc & Hans).
        exists content. split; [exact Hc|]. cbn [length].
        by replace (length (Py.chat_requests log) + S (length msgs))
          with (length (Py.chat_requests log) + 1 + length msgs) by lia.
      * intros Hd. destruct (Hnot Hd) as [H1 H2]. split; [done|].
        cbn [length]. lia.
    + rewrite (loop_turn _ _ _ _ _ _ _ _ (retry_cond_true n r)
                 (retry_body_success _ _ _ _ _ _ He)).
      rewrite loop_exit by done.
      eexists _, _, []. split; [done|].
      rewrite printed_lines_app, chat_requests_app, length_app.
      change (printed_lines [Py.ChatCreate _]) with (@nil string).
      change (length (Py.chat_requests [Py.ChatCreate _])) with 1.
      cbn [map length done reply]. rewrite !app_nil_r.
      repeat split; try done; try lia.
      intros _. exists content. split; [done|]. by rewrite Nat.add_0_r.
Qed.

Lemma deepseek_api_rag_run (fuel : nat) (item : Item.t) :
  deepseek_api_rag encode coll rank endpoint fuel item [] =
  match
    retry_loop endpoint fuel item (map Store.document (ranked item))
      (map Metadata.price (map Store.metadata (ranked item)))
      (RetryState 8 false None)
      [Py.Query [encode (description item)] 5]
  with
  | (Py.Ok st, log) =>
      match reply st with
      | Some reply =>
          (match get_price reply with
           | Some p => Py.Ok p
           | None => Py.Raise Py.ValueError
           end, log)
      | None => (Py.Raise (Py.UnboundLocalError "reply"), log)
      end
  | (Py.Raise e, log) => (Py.Raise e, log)
  | (Py.OutOfFuel, log) => (Py.OutOfFuel, log)
  end.
Proof.
  unfold deepseek_api_rag. rewrite bind_run, find_similars_run. simpl app.
  cbv beta iota. rewrite bind_run.
  destruct (retry_loop _ _ _ _ _ _ _) as [[st| |] log]; try done.
  destruct (reply st) as [content|]; [|done].
  unfold get_price_of. by destruct (get_price content).
Qed.

(** C2, as amended.  With fuel for 8 turns, [deepseek_api_rag] sends the chat
    endpoint at most 8 requests, each the same request built from the
    retrieved documents and prices.  If the first answer comes at call [k]
    (counted from 0, the calls before it failing), exactly [k + 1] requests
    are sent and the result is [get_price] of that answer.  If all 8 calls
    fail, 8 requests are sent, no price is returned, and the failure that
    ends the call is none of the upstream failures.  Every upstream failure
    is caught and printed: the lines printed are, in the order of the
    calls, the text Error and the message of each request sent that
    failed, and nothing else; and whatever the endpoint does, no upstream
    failure reaches the caller. *)
Theorem deepseek_api_rag_retries (fuel : nat) (item : Item.t) :
  8 <= fuel ->
  let documents := map Store.document (ranked item) in
  let prices := map Metadata.price (map Store.metadata (ranked item)) in
  let req := deepseek_request item documents prices in
  let run := deepseek_api_rag encode coll rank endpoint fuel item [] in
  let sent := Py.chat_requests run.2 in
  (length sent <= 8 /\ Forall (fun r => r = req) sent) /\
  (forall k content,
     k < 8 ->
     (forall j, j < k -> exists msg, endpoint j req = inl msg) ->
     endpoint k req = inr content ->
     length sent = k + 1 /\
     run.1 = match get_price content with
             | Some p => Py.Ok p
             | None => Py.Raise Py.ValueError
             end) /\
  ((forall j, j < 8 -> exists msg, endpoint j req = inl msg) ->
   length sent = 8 /\
   (forall p, run.1 <> Py.Ok p) /\
   (forall msg, run.1 <> Py.Raise (Py.UpstreamError msg))) /\
  (exists msgs,
     printed_lines run.2 = map (String.append "Error: ") msgs /\
     (forall j msg, msgs !! j = Some msg -> endpoint j req = inl msg) /\
     (forall j msg,
        j < length sent -> endpoint j req = inl msg ->
        msgs !! j = Some msg)) /\
  (forall msg, run.1 <> Py.Raise (Py.UpstreamError msg)).
Proof.
  intros Hfuel documents prices req run sent.
  subst sent run. rewrite deepseek_api_rag_run.
  fold documents prices.
  set (log0 := [Py.Query [encode (description item)] 5]).
  assert (Hlog0 : Py.chat_requests log0 = []) by reflexivity.
  split; [|split; [|split]].
  - destruct (loop_bounded item documents prices 8 fuel None log0 Hfuel)
      as (st' & log' & m & Hrun & Hm & Hreq).
    change (Z.of_nat 8) with 8%Z in Hrun. rewrite Hrun.
    assert (Hsent : Py.chat_requests log' = replicate m req)
      by (by rewrite Hreq, Hlog0).
    destruct (reply st') as [content|]; simpl; rewrite Hsent;
      (split; [rewrite length_replicate; lia
              | by apply Forall_replicate]).
  - intros k content Hk Hfail Hok.
    destruct (loop_first_success item documents prices k 8 fuel None log0
                content Hk Hfuel) as (log' & Hrun & Hreq).
    + by rewrite Hlog0.
    + by rewrite Hlog0.
    + change (Z.of_nat 8) with 8%Z in Hrun. rewrite Hrun. simpl.
      rewrite Hreq, Hlog0. simpl. by rewrite length_replicate.
  - intros Hfail.
    destruct (loop_all_fail item documents prices 8 fuel None log0 Hfuel)
      as (log' & Hrun & Hreq).
    + by rewrite Hlog0.
    + change (Z.of_nat 8) with 8%Z in Hrun. rewrite Hrun. simpl.
      rewrite Hreq, Hlog0. simpl. repeat split; done.
  - destruct (loop_reports item documents prices 8 fuel None log0 Hfuel)
      as (st' & log' & msgs & Hrun & Hpr & Hmsg & Hlen & Hdone & Hnot).
    change (Z.of_nat 8) with 8%Z in Hrun. rewrite Hrun.
    change (printed_lines log0) with (@nil string) in Hpr.
    rewrite Hlog0 in Hlen, Hmsg, Hdone. cbn [length Nat.add] in *.
    assert (Hlines :
      forall j msg, j < length msgs -> endpoint j req = inl msg ->
                    msgs !! j = Some msg).
    { intros j msg Hj Hfail.
      destruct (lookup_lt_is_Some_2 msgs j Hj) as [msg' Hmsg'].
      pose proof (eq_trans (eq_sym (Hmsg j msg' Hmsg')) Hfail) as H.
      by injection H as ->. }
    destruct (done st') eqn:Hd.
    + destruct (Hdone eq_refl) as (content & Hc & Hans). rewrite Hc.
      split.
      * exists msgs. 
        assert (Hgoal :
          printed_lines log' = map (String.append "Error: ") msgs /\
          (forall j msg, msgs !! j = Some msg -> endpoint j req = inl msg) /\
          (forall j msg,
             j < length (Py.chat_requests log') ->
             endpoint j req = inl msg -> msgs !! j = Some msg)).
        { split; [exact Hpr|]. split; [exact Hmsg|].
          intros j msg Hj Hfail. apply Hlines; [|done].
          destruct (decide (j = length msgs)) as [->|]; [|lia].
          pose proof (eq_trans (eq_sym Hans) Hfail) as H.
          discriminate H. }
        by destruct (get_price content).
      * intros msg. by destruct (get_price content).
    + destruct (Hnot eq_refl) as [Hr Hn]. rewrite Hr. cbn [fst snd].
      split; [|done].
      exists msgs. split; [exact Hpr|]. split; [exact Hmsg|].
      intros j msg Hj Hfail. apply Hlines; [lia|done].
Qed.

End RagFacts.
Lemma find_similars_ranked_witness :
  (forall q r, r ∈ Demo.rank Demo.coll q -> r ∈ Demo.coll) /\
  exists documents prices,
    find_similars Demo.encode Demo.coll Demo.rank Demo.mic [] =
      (Py.Ok (documents, prices),
       [Py.Query [Demo.encode (description Demo.mic)] 5]) /\
    documents = [description Demo.mic; description Demo.wiper] /\
    length prices = 2.
Proof.
  assert (H : forall q r, r ∈ Demo.rank Demo.coll q -> r ∈ Demo.coll)
    by (intros q r Hr; exact Hr).
  split; [exact H|].
  destruct (find_similars_ranked Demo.encode Demo.coll Demo.rank Demo.mic []
              H) as (documents & prices & Hrun & Hdocs & Hlen & _).
  exists documents, prices. split; [exact Hrun|].
  split.
  - rewrite Hdocs. vm_compute. reflexivity.
  - rewrite <- Hlen, Hdocs. vm_compute. reflexivity.
Defined.

Lemma deepseek_api_rag_retries_witness :
  8 <= 8 /\
  length (Py.chat_requests
            (deepseek_api_rag Demo.encode Demo.coll Demo.rank Demo.flaky 8
               Demo.mic []).2) = 3 /\
  (deepseek_api_rag Demo.encode Demo.coll Demo.rank Demo.flaky 8
     Demo.mic []).1 = Py.Ok (12999 # 100)%Q.
Proof.
  split; [lia|].
  destruct (deepseek_api_rag_retries Demo.encode Demo.coll Demo.rank
              Demo.flaky 8 Demo.mic (le_n 8)) as (_ & H & _).
  destruct (H 2 "$129.99") as [Hsent Hres].
  - lia.
  - intros j Hj. exists "503 Service Unavailable". unfold Demo.flaky.
    destruct (Nat.ltb_spec j 2); [reflexivity | lia].
  - reflexivity.
  - split; [exact Hsent|]. rewrite Hres. reflexivity.
Defined.

(** C2, the claim as stated fails: when every call fails, the upstream
    failure is not what reaches the caller.  Each failure is caught and
    printed; after the loop [reply] was never bound, and the call ends in the
    error of reading it. *)
Lemma deepseek_api_rag_swallows_upstream_error :
  (deepseek_api_rag Demo.encode Demo.coll Demo.rank Demo.down 8
     Demo.mic []).1 = Py.Raise (Py.UnboundLocalError "reply") /\
  ~ exists msg,
      (deepseek_api_rag Demo.encode Demo.coll Demo.rank Demo.down 8
         Demo.mic []).1 = Py.Raise (Py.UpstreamError msg).
Proof.
  assert (H : (deepseek_api_rag Demo.encode Demo.coll Demo.rank Demo.down 8
                 Demo.mic []).1 = Py.Raise (Py.UnboundLocalError "reply"))
    by (vm_compute; reflexivity).
  split; [exact H|]. intros [msg Hmsg]. rewrite H in Hmsg. discriminate.
Qed.

Example gpt_4o_mini_rag_no_retry :
  (gpt_4o_mini_rag Demo.encode Demo.coll Demo.rank Demo.down Demo.mic []).1
  = Py.Raise (Py.UpstreamError "503 Service Unavailable").
Proof. vm_compute. reflexivity. Qed.

(** ** The request sent to the model *)

Ltac cross_step x H :=
  destruct x as [|? x];
  [ exfalso; vm_compute in H; discriminate H
  | rewrite ?app_cons in H; rewrite prefix_cons in H |- *;
    match type of H with
    | context [ascii_dec ?a ?b] =>
        destruct (ascii_dec a b) as [<-|]; [|discriminate H]
    end ].

(** The price suffix does not overlap itself: an occurrence that starts in
    front of a trailing suffix lies before it. *)
Lemma suffix_no_overlap (x : string) :
  x <> EmptyString ->
  String.prefix PRICE_SUFFIX (x +:+ PRICE_SUFFIX) = true ->
  String.prefix PRICE_SUFFIX x = true.
Proof.
  rewrite PRICE_SUFFIX_eq. intros Hx H.
  destruct x as [|c x]; [done|]. clear Hx.
  rewrite app_cons in H. rewrite prefix_cons in H |- *.
  destruct (ascii_dec "010" c) as [<-|]; [|discriminate H].
  do 11 (cross_step x H).
  apply prefix_nil_l.
Qed.

(** A single pass removes the suffix from the end of a text that has no
    other occurrence of it. *)
Lemma replace_trailing_suffix (body : string) :
  PyStr.contains PRICE_SUFFIX body = false ->
  PyStr.replace PRICE_SUFFIX EmptyString (body +:+ PRICE_SUFFIX) = body.
Proof.
  change (PyStr.replace PRICE_SUFFIX EmptyString (body +:+ PRICE_SUFFIX))
    with (PyStr.replace_go PRICE_SUFFIX EmptyString 0 (body +:+ PRICE_SUFFIX)).
  induction body as [|c body IH]; intros Hc.
  - reflexivity.
  - rewrite contains_cons in Hc. apply orb_false_iff in Hc as [Hp Hc].
    rewrite app_cons, replace_go_cons.
    destruct (String.prefix PRICE_SUFFIX (String c (body +:+ PRICE_SUFFIX)))
      eqn:Hcross.
    + rewrite <- app_cons in Hcross.
      apply suffix_no_overlap in Hcross; [congruence | done].
    + by rewrite IH.
Qed.

Lemma make_context_from (acc : string) (pairs : list (string * Q)) :
  foldl (fun message sp => message +:+ context_entry sp.1 sp.2) acc pairs
  = acc +:+ foldr (fun sp rest => context_entry sp.1 sp.2 +:+ rest)
                  EmptyString pairs.
Proof.
  revert acc. induction pairs as [|sp pairs IH]; intros acc; simpl.
  - by rewrite string_app_empty_r.
  - by rewrite IH, string_app_assoc.
Qed.

(** C6, as amended.  [messages_for] returns three messages: the fixed system
    instruction, a user message, and the assistant priming text.  The user
    content is the context block, the line that introduces the question, and
    the query text.  The context block is the header followed by one entry
    per pair of [zip(similars, prices)], in order.  The query text is the
    test prompt after the two replacements; when the prompt, after the first
    replacement, is a text free of the price suffix followed by the suffix,
    the query text is that text and does not contain the suffix. *)
Theorem messages_for_shape (item : Item.t) (similars : list string)
    (prices : list Q) :
  messages_for item similars prices =
    [ Message "system"
        "You estimate prices of items. Reply only with the price, no explanation";
      Message "user"
        (make_context similars prices
         +:+ ("And now the question for you:" +:+ nl +:+ nl)
         +:+ query_text item);
      Message "assistant" "Price is $" ] /\
  make_context similars prices =
    context_header +:+
    foldr (fun sp rest => context_entry sp.1 sp.2 +:+ rest) EmptyString
          (zip similars prices) /\
  (forall body,
     PyStr.replace " to the nearest dollar" EmptyString
       (Item.test_prompt item) = body +:+ PRICE_SUFFIX ->
     PyStr.contains PRICE_SUFFIX body = false ->
     query_text item = body /\
     PyStr.contains PRICE_SUFFIX (query_text item) = false).
Proof.
  split; [|split].
  - unfold messages_for. by rewrite string_app_assoc.
  - apply make_context_from.
  - intros body Hbody Hfree. unfold query_text. rewrite Hbody.
    by rewrite replace_trailing_suffix.
Qed.

Lemma messages_for_shape_witness :
  PyStr.replace " to the nearest dollar" EmptyString
    (Item.test_prompt Demo.mic)
  = ("How much does this cost?" +:+ nl +:+ nl
     +:+ "Quadcast HyperX condenser mic") +:+ PRICE_SUFFIX /\
  PyStr.contains PRICE_SUFFIX
    ("How much does this cost?" +:+ nl +:+ nl
     +:+ "Quadcast HyperX condenser mic") = false /\
  query_text Demo.mic
  = "How much does this cost?" +:+ nl +:+ nl
    +:+ "Quadcast HyperX condenser mic".
Proof.
  assert (H1 : PyStr.replace " to the nearest dollar" EmptyString
                 (Item.test_prompt Demo.mic)
               = ("How much does this cost?" +:+ nl +:+ nl
                  +:+ "Quadcast HyperX condenser mic") +:+ PRICE_SUFFIX)
    by (vm_compute; reflexivity).
  assert (H2 : PyStr.contains PRICE_SUFFIX
                 ("How much does this cost?" +:+ nl +:+ nl
                  +:+ "Quadcast HyperX condenser mic") = false)
    by (vm_compute; reflexivity).
  split; [exact H1|]. split; [exact H2|].
  destruct (messages_for_shape Demo.mic [] []) as (_ & _ & H).
  exact (proj1 (H _ H1 H2)).
Defined.

(** C6, the claim as stated fails: a retrieved text that ends in a newline
    puts the price suffix into the user content, in the context entry that
    states its price. *)
Lemma messages_for_context_has_suffix :
  exists m,
    messages_for Demo.mic ["Desk stand for microphones" +:+ nl] [25%Q] !! 1
      = Some m /\
    role m = "user" /\
    PyStr.contains PRICE_SUFFIX (content m) = true.
Proof. eexists. split; [reflexivity|]. split; vm_compute; reflexivity. Qed.

(** ** The batch insert loop *)

Lemma doc_id_inj : Inj (=) (=) (fun j : nat => "doc_" +:+ pretty j).
Proof.
  intros i j H. apply (inj (String.app "doc_")) in H.
  by apply (inj pretty) in H.
Qed.

Lemma concat_batches (b m : nat) :
  concat (map (fun i => seq i b) (map (fun k => 0 + k * b) (seq 0 m)))
  = seq 0 (m * b).
Proof.
  induction m as [|m IH]; [done|].
  rewrite seq_S, !map_app, concat_app, IH.
  cbn [map concat]. rewrite app_nil_r.
  replace (S m * b) with (m * b + b) by lia.
  by rewrite seq_app.
Qed.

Section BuildFacts.

Variable encode : string -> list Q.

(** Every [collection.add] call carries 1000 ids, and as many documents,
    vectors and metadata records as the slice of [train] has items. *)
Lemma add_batch_lengths (train : list Item.t) (i : nat) :
  length (ids (add_batch encode train i)) = 1000 /\
  length (documents (add_batch encode train i))
    = Nat.min 1000 (length train - i) /\
  length (embeddings (add_batch encode train i))
    = length (documents (add_batch encode train i)) /\
  length (metadatas (add_batch encode train i))
    = length (documents (add_batch encode train i)).
Proof.
  unfold add_batch, slice. cbn [ids documents embeddings metadatas].
  rewrite !length_map, length_seq, !length_take, !length_drop.
  repeat split; lia.
Qed.

(** The ids of the whole loop are pairwise distinct. *)
Lemma build_store_ids_unique (train : list Item.t) :
  NoDup (concat (map ids (build_store encode train))).
Proof.
  unfold build_store, py_range. rewrite map_map.
  unfold add_batch. cbn [ids].
  set (m := (length train - 0 + 1000 - 1) / 1000).
  assert (H : concat (map (fun i => map (fun j : nat => "doc_" +:+ pretty j)
                                        (seq i 1000))
                          (map (fun k => 0 + k * 1000) (seq 0 m)))
              = map (fun j : nat => "doc_" +:+ pretty j) (seq 0 (m * 1000))).
  { rewrite <- concat_batches.
    induction (seq 0 m) as [|k l IH]; [done|].
    cbn [map concat]. rewrite map_app. f_equal. exact IH. }
  rewrite H. rewrite map_fmap.
  apply (NoDup_fmap_2 _ (Inj0 := doc_id_inj)), NoDup_seq.
Qed.

(** When the length of [train] is a multiple of 1000, every call has as many
    ids as documents. *)
Lemma build_store_full_batches (train : list Item.t) (m : nat) :
  length train = m * 1000 ->
  Forall (fun call => length (ids call) = length (documents call))
         (build_store encode train).
Proof.
  intros Hlen. unfold build_store, py_range. rewrite Hlen.
  apply Forall_forall. intros call Hin.
  apply list_elem_of_In, in_map_iff in Hin as (i & <- & Hi).
  apply in_map_iff in Hi as (k & <- & Hk). apply in_seq in Hk.
  destruct (add_batch_lengths train (0 + k * 1000)) as (-> & -> & _).
  assert ((m * 1000 - 0 + 1000 - 1) / 1000 = m) as Hm.
  { replace (m * 1000 - 0 + 1000 - 1) with (999 + m * 1000) by lia.
    rewrite Nat.div_add by lia. reflexivity. }
  rewrite Hm in Hk. rewrite Hlen. nia.
Qed.

(** Otherwise the last call has 1000 ids for fewer documents. *)
Lemma build_store_partial_batch (train : list Item.t) :
  length train mod 1000 <> 0 ->
  exists call,
    last (build_store encode train) = Some call /\
    length (ids call) = 1000 /\
    length (documents call) = length train mod 1000.
Proof.
  intros Hmod. unfold build_store, py_range.
  remember (length train) as n eqn:En.
  remember (n mod 1000) as r eqn:Er.
  remember (n / 1000) as q eqn:Eq.
  assert (Hn : n = 1000 * q + r) by (subst q r; apply Nat.div_mod_eq).
  assert (Hlt : r < 1000) by (subst r; apply Nat.mod_upper_bound; lia).
  assert (Hm : (n - 0 + 1000 - 1) / 1000 = S q).
  { replace (n - 0 + 1000 - 1) with ((r + 999) + q * 1000) by lia.
    rewrite Nat.div_add by lia.
    replace ((r + 999) / 1000) with 1; [lia|].
    apply Nat.div_unique with (r - 1); lia. }
  rewrite Hm, seq_S, !map_app. cbn [map].
  exists (add_batch encode train (0 + (0 + q) * 1000)).
  split.
  - by rewrite last_snoc.
  - destruct (add_batch_lengths train (0 + (0 + q) * 1000))
      as (-> & -> & _).
    split; [done|]. rewrite <- En. lia.
Qed.

End BuildFacts.

(** C7 (code slip).  The ids of the whole loop are pairwise distinct, but a
    call does not always have as many ids as documents: the ids come from
    [range(i, i+1000)], the documents from the slice [train[i: i+1000]],
    which is shorter at the end of [train].  For a [train] of 1001 items the
    second call carries 1000 ids and one document. *)
Theorem build_store_last_batch_mismatch :
  let train := replicate 1001 Demo.mic in
  let call1 := add_batch Demo.encode train 0 in
  let call2 := add_batch Demo.encode train 1000 in
  build_store Demo.encode train = [call1; call2] /\
  length (ids call1) = 1000 /\ length (documents call1) = 1000 /\
  length (ids call2) = 1000 /\ length (documents call2) = 1 /\
  ids call2 !! 0 = Some "doc_1000" /\ ids call2 !! 999 = Some "doc_1999" /\
  NoDup (ids call1 ++ ids call2).
Proof.
  intros train call1 call2.
  assert (Hrun : build_store Demo.encode train = [call1; call2])
    by (vm_compute; reflexivity).
  split; [exact Hrun|].
  repeat split; try (vm_compute; reflexivity).
  pose proof (build_store_ids_unique Demo.encode train) as H.
  rewrite Hrun in H. cbn [map concat] in H.
  by rewrite app_nil_r in H.
Qed.

(** ** Shuffle and split *)

Lemma slice_from_0 {A} (l : list A) (j : nat) : slice l 0 j = take j l.
Proof. unfold slice. by rewrite Nat.sub_0_r, drop_0. Qed.

Lemma split_bounds : TEST_END - TRAIN_END = 2000 /\ TEST_END = TRAIN_END + 2000.
Proof. unfold TEST_END, TRAIN_END. lia. Qed.

Section SplitFacts.

Variable py_rng : Type.
Variable py_seed : Z -> py_rng.
Variable randbelow : py_rng -> nat -> nat * py_rng.

(** [_randbelow(n)] returns an index below [n]. *)
Hypothesis randbelow_lt : forall g n, 0 < n -> (randbelow g n).1 < n.

Lemma swap_perm {A} (x : list A) (i j : nat) :
  i < length x -> j < length x ->
  exists x', swap x i j = Some x' /\ x' ≡ₚ x /\ length x' = length x.
Proof.
  intros Hi Hj. unfold swap.
  destruct (lookup_lt_is_Some_2 x i Hi) as [xi Hxi].
  destruct (lookup_lt_is_Some_2 x j Hj) as [xj Hxj].
  rewrite Hxj, Hxi. simpl. eexists. split; [done|]. split.
  - by apply Permutation_insert_swap.
  - by rewrite !length_insert.
Qed.

Lemma shuffle_steps {A} (idx : list nat) :
  forall (x : list A) (g : py_rng),
    Forall (fun i => i < length x) idx ->
    exists x' g',
      foldl (fun acc i => st ← acc; shuffle_step randbelow st i)
            (Some (x, g)) idx = Some (x', g') /\
      x' ≡ₚ x /\ length x' = length x.
Proof.
  induction idx as [|i idx IH]; intros x g Hidx.
  - by exists x, g.
  - apply Forall_cons in Hidx as [Hi Hidx]. cbn [foldl].
    assert (Hj : (randbelow g (i + 1)).1 < i + 1)
      by (apply randbelow_lt; lia).
    cbn [mbind option_bind shuffle_step].
    destruct (randbelow g (i + 1)) as [j g1] eqn:Hrb. simpl in Hj.
    destruct (swap_perm x i j Hi ltac:(lia)) as (x1 & Hswap & Hperm & Hlen).
    rewrite Hswap. cbn [mbind option_bind].
    destruct (IH x1 g1) as (x' & g' & Hrun & Hperm' & Hlen').
    + by rewrite Hlen.
    + exists x', g'. split; [done|]. split; [by etrans|lia].
Qed.

Lemma shuffle_perm {A} (x : list A) (g : py_rng) :
  exists x' g', shuffle randbelow x g = Some (x', g') /\ x' ≡ₚ x.
Proof.
  destruct (shuffle_steps (reverse (seq 1 (length x - 1))) x g)
    as (x' & g' & Hrun & Hperm & _).
  - apply Forall_forall. intros i Hi.
    apply elem_of_reverse, list_elem_of_In, in_seq in Hi. lia.
  - by exists x', g'.
Qed.

(** C8.  The cell seeds the generator with 42 before it shuffles, so its
    result does not depend on the state the generator was in: two runs on
    the same sample give the same shuffled order, the same [train] and the
    same [test].  The shuffled list is a rearrangement of the sample,
    [train] is its first 400,000 elements and [test] its next 2,000, the
    shuffled list being [train], then [test], then the rest; so no position
    of the sample is in both, and when the sample has no repeated element no
    element is in both. *)
Theorem train_test_split_deterministic {A} (sample : list A)
    (g1 g2 : py_rng) :
  train_test_split py_seed randbelow g1 sample
  = train_test_split py_seed randbelow g2 sample /\
  exists shuffled train test g',
    train_test_split py_seed randbelow g1 sample
      = Some (shuffled, train, test, g') /\
    shuffled ≡ₚ sample /\
    train = take (Z.to_nat 400000) shuffled /\
    test = take 2000 (drop (Z.to_nat 400000) shuffled) /\
    shuffled = train ++ test ++ drop (Z.to_nat 402000) shuffled /\
    (NoDup sample -> forall x, x ∈ train -> x ∉ test).
Proof.
  split; [reflexivity|].
  unfold train_test_split.
  destruct (shuffle_perm sample (py_seed 42)) as (x' & g' & Hrun & Hperm).
  rewrite Hrun. cbn [mbind option_bind].
  destruct split_bounds as [Hsub Hadd].
  rewrite slice_from_0. unfold slice. rewrite Hsub.
  fold TRAIN_END. 
  assert (Hx : x' = take TRAIN_END x'
                    ++ take 2000 (drop TRAIN_END x')
                    ++ drop (Z.to_nat 402000) x').
  { change (Z.to_nat 402000) with TEST_END. rewrite Hadd.
    rewrite <- (drop_drop x' 2000 TRAIN_END).
    by rewrite !take_drop. }
  eexists _, _, _, _. split; [reflexivity|].
  split; [done|]. split; [done|]. split; [done|]. split; [exact Hx|].
  intros Hnodup x Htrain Htest.
  assert (Hnd : NoDup x') by (by rewrite Hperm).
  rewrite Hx in Hnd. apply NoDup_app in Hnd as (_ & Hdisj & _).
  apply (Hdisj x Htrain). apply elem_of_app. by left.
Qed.

End SplitFacts.

Lemma train_test_split_deterministic_witness :
  (forall g n, 0 < n -> (Demo.randbelow g n).1 < n) /\
  train_test_split Z.to_nat Demo.randbelow 7 [10; 20; 30; 40; 50]
  = train_test_split Z.to_nat Demo.randbelow 99 [10; 20; 30; 40; 50].
Proof.
  assert (H : forall g n, 0 < n -> (Demo.randbelow g n).1 < n).
  { intros g n Hn. unfold Demo.randbelow. simpl.
    apply Nat.mod_upper_bound. lia. }
  split; [exact H|].
  exact (proj1 (train_test_split_deterministic nat Z.to_nat Demo.randbelow H
                  [10; 20; 30; 40; 50] 7 99)).
Defined.

Example train_test_split_ex :
  train_test_split Z.to_nat Demo.randbelow 7 [10; 20; 30; 40; 50]
  = Some ([10; 40; 50; 20; 30], [10; 40; 50; 20; 30], [], 30).
Proof. vm_compute. reflexivity. Qed.

(** ** The balanced sample *)

Lemma slots_append_lookup (slots : gmap Z (list Item.t)) (item : Item.t)
    (i : Z) :
  slots_append slots item !!! i = slots !!! i ++ in_slot i [item].
Proof.
  unfold slots_append, in_slot. rewrite filter_cons, filter_nil.
  destruct (decide (PyNum.round (Item.price item) = i)) as [->|Hne].
  - by rewrite lookup_total_insert_eq.
  - rewrite lookup_total_insert_ne by done. by rewrite app_nil_r.
Qed.

Lemma make_slots_from (items : list Item.t) :
  forall (slots : gmap Z (list Item.t)) (i : Z),
    foldl slots_append slots items !!! i = slots !!! i ++ in_slot i items.
Proof.
  induction items as [|item items IH]; intros slots i; simpl.
  - unfold in_slot. by rewrite filter_nil, app_nil_r.
  - rewrite IH, slots_append_lookup. unfold in_slot.
    rewrite <- app_assoc. f_equal.
    by rewrite (filter_app _ [item] items).
Qed.

(** The dictionary of slots holds, under key [i], the items of rounded price
    [i] in their input order. *)
Lemma make_slots_lookup (items : list Item.t) (i : Z) :
  make_slots items !!! i = in_slot i items.
Proof.
  unfold make_slots. rewrite make_slots_from.
  by rewrite lookup_total_empty.
Qed.

Lemma in_slot_self (i : Z) (l : list Item.t) :
  Forall (fun item => PyNum.round (Item.price item) = i) l ->
  in_slot i l = l.
Proof.
  induction 1 as [|item l Hi _ IH]; [done|].
  unfold in_slot in *. rewrite filter_cons.
  destruct (decide _); [by rewrite IH | done].
Qed.

Lemma in_slot_other (i j : Z) (l : list Item.t) :
  i <> j ->
  Forall (fun item => PyNum.round (Item.price item) = j) l ->
  in_slot i l = [].
Proof.
  intros Hne. induction 1 as [|item l Hj _ IH]; [done|].
  unfold in_slot in *. rewrite filter_cons.
  destruct (decide _); [congruence | done].
Qed.

Lemma in_slot_members (i : Z) (l : list Item.t) :
  Forall (fun item => PyNum.round (Item.price item) = i) (in_slot i l).
Proof.
  apply Forall_forall. intros item Hin.
  by apply list_elem_of_filter in Hin as [? _].
Qed.

(** Rounding keeps a price of [1, 999] in the slots 1 to 999. *)
Lemma round_in_range (x : Q) :
  (1 <= x <= 999)%Q -> (1 <= PyNum.round x <= 999)%Z.
Proof.
  intros [Hlo Hhi]. unfold PyNum.round.
  pose proof (Qfloor_resp_le _ _ Hlo) as Hfl1.
  pose proof (Qfloor_resp_le _ _ Hhi) as Hfl999.
  change (Qfloor 1) with 1%Z in Hfl1.
  change (Qfloor 999) with 999%Z in Hfl999.
  assert (Hup : (0 < x - inject_Z (Qfloor x))%Q -> (Qfloor x < 999)%Z).
  { intros Hpos. apply Qlt_minus_iff in Hpos.
    assert (H : (inject_Z (Qfloor x) < 999)%Q)
      by (eapply Qlt_le_trans; [exact Hpos | exact Hhi]).
    change 999%Q with (inject_Z 999) in H. by rewrite <- Zlt_Qlt in H. }
  destruct (Qcompare_spec (x - inject_Z (Qfloor x)) (1 # 2)) as [He|Hl|Hg].
  - destruct (Z.even (Qfloor x)); [lia|].
    assert (Qfloor x < 999)%Z; [|lia].
    apply Hup. rewrite He. reflexivity.
  - lia.
  - assert (Qfloor x < 999)%Z; [|lia].
    apply Hup. eapply Qlt_trans; [|exact Hg]. reflexivity.
Qed.

Lemma pick_in_range (slot : list Item.t) (idx : list nat) :
  Forall (fun j => j < length slot) idx ->
  exists c,
    pick slot idx = Some c /\ length c = length idx /\
    Forall (fun item => item ∈ slot) c.
Proof.
  unfold pick. induction 1 as [|j idx Hj _ (c & Hc & Hlen & Hin)].
  - by exists [].
  - destruct (lookup_lt_is_Some_2 slot j Hj) as [item Hitem].
    exists (item :: c). cbn [mapM]. rewrite Hitem, Hc. simpl.
    split; [done|]. split; [by rewrite Hlen|].
    constructor; [|done]. by eapply list_elem_of_lookup_2.
Qed.

Lemma in_slot_app (i : Z) (a b : list Item.t) :
  in_slot i (a ++ b) = in_slot i a ++ in_slot i b.
Proof. unfold in_slot. apply filter_app. Qed.

Lemma in_slot_concat (R : Z -> list Item.t -> Prop) (idx : list Z)
    (cs : list (list Item.t)) (i : Z) :
  (forall j c, R j c -> Forall (fun item => PyNum.round (Item.price item) = j) c) ->
  Forall2 R idx cs -> NoDup idx ->
  (i ∈ idx -> exists c, R i c /\ in_slot i (concat cs) = c) /\
  (i ∉ idx -> in_slot i (concat cs) = []).
Proof.
  intros HR. induction 1 as [|j c idx cs Hjc _ IH]; intros Hnd.
  - split; [by intros ?%elem_of_nil | done].
  - apply NoDup_cons in Hnd as [Hj Hnd]. destruct (IH Hnd) as [IHin IHout].
    cbn [concat]. rewrite in_slot_app.
    split.
    + intros [->|Hin]%elem_of_cons.
      * exists c. split; [done|].
        rewrite (in_slot_self j c (HR _ _ Hjc)), (IHout Hj).
        by rewrite app_nil_r.
      * destruct (IHin Hin) as (c' & Hc' & Heq). exists c'. split; [done|].
        assert (i <> j) by (intros ->; done).
        by rewrite (in_slot_other i j c ltac:(done) (HR _ _ Hjc)), Heq.
    + intros Hnot. apply not_elem_of_cons in Hnot as [Hne Hnot].
      by rewrite (in_slot_other i j c Hne (HR _ _ Hjc)), (IHout Hnot).
Qed.

(** The sampling weights *)

Lemma np_sum_div (ws : list Q) (s : Q) :
  np_sum (map (fun w => (w / s)%Q) ws) == (np_sum ws / s)%Q.
Proof.
  induction ws as [|w ws IH]; simpl.
  - unfold Qdiv. ring.
  - rewrite IH. unfold Qdiv. ring.
Qed.

Lemma raw_weight_pos (item : Item.t) : (1 <= raw_weight item)%Q.
Proof. unfold raw_weight. by destruct (String.eqb _ _). Qed.

Lemma np_sum_raw_pos (slot : list Item.t) :
  slot <> [] -> (0 < np_sum (map raw_weight slot))%Q.
Proof.
  assert (Hnn : forall l, (0 <= np_sum (map raw_weight l))%Q).
  { induction l as [|item l IH]; simpl; [done|].
    apply Qle_trans with (0 + 0)%Q; [done|].
    apply Qplus_le_compat; [|done].
    apply Qle_trans with 1%Q; [done | apply raw_weight_pos]. }
  destruct slot as [|item slot]; [done|]. intros _. simpl.
  apply Qlt_le_trans with (1 + 0)%Q; [done|].
  apply Qplus_le_compat; [apply raw_weight_pos | apply Hnn].
Qed.

(** The weights of a slot sum to 1. *)
Lemma slot_weights_sum (slot : list Item.t) :
  slot <> [] -> np_sum (slot_weights slot) == 1.
Proof.
  intros Hne. unfold slot_weights. rewrite np_sum_div.
  apply Qmult_inv_r. intros H0.
  pose proof (np_sum_raw_pos slot Hne) as Hpos.
  rewrite H0 in Hpos. by apply Qlt_irrefl in Hpos.
Qed.

Lemma slot_weights_lookup (slot : list Item.t) (j : nat) (item : Item.t) :
  slot !! j = Some item ->
  slot_weights slot !! j
  = Some (raw_weight item / np_sum (map raw_weight slot))%Q.
Proof.
  intros Hj. unfold slot_weights.
  by rewrite !map_fmap, !list_lookup_fmap, Hj.
Qed.

(** In one slot, an item outside Automotive weighs 5 times an Automotive
    one. *)
Lemma slot_weights_ratio (slot : list Item.t) (j k : nat) (a b : Item.t)
    (wa wb : Q) :
  slot !! j = Some a -> slot !! k = Some b ->
  Item.category a <> "Automotive" -> Item.category b = "Automotive" ->
  slot_weights slot !! j = Some wa -> slot_weights slot !! k = Some wb ->
  wa == 5 * wb.
Proof.
  intros Ha Hb Hca Hcb Hwa Hwb.
  rewrite (slot_weights_lookup _ _ _ Ha) in Hwa.
  rewrite (slot_weights_lookup _ _ _ Hb) in Hwb.
  injection Hwa as <-. injection Hwb as <-.
  assert (Hb1 : raw_weight b = 1%Q).
  { unfold raw_weight. by rewrite Hcb. }
  assert (Ha5 : raw_weight a = 5%Q).
  { unfold raw_weight.
    destruct (String.eqb (Item.category a) "Automotive") eqn:E; [|done].
    by apply String.eqb_eq in E. }
  rewrite Ha5, Hb1. unfold Qdiv. ring.
Qed.

Lemma in_slot_out_of_range (items : list Item.t) (i : Z) :
  Forall (fun item => (1 <= Item.price item <= 999)%Q) items ->
  i ∉ seqZ 1 999 -> in_slot i items = [].
Proof.
  intros Hvalid Hi. rewrite elem_of_seqZ in Hi.
  induction Hvalid as [|item items Hp _ IH]; [done|].
  unfold in_slot in *. rewrite filter_cons.
  destruct (decide _) as [Heq|]; [|done].
  apply round_in_range in Hp. lia.
Qed.

Section BalancerFacts.

Variable np_rng : Type.
Variable np_seed : Z -> np_rng.
Variable np_choice : np_rng -> nat -> nat -> list Q -> list nat * np_rng.

(** [np.random.choice(n, size, replace=False, p)] returns [size] distinct
    indices below [n] when [size <= n]. *)
Hypothesis np_choice_ok :
  forall g n size p,
    size <= n ->
    length (np_choice g n size p).1 = size /\
    NoDup (np_choice g n size p).1 /\
    Forall (fun j => j < n) (np_choice g n size p).1.

(** What a turn of the loop may add for slot [i]. *)
Local Abbreviation kept slots :=
  (fun (i : Z) (c : list Item.t) =>
     (((240 <= i)%Z \/ length (slots !!! i) <= 1200) /\ c = slots !!! i) \/
     ((i < 240)%Z /\ 1200 < length (slots !!! i) /\
      exists g,
        NoDup (np_choice g (length (slots !!! i)) 1200
                 (slot_weights (slots !!! i))).1 /\
        pick (slots !!! i)
          (np_choice g (length (slots !!! i)) 1200
             (slot_weights (slots !!! i))).1 = Some c /\
        length c = 1200)).

Lemma sample_step_kept (slots : gmap Z (list Item.t)) (acc : list Item.t)
    (g : np_rng) (i : Z) :
  exists c g',
    sample_step np_choice slots (acc, g) i = Some (acc ++ c, g') /\
    kept slots i c.
Proof.
  unfold sample_step.
  destruct (Z.leb_spec 240 i) as [Hi|Hi].
  { exists (slots !!! i), g. split; [done|]. left. split; [by left | done]. }
  destruct (Nat.leb_spec (length (slots !!! i)) 1200) as [Hlen|Hlen].
  { exists (slots !!! i), g. split; [done|]. left. split; [by right | done]. }
  destruct (np_choice_ok g (length (slots !!! i)) 1200
              (slot_weights (slots !!! i)) ltac:(lia))
    as (Hsize & Hnd & Hrange).
  destruct (np_choice g (length (slots !!! i)) 1200
              (slot_weights (slots !!! i))) as [idx g'] eqn:Hch.
  simpl in Hsize, Hnd, Hrange.
  destruct (pick_in_range (slots !!! i) idx Hrange) as (c & Hc & Hclen & _).
  exists c, g'. rewrite Hc. split; [done|]. right.
  split; [done|]. split; [done|]. exists g. rewrite Hch. simpl.
  split; [done|]. split; [done|]. by rewrite Hclen.
Qed.

Lemma sample_fold (slots : gmap Z (list Item.t)) (idx : list Z) :
  forall (acc : list Item.t) (g : np_rng),
    exists cs g',
      foldl (fun acc i => st ← acc; sample_step np_choice slots st i)
            (Some (acc, g)) idx = Some (acc ++ concat cs, g') /\
      Forall2 (kept slots) idx cs.
Proof.
  induction idx as [|i idx IH]; intros acc g.
  - exists [], g. simpl. by rewrite app_nil_r.
  - cbn [foldl]. cbn [mbind option_bind].
    destruct (sample_step_kept slots acc g i) as (c & g1 & Hstep & Hkept).
    rewrite Hstep.
    destruct (IH (acc ++ c) g1) as (cs & g' & Hrun & Hall).
    exists (c :: cs), g'. split.
    + rewrite Hrun. cbn [concat]. by rewrite app_assoc.
    + by constructor.
Qed.

Lemma kept_members (items : list Item.t) (j : Z) (c : list Item.t) :
  kept (make_slots items) j c ->
  Forall (fun item => PyNum.round (Item.price item) = j) c.
Proof.
  cbv beta. rewrite !make_slots_lookup.
  intros [[_ ->] | (_ & _ & g & _ & Hpick & _)].
  - apply in_slot_members.
  - unfold pick in Hpick. apply mapM_Some in Hpick.
    apply Forall_forall. intros item Hin.
    apply list_elem_of_lookup in Hin as [k Hk].
    destruct (Forall2_lookup_r _ _ _ _ _ Hpick Hk) as (n & _ & Hn).
    apply list_elem_of_lookup_2 in Hn.
    by apply list_elem_of_filter in Hn as [? _].
Qed.

(** The sample, slot by slot: a visited slot holds what its turn of the loop
    added, a slot outside 1..999 is empty. *)
Lemma sample_slots (items : list Item.t) :
  exists out g',
    sample np_seed np_choice items = Some (out, g') /\
    forall i : Z,
      (i ∈ seqZ 1 999 ->
       exists c, kept (make_slots items) i c /\ in_slot i out = c) /\
      (i ∉ seqZ 1 999 -> in_slot i out = []).
Proof.
  unfold sample.
  destruct (sample_fold (make_slots items) (seqZ 1 999) [] (np_seed 42))
    as (cs & g' & Hrun & Hall).
  exists (concat cs), g'. split; [exact Hrun|].
  intros i.
  exact (in_slot_concat _ (seqZ 1 999) cs i (kept_members items) Hall
           (NoDup_seqZ 1 999)).
Qed.

(** What [kept] says of a slot, in terms of the input slot. *)
Lemma kept_cases (items : list Item.t) (i : Z) (c : list Item.t) :
  kept (make_slots items) i c ->
  ((240 <= i)%Z -> c = in_slot i items) /\
  ((i < 240)%Z -> length (in_slot i items) <= 1200 -> c = in_slot i items) /\
  ((i < 240)%Z -> 1200 < length (in_slot i items) ->
   length c = 1200 /\
   (exists g,
      NoDup (np_choice g (length (in_slot i items)) 1200
               (slot_weights (in_slot i items))).1 /\
      pick (in_slot i items)
        (np_choice g (length (in_slot i items)) 1200
           (slot_weights (in_slot i items))).1 = Some c) /\
   np_sum (slot_weights (in_slot i items)) == 1 /\
   (forall j k a b wa wb,
      in_slot i items !! j = Some a -> in_slot i items !! k = Some b ->
      Item.category a <> "Automotive" ->
      Item.category b = "Automotive" ->
      slot_weights (in_slot i items) !! j = Some wa ->
      slot_weights (in_slot i items) !! k = Some wb ->
      wa == 5 * wb)) /\
  ((i < 240)%Z -> length c <= 1200).
Proof.
  cbv beta. rewrite !make_slots_lookup.
  intros [[Hfull ->] | (Hlow & Hbig & g & Hnd & Hpick & Hlen)].
  - split; [done|]. split; [done|]. split.
    + intros ? ?. exfalso. destruct Hfull; lia.
    + intros ?. destruct Hfull; lia.
  - split; [intros; lia|]. split; [intros; lia|]. split.
    + intros _ _. split; [done|].
      split; [exists g; split; assumption|].
      split.
      * apply slot_weights_sum. intros Hnil. rewrite Hnil in Hbig.
        simpl in Hbig. lia.
      * intros j k a b wa wb. apply slot_weights_ratio.
    + intros _. lia.
Qed.

(** The loop visits the slots 1 to 999, whatever the prices are.  For every
    list of items the cell ends with a sample in which, for every rounded
    price [i]: when [240 <= i <= 999] the slot is the whole input slot; when
    [1 <= i < 240] and the input slot has at most 1200 items, it is the
    whole input slot; when [1 <= i < 240] and the input slot has more than
    1200 items, the slot has exactly 1200 items, the ones at the distinct
    positions that one [np.random.choice] call without replacement returned
    for the slot's size and weights; a slot outside 1..999 is empty. *)
Lemma sample_visited_slots (items : list Item.t) :
  exists out g',
    sample np_seed np_choice items = Some (out, g') /\
    forall i : Z,
      ((240 <= i <= 999)%Z -> in_slot i out = in_slot i items) /\
      ((1 <= i < 240)%Z -> length (in_slot i items) <= 1200 ->
       in_slot i out = in_slot i items) /\
      ((1 <= i < 240)%Z -> 1200 < length (in_slot i items) ->
       length (in_slot i out) = 1200 /\
       (exists g,
          NoDup (np_choice g (length (in_slot i items)) 1200
                   (slot_weights (in_slot i items))).1 /\
          pick (in_slot i items)
            (np_choice g (length (in_slot i items)) 1200
               (slot_weights (in_slot i items))).1
          = Some (in_slot i out)) /\
       np_sum (slot_weights (in_slot i items)) == 1 /\
       (forall j k a b wa wb,
          in_slot i items !! j = Some a -> in_slot i items !! k = Some b ->
          Item.category a <> "Automotive" ->
          Item.category b = "Automotive" ->
          slot_weights (in_slot i items) !! j = Some wa ->
          slot_weights (in_slot i items) !! k = Some wb ->
          wa == 5 * wb)) /\
      ((i < 1 \/ 999 < i)%Z -> in_slot i out = []) /\
      ((i < 240)%Z -> length (in_slot i out) <= 1200).
Proof.
  destruct (sample_slots items) as (out & g' & Hrun & Hslots).
  exists out, g'. split; [exact Hrun|].
  intros i. destruct (Hslots i) as [Hin Hout].
  destruct (decide (i ∈ seqZ 1 999)) as [Hi|Hi].
  - destruct (Hin Hi) as (c & Hkept & ->).
    destruct (kept_cases items i c Hkept) as (H1 & H2 & H3 & H4).
    apply elem_of_seqZ in Hi.
    split; [intros; apply H1; lia|].
    split; [intros; apply H2; [lia|done]|].
    split; [intros; apply H3; [lia|done]|].
    split; [intros; lia | done].
  - rewrite (Hout Hi). rewrite elem_of_seqZ in Hi.
    split; [intros; lia|]. split; [intros; lia|]. split; [intros; lia|].
    split; [done|]. simpl. intros; lia.
Qed.

(** For items whose prices lie in [1, 999], as curation leaves them, every
    slot is a visited one: slots at or above 240 are whole, and no slot
    below 240 exceeds 1200 items. *)
Corollary sample_of_curated (items : list Item.t) :
  Forall (fun item => (1 <= Item.price item <= 999)%Q) items ->
  exists out g',
    sample np_seed np_choice items = Some (out, g') /\
    forall i : Z,
      ((240 <= i)%Z -> in_slot i out = in_slot i items) /\
      ((i < 240)%Z -> length (in_slot i items) <= 1200 ->
       in_slot i out = in_slot i items) /\
      ((i < 240)%Z -> length (in_slot i out) <= 1200).
Proof.
  intros Hvalid.
  destruct (sample_slots items) as (out & g' & Hrun & Hslots).
  exists out, g'. split; [exact Hrun|].
  intros i. destruct (Hslots i) as [Hin Hout].
  destruct (decide (i ∈ seqZ 1 999)) as [Hi|Hi].
  - destruct (Hin Hi) as (c & Hkept & ->).
    destruct (kept_cases items i c Hkept) as (H1 & H2 & _ & H4).
    split; [exact H1|]. split; [exact H2 | exact H4].
  - rewrite (Hout Hi), (in_slot_out_of_range items i Hvalid Hi).
    split; [done|]. split; [done|]. simpl. intros; lia.
Qed.


End BalancerFacts.


(** * Further properties of the notebooks *)

(** ** The description of an item *)

Lemma QUESTION_cons : exists c q, QUESTION = String c q.
Proof. eexists _, _. vm_compute. reflexivity. Qed.

Lemma prefix_app_self (a r : string) : String.prefix a (a +:+ r) = true.
Proof.
  induction a as [|c a IH]; [apply prefix_nil_l|].
  rewrite app_cons, prefix_cons. by destruct (ascii_dec c c).
Qed.

Lemma replace_go_skip_nil (old new : string) (k : nat) :
  PyStr.replace_go old new k EmptyString = EmptyString.
Proof. by destruct k. Qed.

Lemma replace_go_skip_app (old new a r : string) :
  PyStr.replace_go old new (String.length a) (a +:+ r)
  = PyStr.replace_go old new 0 r.
Proof.
  induction a as [|c a IH]; [reflexivity|].
  rewrite app_cons. cbn [String.length PyStr.replace_go]. exact IH.
Qed.

(** A text without an occurrence of [old] is left as it is. *)
Lemma replace_go_absent (old new s : string) :
  PyStr.contains old s = false -> PyStr.replace_go old new 0 s = s.
Proof.
  induction s as [|c s IH]; intros Hc; [reflexivity|].
  rewrite contains_cons in Hc. apply orb_false_iff in Hc as [Hp Hc].
  rewrite replace_go_cons, Hp. by rewrite IH.
Qed.

(** An occurrence at the head is replaced and the scan goes on behind it. *)
Lemma replace_go_head (c : ascii) (old new r : string) :
  PyStr.replace_go (String c old) new 0 (String c old +:+ r)
  = new +:+ PyStr.replace_go (String c old) new 0 r.
Proof.
  rewrite app_cons, replace_go_cons, <- app_cons, prefix_app_self.
  f_equal.
  change (String.length (String c old) - 1) with (String.length old - 0).
  rewrite Nat.sub_0_r. apply replace_go_skip_app.
Qed.

(** The price suffix does not overlap itself, whatever follows it. *)
Lemma suffix_no_overlap_tail (x tail : string) :
  x <> EmptyString ->
  String.prefix PRICE_SUFFIX (x +:+ PRICE_SUFFIX +:+ tail) = true ->
  String.prefix PRICE_SUFFIX x = true.
Proof.
  rewrite PRICE_SUFFIX_eq. intros Hx H.
  destruct x as [|c x]; [done|]. clear Hx.
  rewrite app_cons in H. rewrite prefix_cons in H |- *.
  destruct (ascii_dec "010" c) as [<-|]; [|discriminate H].
  do 11 (cross_step x H).
  apply prefix_nil_l.
Qed.

Lemma before_head (c : ascii) (sep tail : string) :
  PyStr.before (String c sep) (String c sep +:+ tail) = EmptyString.
Proof.
  rewrite app_cons. cbn [PyStr.before].
  by rewrite <- app_cons, prefix_app_self.
Qed.

(** What stands before the first price suffix is what [before] returns. *)
Lemma before_suffix (text tail : string) :
  PyStr.contains PRICE_SUFFIX text = false ->
  PyStr.before PRICE_SUFFIX (text +:+ PRICE_SUFFIX +:+ tail) = text.
Proof.
  induction text as [|c text IH]; intros Hc.
  - rewrite app_nil. rewrite PRICE_SUFFIX_eq. apply before_head.
  - rewrite contains_cons in Hc. apply orb_false_iff in Hc as [Hp Hc].
    rewrite app_cons. cbn [PyStr.before].
    destruct (String.prefix PRICE_SUFFIX
                (String c (text +:+ PRICE_SUFFIX +:+ tail))) eqn:Hcross.
    + rewrite <- app_cons in Hcross.
      apply suffix_no_overlap_tail in Hcross; [congruence | done].
    + by rewrite IH.
Qed.

(** The question at the head of a prompt is removed, and nothing else when
    it does not occur again. *)
Lemma replace_question_head (r : string) :
  PyStr.contains QUESTION r = false ->
  PyStr.replace QUESTION EmptyString (QUESTION +:+ r) = r.
Proof.
  intros Hq.
  change (PyStr.replace QUESTION EmptyString ?s)
    with (PyStr.replace_go QUESTION EmptyString 0 s).
  destruct QUESTION_cons as (c & q & Heq). rewrite Heq in Hq |- *.
  rewrite replace_go_head, app_nil. by apply replace_go_absent.
Qed.

(** X1. For a prompt made of the question, a text, the price suffix and
    anything after it, where the question occurs nowhere behind its first
    place and the text holds no price suffix, [description] returns the
    text. *)
Theorem description_recovers_text (item : Item.t) (text tail : string) :
  Item.prompt item = QUESTION +:+ text +:+ PRICE_SUFFIX +:+ tail ->
  PyStr.contains QUESTION (text +:+ PRICE_SUFFIX +:+ tail) = false ->
  PyStr.contains PRICE_SUFFIX text = false ->
  description item = text.
Proof.
  intros Hprompt Hq Hs. unfold description.
  rewrite Hprompt, (replace_question_head _ Hq).
  by apply before_suffix.
Qed.

Lemma description_recovers_text_witness :
  description Demo.mic = "Quadcast HyperX condenser mic".
Proof.
  apply (description_recovers_text Demo.mic "Quadcast HyperX condenser mic"
           "139.00"); vm_compute; reflexivity.
Defined.

(** ** The description of the ensemble notebook *)

Lemma prefix_app_long (p a r : string) :
  (String.length p <= String.length a)%nat ->
  String.prefix p (a +:+ r) = String.prefix p a.
Proof.
  revert a. induction p as [|c p IH]; intros a Hlen.
  - by rewrite !prefix_nil_l.
  - destruct a as [|d a]; [cbn in Hlen; lia|].
    rewrite app_cons, !prefix_cons. destruct (ascii_dec c d); [|done].
    apply IH. cbn in Hlen. lia.
Qed.

Lemma str_split_go_skip (sep a r : string) :
  str_split_go sep (String.length a) (a +:+ r) = str_split_go sep 0 r.
Proof.
  induction a as [|c a IH]; [reflexivity|].
  rewrite app_cons. cbn [String.length str_split_go]. exact IH.
Qed.

Lemma str_split_go_cons (sep : string) (c : ascii) (s : string) :
  str_split_go sep 0 (String c s)
  = if String.prefix sep (String c s)
    then EmptyString :: str_split_go sep (String.length sep - 1) s
    else match str_split_go sep 0 s with
         | piece :: pieces => String c piece :: pieces
         | [] => [String c EmptyString]
         end.
Proof. reflexivity. Qed.

Lemma str_split_go_nonempty (sep : string) (k : nat) (s : string) :
  str_split_go sep k s <> [].
Proof.
  revert k. induction s as [|c s IH]; intros k; [by destruct k|].
  destruct k as [|k]; [|apply IH].
  rewrite str_split_go_cons. destruct (String.prefix _ _); [done|].
  by destruct (str_split_go sep 0 s).
Qed.

(** A text without the separator is one piece. *)
Lemma str_split_absent (sep s : string) :
  PyStr.contains sep s = false -> str_split sep s = [s].
Proof.
  unfold str_split. induction s as [|c s IH]; intros Hc; [reflexivity|].
  rewrite contains_cons in Hc. apply orb_false_iff in Hc as [Hp Hc].
  by rewrite str_split_go_cons, Hp, IH.
Qed.

(** A text with the separator has a second piece. *)
Lemma str_split_present (c : ascii) (sep s : string) :
  PyStr.contains (String c sep) s = true ->
  exists piece pieces, str_split (String c sep) s = piece :: pieces
                       /\ pieces <> [].
Proof.
  unfold str_split. induction s as [|d s IH]; intros Hc; [discriminate Hc|].
  rewrite contains_cons in Hc. rewrite str_split_go_cons.
  destruct (String.prefix (String c sep) (String d s)) eqn:Hp.
  - exists EmptyString, (str_split_go (String c sep)
                      (String.length (String c sep) - 1) s).
    split; [done|]. apply str_split_go_nonempty.
  - cbn in Hc. destruct (IH Hc) as (piece & pieces & -> & Hne).
    by exists (String d piece), pieces.
Qed.

(** The first piece ends where the separator first occurs. *)
Lemma str_split_at (c : ascii) (sep pre rest : string) :
  PyStr.before (String c sep) (pre +:+ String c sep) = pre ->
  str_split (String c sep) (pre +:+ String c sep +:+ rest)
  = pre :: str_split (String c sep) rest.
Proof.
  unfold str_split. induction pre as [|d pre IH]; intros Hb.
  - rewrite app_nil. rewrite app_cons, str_split_go_cons.
    rewrite <- app_cons, prefix_app_self. f_equal.
    change (String.length (String c sep) - 1) with (String.length sep - 0).
    rewrite Nat.sub_0_r. apply str_split_go_skip.
  - rewrite app_cons in Hb. cbn [PyStr.before] in Hb.
    destruct (String.prefix (String c sep) (String d (pre +:+ String c sep)))
      eqn:Hp; [discriminate Hb|].
    injection Hb as Hb.
    rewrite app_cons, str_split_go_cons.
    rewrite <- app_cons, <- string_app_assoc, prefix_app_long.
    + rewrite (app_cons d pre (String c sep)), Hp.
      by rewrite IH.
    + rewrite string_length_app. lia.
Qed.

Lemma prefix_contains (old s : string) :
  String.prefix old s = true -> PyStr.contains old s = true.
Proof. intros H. destruct s; cbn [PyStr.contains]; by rewrite H. Qed.

Lemma contains_app_r (old a b : string) :
  PyStr.contains old b = true -> PyStr.contains old (a +:+ b) = true.
Proof.
  intros H. induction a as [|c a IH]; [done|].
  rewrite app_cons, contains_cons, IH. apply orb_true_r.
Qed.

Lemma prefix_app_l (old a b : string) :
  String.prefix old a = true -> String.prefix old (a +:+ b) = true.
Proof.
  revert a. induction old as [|c old IH]; intros a H.
  - apply prefix_nil_l.
  - destruct a as [|d a]; [discriminate H|].
    rewrite app_cons. rewrite prefix_cons in H |- *.
    destruct (ascii_dec c d); [by apply IH | done].
Qed.

Lemma contains_app_l (old a b : string) :
  PyStr.contains old a = true -> PyStr.contains old (a +:+ b) = true.
Proof.
  induction a as [|c a IH]; intros H.
  - destruct old; [|discriminate H]. apply prefix_contains, prefix_nil_l.
  - rewrite contains_cons in H. rewrite app_cons, contains_cons.
    apply orb_true_iff in H as [H|H].
    + rewrite <- app_cons. by rewrite (prefix_app_l _ _ _ H).
    + rewrite (IH H). apply orb_true_r.
Qed.

Lemma prefix_app_inv (a b s : string) :
  String.prefix (a +:+ b) s = true ->
  exists t, s = a +:+ t /\ String.prefix b t = true.
Proof.
  revert s. induction a as [|c a IH]; intros s H.
  - by exists s.
  - destruct s as [|d s]; [discriminate H|].
    rewrite app_cons, prefix_cons in H.
    destruct (ascii_dec c d) as [<-|]; [|discriminate H].
    destruct (IH _ H) as (t & -> & Ht). by exists t.
Qed.

(** Where a text occurs, so does each of its ends. *)
Lemma contains_end (a b s : string) :
  PyStr.contains (a +:+ b) s = true -> PyStr.contains b s = true.
Proof.
  induction s as [|c s IH]; intros H.
  - destruct a; [done|discriminate H].
  - rewrite contains_cons in H. apply orb_true_iff in H as [H|H].
    + apply prefix_app_inv in H as (t & -> & Ht).
      by apply contains_app_r, prefix_contains.
    + rewrite contains_cons, (IH H). apply orb_true_r.
Qed.

Lemma QUESTION_split :
  QUESTION = "How much does this cost " +:+ Ensemble.QUESTION_END.
Proof. reflexivity. Qed.

Lemma QUESTION_END_cons : exists c q, Ensemble.QUESTION_END = String c q.
Proof. eexists _, _. vm_compute. reflexivity. Qed.

(** X2. On a prompt of the training shape whose text and price part do not
    hold the end of the question, the [description] of the ensemble notebook
    and the [description] of the other notebooks return the same text. *)
Theorem ensemble_description_agrees (item : Item.t) (text tail : string) :
  Item.prompt item = QUESTION +:+ text +:+ PRICE_SUFFIX +:+ tail ->
  PyStr.contains Ensemble.QUESTION_END (text +:+ PRICE_SUFFIX +:+ tail)
  = false ->
  PyStr.contains PRICE_SUFFIX text = false ->
  Ensemble.description item = Some text /\ description item = text.
Proof.
  intros Hprompt Hq Hs. split.
  - unfold Ensemble.description. rewrite Hprompt, QUESTION_split.
    rewrite string_app_assoc.
    destruct QUESTION_END_cons as (c & q & Heq). rewrite Heq in Hq |- *.
    rewrite str_split_at.
    + rewrite (str_split_absent _ _ Hq). cbn [lookup list_lookup mbind
        option_bind]. by rewrite before_suffix.
    + rewrite <- Heq. vm_compute. reflexivity.
  - unfold description. rewrite Hprompt, replace_question_head.
    + by apply before_suffix.
    + destruct (PyStr.contains QUESTION _) eqn:Hc; [|done].
      rewrite QUESTION_split in Hc. apply contains_end in Hc. congruence.
Qed.

Lemma ensemble_description_agrees_witness :
  Ensemble.description Demo.wiper = Some "Wiper blade, 22 inch"
  /\ description Demo.wiper = "Wiper blade, 22 inch".
Proof.
  apply (ensemble_description_agrees Demo.wiper "Wiper blade, 22 inch"
           "12.00"); vm_compute; reflexivity.
Defined.

(** X3. The [description] of the ensemble notebook raises [IndexError]
    exactly on the prompts that do not hold the end of the question. *)
Theorem ensemble_description_index_error (item : Item.t) :
  Ensemble.description item = None
  <-> PyStr.contains Ensemble.QUESTION_END (Item.prompt item) = false.
Proof.
  unfold Ensemble.description.
  destruct QUESTION_END_cons as (c & q & Heq). rewrite Heq.
  destruct (PyStr.contains (String c q) (Item.prompt item)) eqn:Hc.
  - apply str_split_present in Hc as (piece & pieces & -> & Hne).
    destruct pieces as [|p ps]; [done|]. by cbn.
  - by rewrite (str_split_absent _ _ Hc).
Qed.

(** ** The two estimators *)

Section EstimatorFacts.

Variable encode : string -> list Q.
Variable coll : list Store.record.
Variable rank : list Store.record -> list Q -> list Store.record.
Variable endpoint : nat -> Py.chat_request -> string + string.

Local Abbreviation ranked := (nearest encode coll rank).

(** X4. [gpt_4o_mini_rag] sends the store one query and the endpoint one
    request, for the model gpt-4o-mini with seed 42 and 5 tokens, and
    prints nothing.  A failure of the endpoint reaches the caller as it is;
    an answer always yields a price: the conversion of the matched text
    never raises. *)
Theorem gpt_4o_mini_rag_one_request (item : Item.t) (log : list Py.event) :
  let documents := map Store.document (ranked item) in
  let prices := map Metadata.price (map Store.metadata (ranked item)) in
  let req := Py.ChatRequest "gpt-4o-mini"
               (messages_for item documents prices) 42 5 in
  let run := gpt_4o_mini_rag encode coll rank endpoint item log in
  run.2 = log ++ [Py.Query [encode (description item)] 5; Py.ChatCreate req]
  /\ match endpoint (length (Py.chat_requests log)) req with
     | inl msg => run.1 = Py.Raise (Py.UpstreamError msg)
     | inr content =>
         exists p, get_price content = Some p /\ run.1 = Py.Ok p
     end.
Proof.
  intros documents prices req run. subst run.
  unfold gpt_4o_mini_rag. rewrite bind_run, find_similars_run.
  cbv beta iota. rewrite bind_run. unfold chat_create.
  rewrite chat_requests_app. cbn [Py.chat_requests omap]. rewrite app_nil_r.
  fold documents prices. fold req.
  destruct (endpoint (length (Py.chat_requests log)) req) as [msg|content].
  - split; [|done]. cbn [snd]. by rewrite <- app_assoc.
  - destruct (get_price_total content) as [p Hp].
    unfold get_price_of. rewrite Hp. split.
    + cbn [snd]. by rewrite <- app_assoc.
    + by exists p.
Qed.

(** X5. With fuel for 8 turns, [deepseek_api_rag] prints one line per
    failed request and nothing else: the lines are the messages of the
    failures, in the order of the calls, each behind the text Error.  It
    returns a price exactly when one more request was sent than lines were
    printed; otherwise 8 lines were printed and the call ends in
    [UnboundLocalError]. *)
Theorem deepseek_api_rag_reports_failures (fuel : nat) (item : Item.t) :
  8 <= fuel ->
  let documents := map Store.document (ranked item) in
  let prices := map Metadata.price (map Store.metadata (ranked item)) in
  let req := deepseek_request item documents prices in
  let run := deepseek_api_rag encode coll rank endpoint fuel item [] in
  exists msgs,
    printed_lines run.2 = map (String.append "Error: ") msgs /\
    (forall j msg, msgs !! j = Some msg -> endpoint j req = inl msg) /\
    ((exists p, run.1 = Py.Ok p) /\
     length (Py.chat_requests run.2) = length msgs + 1
     \/
     run.1 = Py.Raise (Py.UnboundLocalError "reply") /\
     length msgs = 8 /\ length (Py.chat_requests run.2) = 8).
Proof.
  intros Hfuel documents prices req run. subst run.
  rewrite deepseek_api_rag_run. fold documents prices.
  destruct (loop_reports endpoint item documents prices 8 fuel None
              [Py.Query [encode (description item)] 5] Hfuel)
    as (st' & log' & msgs & Hrun & Hpr & Hmsg & Hlen & Hdone & Hnot).
  change (Z.of_nat 8) with 8%Z in Hrun. rewrite Hrun.
  change (printed_lines [Py.Query _ _]) with (@nil string) in Hpr.
  change (length (Py.chat_requests [Py.Query _ _])) with 0 in Hlen, Hmsg.
  exists msgs. destruct (done st') eqn:Hd.
  - destruct (Hdone eq_refl) as (content & Hc & _). rewrite Hc.
    destruct (get_price_total content) as [p Hp]. rewrite Hp.
    split; [exact Hpr|]. split; [exact Hmsg|]. left.
    split; [by exists p|]. cbn [snd]. lia.
  - destruct (Hnot eq_refl) as [Hr Hn]. rewrite Hr.
    split; [exact Hpr|]. split; [exact Hmsg|]. right.
    split; [done|]. split; [done|]. cbn [snd]. lia.
Qed.

End EstimatorFacts.

Lemma deepseek_api_rag_reports_failures_witness :
  8 <= 8 /\
  exists msgs,
    printed_lines
      (deepseek_api_rag Demo.encode Demo.coll Demo.rank Demo.flaky 8
         Demo.mic []).2
    = map (String.append "Error: ") msgs /\
    length msgs = 2.
Proof.
  split; [lia|].
  destruct (deepseek_api_rag_reports_failures Demo.encode Demo.coll Demo.rank
              Demo.flaky 8 Demo.mic ltac:(lia)) as (msgs & Hpr & _ & _).
  exists msgs. split; [exact Hpr|].
  apply (f_equal length) in Hpr. rewrite length_map in Hpr.
  rewrite <- Hpr. vm_compute. reflexivity.
Defined.

(** ** The batch insert loop, item by item *)

Lemma concat_slices {A} (l : list A) (b m : nat) :
  concat (map (fun i => slice l i (i + b)) (map (fun k => 0 + k * b) (seq 0 m)))
  = take (m * b) l.
Proof.
  induction m as [|m IH]; [done|].
  rewrite seq_S, !map_app, concat_app, IH.
  cbn [map concat]. rewrite app_nil_r. unfold slice.
  replace (0 + (0 + m) * b + b - (0 + (0 + m) * b)) with b by lia.
  replace (0 + (0 + m) * b) with (m * b) by lia.
  replace (S m * b) with (m * b + b) by lia.
  apply take_take_drop.
Qed.

Lemma concat_slices_all {A} (l : list A) (b : nat) :
  0 < b ->
  concat (map (fun i => slice l i (i + b)) (py_range 0 (length l) b)) = l.
Proof.
  intros Hb. unfold py_range. rewrite concat_slices.
  apply take_ge.
  assert (H := Nat.div_mod (length l - 0 + b - 1) b ltac:(lia)).
  assert (H' := Nat.mod_upper_bound (length l - 0 + b - 1) b ltac:(lia)).
  nia.
Qed.

Section BuildCoverage.

Variable encode : string -> list Q.

(** X6. Over the whole loop, every item of [train] is stored exactly once
    and in order: the documents of the calls, one after the other, are the
    descriptions of [train], the metadata records are its categories and
    prices, and the vectors are the encodings of the descriptions. *)
Theorem build_store_covers_train (train : list Item.t) :
  concat (map documents (build_store encode train)) = map description train
  /\ concat (map metadatas (build_store encode train))
     = map (fun item => Metadata.mk (Item.category item) (Item.price item))
           train
  /\ concat (map embeddings (build_store encode train))
     = map (fun item => encode (description item)) train.
Proof.
  unfold build_store. rewrite !map_map. unfold add_batch.
  cbn [documents metadatas embeddings].
  assert (Hall := concat_slices_all train 1000 ltac:(lia)).
  split; [|split].
  - rewrite <- Hall at 2. rewrite concat_map, map_map. reflexivity.
  - rewrite <- Hall at 2. rewrite concat_map, map_map. reflexivity.
  - rewrite <- Hall at 2. rewrite concat_map, map_map.
    f_equal. apply map_ext. intros i. by rewrite map_map.
Qed.

(** X7. Inside one [collection.add] call the lists line up: what stands
    at place [m] of the documents is the description of [train[i + m]],
    and the same place holds the id doc_(i+m), the encoding of that
    description, and the category and price of that item. *)
Theorem add_batch_aligned (train : list Item.t) (i m : nat) (d : string) :
  documents (add_batch encode train i) !! m = Some d ->
  exists item,
    train !! (i + m) = Some item /\
    d = description item /\
    ids (add_batch encode train i) !! m = Some ("doc_" +:+ pretty (i + m)) /\
    embeddings (add_batch encode train i) !! m = Some (encode d) /\
    metadatas (add_batch encode train i) !! m
    = Some (Metadata.mk (Item.category item) (Item.price item)).
Proof.
  unfold add_batch, slice. cbn [ids documents embeddings metadatas].
  rewrite !map_fmap. intros Hd.
  rewrite list_lookup_fmap in Hd.
  destruct (take (i + 1000 - i) (drop i train) !! m) as [item|] eqn:Hi;
    [|discriminate Hd].
  injection Hd as <-. exists item.
  apply lookup_take_Some in Hi as [Hi Hm]. rewrite lookup_drop in Hi.
  split; [exact Hi|]. split; [done|].
  assert (Hlt : m < 1000) by lia.
  split; [|split].
  - rewrite list_lookup_fmap, lookup_seq_lt by exact Hlt. reflexivity.
  - rewrite !list_lookup_fmap, lookup_take_lt, lookup_drop, Hi by lia.
    reflexivity.
  - rewrite list_lookup_fmap, lookup_take_lt, lookup_drop, Hi by lia.
    reflexivity.
Qed.

End BuildCoverage.

Lemma add_batch_aligned_witness :
  documents (add_batch Demo.encode [Demo.mic; Demo.wiper] 0) !! 1
  = Some "Wiper blade, 22 inch"
  /\ exists item,
       [Demo.mic; Demo.wiper] !! (0 + 1) = Some item /\
       "Wiper blade, 22 inch" = description item /\
       ids (add_batch Demo.encode [Demo.mic; Demo.wiper] 0) !! 1
       = Some ("doc_" +:+ pretty (0 + 1)) /\
       embeddings (add_batch Demo.encode [Demo.mic; Demo.wiper] 0) !! 1
       = Some (Demo.encode "Wiper blade, 22 inch") /\
       metadatas (add_batch Demo.encode [Demo.mic; Demo.wiper] 0) !! 1
       = Some (Metadata.mk (Item.category item) (Item.price item)).
Proof.
  assert (H : documents (add_batch Demo.encode [Demo.mic; Demo.wiper] 0) !! 1
              = Some "Wiper blade, 22 inch") by (vm_compute; reflexivity).
  split; [exact H|].
  exact (add_batch_aligned Demo.encode [Demo.mic; Demo.wiper] 0 1 _ H).
Defined.

(** ** The sizes of the split *)

Section SplitSizes.

Variable py_rng : Type.
Variable py_seed : Z -> py_rng.
Variable randbelow : py_rng -> nat -> nat * py_rng.

Hypothesis randbelow_lt : forall g n, 0 < n -> (randbelow g n).1 < n.

(** X8. The split never raises.  [train] has 400,000 items, or the whole
    sample when that is shorter; [test] has 2,000 items, or what is left
    behind the first 400,000.  For a sample of at most 400,000 items [test]
    is empty and [train] is the whole shuffled sample. *)
Theorem train_test_split_sizes {A} (sample : list A) (g0 : py_rng) :
  exists shuffled train test g',
    train_test_split py_seed randbelow g0 sample
      = Some (shuffled, train, test, g') /\
    length train = Nat.min (Z.to_nat 400000) (length sample) /\
    length test = Nat.min 2000 (length sample - Z.to_nat 400000) /\
    (length sample <= Z.to_nat 400000 ->
     test = [] /\ train = shuffled /\ train ≡ₚ sample).
Proof.
  unfold train_test_split.
  destruct (shuffle_perm py_rng randbelow randbelow_lt sample (py_seed 42))
    as (x' & g' & Hrun & Hperm).
  rewrite Hrun. cbn [mbind option_bind].
  destruct split_bounds as [Hsub Hadd].
  rewrite slice_from_0. unfold slice. rewrite Hsub.
  assert (Hlen : length x' = length sample) by (by rewrite Hperm).
  eexists _, _, _, _. split; [reflexivity|].
  rewrite !length_take, length_drop, Hlen. fold TRAIN_END.
  split; [done|]. split; [done|].
  intros Hshort.
  assert (Hall : take TRAIN_END x' = x') by (apply take_ge; lia).
  split; [|split].
  - rewrite drop_ge by lia. by rewrite take_nil.
  - exact Hall.
  - by rewrite Hall.
Qed.

End SplitSizes.

Lemma train_test_split_sizes_witness :
  (forall g n, 0 < n -> (Demo.randbelow g n).1 < n) /\
  exists shuffled train test g',
    train_test_split Z.to_nat Demo.randbelow 7 [10; 20; 30; 40; 50]
      = Some (shuffled, train, test, g') /\
    length train = Nat.min (Z.to_nat 400000) 5 /\
    length test = Nat.min 2000 (5 - Z.to_nat 400000) /\
    (5 <= Z.to_nat 400000 ->
     test = [] /\ train = shuffled /\ train ≡ₚ [10; 20; 30; 40; 50]).
Proof.
  assert (H : forall g n, 0 < n -> (Demo.randbelow g n).1 < n).
  { intros g n Hn. unfold Demo.randbelow. simpl.
    apply Nat.mod_upper_bound. lia. }
  split; [exact H|].
  exact (train_test_split_sizes nat Z.to_nat Demo.randbelow H
           [10; 20; 30; 40; 50] 7).
Defined.

(** ** The slots and the sample *)

Lemma slots_append_key (slots : gmap Z (list Item.t)) (item : Item.t)
    (i : Z) :
  slots_append slots item !! i
  = if decide (PyNum.round (Item.price item) = i)
    then Some (slots !!! i ++ [item]) else slots !! i.
Proof.
  unfold slots_append. destruct (decide _) as [->|Hne].
  - by rewrite lookup_insert_eq.
  - by rewrite lookup_insert_ne.
Qed.

Lemma make_slots_key_from (items : list Item.t) :
  forall (slots : gmap Z (list Item.t)) (i : Z),
    foldl slots_append slots items !! i
    = match slots !! i with
      | Some l => Some (l ++ in_slot i items)
      | None => match in_slot i items with
                | [] => None
                | l => Some l
                end
      end.
Proof.
  induction items as [|item items IH]; intros slots i; cbn [foldl].
  - unfold in_slot. rewrite filter_nil.
    destruct (slots !! i); [by rewrite app_nil_r | done].
  - rewrite IH, slots_append_key. unfold in_slot. rewrite filter_cons.
    rewrite lookup_total_alt.
    destruct (decide (PyNum.round (Item.price item) = i)) as [Hi|Hi].
    + destruct (slots !! i) as [l|]; cbn [default].
      * by rewrite <- app_assoc.
      * reflexivity.
    + reflexivity.
Qed.

(** X9. The dictionary [slots] has a key for exactly the rounded prices
    that occur among the items, and holds under a key the items of that
    rounded price, in the order of the input. *)
Theorem make_slots_keys (items : list Item.t) (i : Z) :
  make_slots items !! i
  = if decide (in_slot i items = []) then None else Some (in_slot i items).
Proof.
  unfold make_slots. rewrite make_slots_key_from, lookup_empty.
  by destruct (in_slot i items).
Qed.

Lemma in_slot_cons (i : Z) (x : Item.t) (l : list Item.t) :
  in_slot i (x :: l)
  = if decide (PyNum.round (Item.price x) = i) then x :: in_slot i l
    else in_slot i l.
Proof. unfold in_slot. by rewrite filter_cons. Qed.

Lemma in_slot_cons_other (x : Item.t) (l : list Item.t) (idx : list Z) :
  PyNum.round (Item.price x) ∉ idx ->
  map (fun i => in_slot i (x :: l)) idx = map (fun i => in_slot i l) idx.
Proof.
  intros Hx. apply map_ext_in. intros i Hi%list_elem_of_In.
  rewrite in_slot_cons. destruct (decide _) as [<-|]; [done|reflexivity].
Qed.

Lemma slots_cons_submseteq (x : Item.t) (l : list Item.t) (idx : list Z) :
  NoDup idx ->
  concat (map (fun i => in_slot i (x :: l)) idx)
  ⊆+ x :: concat (map (fun i => in_slot i l) idx).
Proof.
  induction 1 as [|i idx Hi Hnd IH]; [apply submseteq_nil_l|].
  cbn [map concat]. rewrite in_slot_cons.
  destruct (decide (PyNum.round (Item.price x) = i)) as [Hx|Hx].
  - rewrite in_slot_cons_other by (by rewrite Hx). reflexivity.
  - rewrite (Permutation_middle (in_slot i l)).
    by apply submseteq_skips_l.
Qed.

(** Distinct slots of a list are disjoint parts of it. *)
Lemma slots_submseteq (l : list Item.t) (idx : list Z) :
  NoDup idx -> concat (map (fun i => in_slot i l) idx) ⊆+ l.
Proof.
  intros Hnd. induction l as [|x l IH].
  - induction idx as [|i idx IHidx]; [done|].
    apply NoDup_cons in Hnd as [_ Hnd]. cbn [map concat].
    unfold in_slot at 1. rewrite filter_nil. by apply IHidx.
  - etrans; [by apply slots_cons_submseteq|]. by apply submseteq_skip.
Qed.

(** Picking at distinct places never takes an item twice. *)
Lemma pick_submseteq (slot : list Item.t) (idx : list nat)
    (c : list Item.t) :
  NoDup idx -> pick slot idx = Some c -> c ⊆+ slot.
Proof.
  intros Hnd Hpick. unfold pick in Hpick. apply mapM_Some in Hpick.
  destruct slot as [|d slot'].
  { destruct Hpick as [|i x idx c Hi _]; [done|].
    by rewrite lookup_nil in Hi. }
  set (slot := d :: slot') in *.
  set (g := fun i : nat => default d (slot !! i)).
  assert (Hc : c = g <$> idx).
  { induction Hpick as [|i x idx c Hi _ IH]; [done|].
    apply NoDup_cons in Hnd as [_ Hnd]. cbn [fmap list_fmap].
    unfold g at 1. rewrite Hi. cbn [default]. f_equal. by apply IH. }
  assert (Hslot : slot = g <$> seq 0 (length slot)).
  { apply list_eq. intros k. rewrite list_lookup_fmap.
    destruct (decide (k < length slot)) as [Hk|Hk].
    - rewrite lookup_seq_lt by done. cbn [fmap option_fmap option_map].
      unfold g. cbn [Nat.add].
      destruct (lookup_lt_is_Some_2 slot k Hk) as [y Hy]. by rewrite Hy.
    - rewrite lookup_seq_ge by lia.
      by rewrite lookup_ge_None_2 by lia. }
  rewrite Hc, Hslot at 1. apply fmap_submseteq.
  apply NoDup_submseteq; [done|].
  intros i Hi. apply list_elem_of_lookup in Hi as [k Hk].
  destruct (Forall2_lookup_l _ _ _ _ _ Hpick Hk) as (y & _ & Hy).
  apply lookup_lt_Some in Hy.
  apply list_elem_of_In, in_seq. lia.
Qed.

Lemma concat_submseteq {A} (R : Z -> list A -> Prop) (f : Z -> list A)
    (idx : list Z) (cs : list (list A)) :
  (forall i c, R i c -> c ⊆+ f i) ->
  Forall2 R idx cs -> concat cs ⊆+ concat (map f idx).
Proof.
  intros HR. induction 1 as [|i c idx cs Hic _ IH]; [done|].
  cbn [map concat]. apply submseteq_app; [by apply HR | exact IH].
Qed.

Section SampleFacts.

Variable np_rng : Type.
Variable np_seed : Z -> np_rng.
Variable np_choice : np_rng -> nat -> nat -> list Q -> list nat * np_rng.

Hypothesis np_choice_ok :
  forall g n size p,
    size <= n ->
    length (np_choice g n size p).1 = size /\
    NoDup (np_choice g n size p).1 /\
    Forall (fun j => j < n) (np_choice g n size p).1.

(** X10. The cell that builds [sample] never raises, and what it builds
    is drawn from the items without repetition: an item is in the sample
    at most as often as it is among the items, so the sample is never
    longer than the input. *)
Theorem sample_submseteq (items : list Item.t) :
  exists out g',
    sample np_seed np_choice items = Some (out, g') /\
    out ⊆+ items /\ length out <= length items.
Proof.
  unfold sample.
  destruct (sample_fold np_rng np_choice np_choice_ok (make_slots items)
              (seqZ 1 999) [] (np_seed 42)) as (cs & g' & Hrun & Hall).
  exists (concat cs), g'. split; [exact Hrun|].
  assert (Hsub : concat cs ⊆+ items).
  { etrans; [|apply (slots_submseteq items (seqZ 1 999)), NoDup_seqZ].
    eapply concat_submseteq; [|exact Hall].
    intros i c. cbv beta. rewrite !make_slots_lookup.
    intros [[_ ->] | (_ & _ & g & Hnd & Hpick & _)]; [done|].
    by eapply pick_submseteq. }
  split; [exact Hsub|]. by apply submseteq_length.
Qed.

End SampleFacts.

Lemma Demo_np_choice_ok (g n size : nat) (p : list Q) :
  size <= n ->
  length (Demo.np_choice g n size p).1 = size /\
  NoDup (Demo.np_choice g n size p).1 /\
  Forall (fun j => j < n) (Demo.np_choice g n size p).1.
Proof.
  intros Hsize. unfold Demo.np_choice. simpl.
  split; [apply length_seq|]. split; [apply NoDup_seq|].
  apply Forall_forall. intros j Hj.
  apply list_elem_of_In, in_seq in Hj. lia.
Qed.

Lemma sample_submseteq_witness :
  (forall g n size p,
     size <= n ->
     length (Demo.np_choice g n size p).1 = size /\
     NoDup (Demo.np_choice g n size p).1 /\
     Forall (fun j => j < n) (Demo.np_choice g n size p).1) /\
  exists out g',
    sample Z.to_nat Demo.np_choice [Demo.mic; Demo.projector; Demo.wiper]
    = Some (out, g') /\
    out ⊆+ [Demo.mic; Demo.projector; Demo.wiper] /\ length out <= 3.
Proof.
  split; [exact Demo_np_choice_ok|].
  exact (sample_submseteq nat Z.to_nat Demo.np_choice Demo_np_choice_ok
           [Demo.mic; Demo.projector; Demo.wiper]).
Defined.

(** ** The category counter *)

Lemma counter_get_incr (counter : list (string * nat)) (k k' : string) :
  counter_get (counter_set counter k (counter_get counter k + 1)) k'
  = counter_get counter k' + (if decide (k = k') then 1 else 0).
Proof.
  induction counter as [|[a n] rest IH]; cbn [counter_get counter_set].
  - destruct (String.eqb_spec k k'); destruct (decide (k = k')); done.
  - destruct (String.eqb_spec a k) as [->|Hak]; cbn [counter_get].
    + destruct (String.eqb_spec k k'); destruct (decide (k = k'));
        try done; try lia.
    + destruct (String.eqb_spec a k') as [->|Hak'].
      * destruct (decide (k = k')); [congruence|lia].
      * apply IH.
Qed.

Lemma counter_keys_incr (counter : list (string * nat)) (k : string) (n : nat) :
  categories_of (counter_set counter k n)
  = if decide (k ∈ categories_of counter) then categories_of counter
    else categories_of counter ++ [k].
Proof.
  unfold categories_of.
  induction counter as [|[a m] rest IH]; cbn [counter_set map fst].
  - case_decide as H; [inversion H|reflexivity].
  - destruct (String.eqb_spec a k) as [->|Hak]; cbn [map fst].
    + clear IH. case_decide as H; [done|].
      exfalso. apply H. apply elem_of_cons. by left.
    + rewrite IH. clear IH.
      destruct (decide (k ∈ map fst rest)) as [Hin|Hin].
      * case_decide as H; [done|].
        exfalso. apply H. apply elem_of_cons. by right.
      * case_decide as H; [|done].
        apply elem_of_cons in H as [->|H]; done.
Qed.

Lemma counter_sum_incr (counter : list (string * nat)) (k : string) :
  sum_list (map snd (counter_set counter k (counter_get counter k + 1)))
  = sum_list (map snd counter) + 1.
Proof.
  induction counter as [|[a n] rest IH];
    cbn [counter_get counter_set map snd sum_list sum_list_with];
    [done|].
  destruct (String.eqb_spec a k) as [->|Hak];
    cbn [map snd sum_list sum_list_with id].
  - lia.
  - rewrite IH. lia.
Qed.

Lemma counts_of_values (counter : list (string * nat)) :
  NoDup (categories_of counter) -> counts_of counter = map snd counter.
Proof.
  unfold counts_of, categories_of.
  induction counter as [|[a n] rest IH]; intros Hnd; [done|].
  cbn [map fst snd] in *. apply NoDup_cons in Hnd as [Ha Hnd].
  cbn [counter_get]. rewrite String.eqb_refl. f_equal.
  rewrite <- (IH Hnd). apply map_ext_in. intros k Hk%list_elem_of_In.
  destruct (String.eqb_spec a k) as [->|]; done.
Qed.

Lemma category_counts_snoc (items : list Item.t) (item : Item.t) :
  category_counts (items ++ [item])
  = counter_set (category_counts items) (Item.category item)
      (counter_get (category_counts items) (Item.category item) + 1).
Proof. unfold category_counts. by rewrite foldl_app. Qed.

(** X11. After the counting loop the counter has one key per category
    that occurs, each once; the count under a category is the number of
    items of that category, 0 for a category that does not occur; and the
    list [counts] adds up to the number of items. *)
Theorem category_counts_correct (items : list Item.t) :
  let counter := category_counts items in
  NoDup (categories_of counter) /\
  (forall k, k ∈ categories_of counter
             <-> exists item, item ∈ items /\ Item.category item = k) /\
  (forall k, counter_get counter k
             = length (filter (fun item => Item.category item = k) items)) /\
  sum_list (counts_of counter) = length items.
Proof.
  cbv zeta.
  assert (H : NoDup (categories_of (category_counts items)) /\
              (forall k, k ∈ categories_of (category_counts items)
                         <-> exists item,
                               item ∈ items /\ Item.category item = k) /\
              (forall k, counter_get (category_counts items) k
                         = length (filter (fun item => Item.category item = k)
                                          items)) /\
              sum_list (map snd (category_counts items)) = length items).
  { induction items as [|item items (Hnd & Hkeys & Hget & Hsum)]
      using rev_ind.
    - split; [constructor|]. split; [|done].
      intros k. split; [by intros ?%elem_of_nil|].
      by intros (item & ?%elem_of_nil & _).
    - rewrite category_counts_snoc.
      split; [|split; [|split]].
      + rewrite counter_keys_incr. case_decide as Hin; [done|].
        apply NoDup_app. split; [done|]. split; [|apply NoDup_singleton].
        intros k Hk ->%list_elem_of_singleton. done.
      + intros k. rewrite counter_keys_incr.
        setoid_rewrite elem_of_app. setoid_rewrite list_elem_of_singleton.
        case_decide as Hin.
        * rewrite Hkeys. split.
          -- intros (x & Hx & Hc). exists x. by split; [left|].
          -- intros (x & [Hx| ->] & Hc); [by exists x|].
             subst k. by apply Hkeys.
        * rewrite elem_of_app, list_elem_of_singleton, Hkeys. split.
          -- intros [(x & Hx & Hc)| ->]; [exists x; by split; [left|]|].
             exists item. by split; [right|].
          -- intros (x & [Hx| ->] & Hc); [left; by exists x | by right].
      + intros k. rewrite counter_get_incr, Hget, filter_app, length_app.
        rewrite filter_cons, filter_nil.
        by destruct (decide (Item.category item = k)).
      + rewrite counter_sum_incr, Hsum, length_app. reflexivity. }
  destruct H as (Hnd & Hkeys & Hget & Hsum).
  split; [exact Hnd|]. split; [exact Hkeys|]. split; [exact Hget|].
  by rewrite counts_of_values.
Qed.

(** ** The counting cells of the curation notebook *)

Section CurationCountFacts.

Variable py_float : string -> option Q.
Variable str_of_list : list string -> string.
Variable Item_init : Datapoint.t -> Q -> Item.t.

Lemma in_range_positive (price : Q) :
  Qle_bool 1 price && Qle_bool price 999 = true -> Qltb 0 price = true.
Proof.
  intros [H1 _]%andb_true_iff. apply Qle_bool_iff in H1.
  apply Qltb_true. eapply Qlt_le_trans; [|exact H1]. reflexivity.
Qed.

Lemma counts_step (d : Datapoint.t) (its : list Item.t) (vp : list Q)
    (ls : list nat) (n k : nat) :
  length its <= length vp /\ length vp <= n /\ n <= k /\
  length ls = length vp /\ Forall (fun p => (1 <= p <= 999)%Q) vp ->
  let r := valid_step py_float str_of_list (vp, ls) d in
  length (items_step py_float Item_init its d) <= length r.1 /\
  length r.1 <= prices_step py_float n d /\
  prices_step py_float n d <= S k /\
  length r.2 = length r.1 /\ Forall (fun p => (1 <= p <= 999)%Q) r.1.
Proof.
  intros (H1 & H2 & H3 & H4 & H5).
  unfold valid_step, items_step, prices_step.
  destruct (py_float (Datapoint.price d)) as [price|].
  - destruct (Qle_bool 1 price && Qle_bool price 999) eqn:Hr.
    + rewrite (in_range_positive price Hr).
      assert (Hp : (1 <= price <= 999)%Q).
      { apply andb_true_iff in Hr as [Ha Hb].
        split; by apply Qle_bool_iff. }
      assert (H6 : Forall (fun p => (1 <= p <= 999)%Q) (vp ++ [price])).
      { apply Forall_app. split; [done|]. by constructor. }
      cbv zeta. cbn [fst snd].
      destruct (Item.include (Item_init d price));
        rewrite ?length_app; cbn [length];
        (split; [lia|]); (split; [lia|]); (split; [lia|]);
        (split; [lia|exact H6]).
    + cbv zeta. cbn [fst snd]. destruct (Qltb 0 price);
        (split; [lia|]); (split; [lia|]); (split; [lia|]);
        (split; [lia|exact H5]).
  - cbv zeta. cbn [fst snd].
    (split; [lia|]); (split; [lia|]); (split; [lia|]);
      (split; [lia|exact H5]).
Qed.

(** X12. The three loops over the dataset agree: the curated [items] are
    at most as many as the [valid_prices], these at most as many as the
    records counted as having a price, and these at most as many as the
    records.  [lengths] has one entry per valid price, and every valid
    price lies in [1, 999]. *)
Theorem curation_counts (dataset : list Datapoint.t) :
  let r := valid_prices_lengths py_float str_of_list dataset in
  length (items py_float Item_init dataset) <= length r.1
  /\ length r.1 <= count_prices py_float dataset
  /\ count_prices py_float dataset <= length dataset
  /\ length r.2 = length r.1
  /\ Forall (fun p => (1 <= p <= 999)%Q) r.1.
Proof.
  unfold valid_prices_lengths, items, count_prices. cbv zeta.
  induction dataset as [|d dataset IH] using rev_ind.
  - cbn [foldl fst snd length]. repeat split; try lia. constructor.
  - rewrite !foldl_app, length_app. cbn [foldl length].
    destruct (foldl (valid_step py_float str_of_list) ([], []) dataset)
      as [vp ls].
    replace (length dataset + 1) with (S (length dataset)) by lia.
    by apply counts_step.
Qed.

End CurationCountFacts.

(** ** The ensemble's collecting loop *)

Section EnsembleLoopFacts.

Variable specialist_price : string -> option Q.
Variable frontier_price : string -> option Q.
Variable random_forest_price : string -> option Q.

Local Abbreviation step :=
  (Ensemble.collect_step specialist_price frontier_price
     random_forest_price).

(** The item can be priced: it has a description and the three agents
    answer on it. *)
Local Abbreviation priceable :=
  (fun item : Item.t =>
     exists text, Ensemble.description item = Some text /\
       is_Some (specialist_price text) /\ is_Some (frontier_price text) /\
       is_Some (random_forest_price text)).

Lemma collect_fold (l : list Item.t) :
  forall acc : Ensemble.estimates,
    (Forall priceable l ->
     is_Some (foldl (fun acc item => a ← acc; step a item) (Some acc) l)) /\
    (forall est,
       foldl (fun acc item => a ← acc; step a item) (Some acc) l = Some est ->
       length (Ensemble.specialists est)
       = length (Ensemble.specialists acc) + length l /\
       length (Ensemble.frontiers est)
       = length (Ensemble.frontiers acc) + length l /\
       length (Ensemble.random_forests est)
       = length (Ensemble.random_forests acc) + length l /\
       Ensemble.prices est = Ensemble.prices acc ++ map Item.price l).
Proof.
  induction l as [|item l IH]; intros acc.
  - split; [done|]. intros est [= <-]. cbn [length map].
    rewrite app_nil_r. repeat split; lia.
  - cbn [foldl]. cbn [mbind option_bind].
    destruct (step acc item) as [acc'|] eqn:Hstep.
    + destruct (IH acc') as [IHsome IHlen].
      unfold Ensemble.collect_step in Hstep.
      destruct (Ensemble.description item) as [text|]; [|discriminate Hstep].
      cbn [mbind option_bind] in Hstep.
      destruct (specialist_price text) as [s|]; [|discriminate Hstep].
      destruct (frontier_price text) as [f|]; [|discriminate Hstep].
      destruct (random_forest_price text) as [r|]; [|discriminate Hstep].
      cbn [mbind option_bind] in Hstep. injection Hstep as <-.
      split.
      * intros [_ Hl]%Forall_cons. by apply IHsome.
      * intros est Hest. destruct (IHlen est Hest) as (G1 & G2 & G3 & G4).
        cbn [Ensemble.specialists Ensemble.frontiers Ensemble.random_forests
             Ensemble.prices] in G1, G2, G3, G4.
        rewrite length_app in G1, G2, G3. cbn [length] in *.
        rewrite <- app_assoc in G4.
        repeat split; try lia. exact G4.
    + split.
      * intros [(text & Hd & [s Hs] & [f Hf] & [r Hr]) _]%Forall_cons.
        unfold Ensemble.collect_step in Hstep.
        rewrite Hd in Hstep. cbn [mbind option_bind] in Hstep.
        rewrite Hs, Hf, Hr in Hstep. discriminate Hstep.
      * intros est Hest. exfalso. clear IH.
        induction l as [|x l IHl]; [discriminate Hest|].
        cbn [foldl] in Hest. cbn [mbind option_bind] in Hest. by apply IHl.
Qed.

(** X13. When each of the items [test[1000:1250]] has a description and
    is priced by the three agents, the collecting loop ends with four lists
    of one length, the number of those items and at most 250; [prices]
    holds their prices in order; and the frame [X] is then built without
    a length error. *)
Theorem collect_feeds_feature_matrix (test : list Item.t) :
  Forall priceable (slice test 1000 1250) ->
  exists est X,
    Ensemble.collect specialist_price frontier_price random_forest_price test
    = Some est /\
    length (Ensemble.specialists est) = length (slice test 1000 1250) /\
    length (Ensemble.frontiers est) = length (slice test 1000 1250) /\
    length (Ensemble.random_forests est) = length (slice test 1000 1250) /\
    Ensemble.prices est = map Item.price (slice test 1000 1250) /\
    length (slice test 1000 1250) = Nat.min 250 (length test - 1000) /\
    feature_matrix (Ensemble.specialists est) (Ensemble.frontiers est)
      (Ensemble.random_forests est) = Some X /\
    length (Min X) = length (Ensemble.prices est).
Proof.
  intros Hall. unfold Ensemble.collect.
  destruct (collect_fold (slice test 1000 1250) (Ensemble.Estimates [] [] [] []))
    as [Hsome Hlen].
  destruct (Hsome Hall) as [est Hest].
  destruct (Hlen est Hest) as (G1 & G2 & G3 & G4).
  cbn [Ensemble.specialists Ensemble.frontiers Ensemble.random_forests
       Ensemble.prices length Nat.add app] in G1, G2, G3, G4.
  assert (HX : exists X,
             feature_matrix (Ensemble.specialists est) (Ensemble.frontiers est)
               (Ensemble.random_forests est) = Some X /\
             length (Min X) = length (Ensemble.prices est)).
  { unfold feature_matrix, pd_DataFrame. cbv zeta.
    rewrite !length_map, !length_zip3 by lia. rewrite G1, G2, G3.
    rewrite !Nat.eqb_refl. cbn [andb].
    eexists. split; [reflexivity|]. cbn [Min].
    rewrite length_map, length_zip3 by lia. by rewrite G1, G4, length_map. }
  destruct HX as (X & HX & HMin).
  exists est, X. split; [exact Hest|].
  split; [exact G1|]. split; [exact G2|]. split; [exact G3|].
  split; [exact G4|]. split; [|by split].
  unfold slice. rewrite length_take, length_drop. lia.
Qed.

End EnsembleLoopFacts.

Lemma collect_feeds_feature_matrix_witness :
  Forall
    (fun item : Item.t =>
       exists text, Ensemble.description item = Some text /\
         is_Some (Some (inject_Z (Z.of_nat (String.length text)))) /\
         is_Some (Some 10%Q) /\ is_Some (Some 12%Q))
    (slice (replicate 1001 Demo.wiper) 1000 1250)
  /\ exists est,
       Ensemble.collect
         (fun text => Some (inject_Z (Z.of_nat (String.length text))))
         (fun _ => Some 10%Q) (fun _ => Some 12%Q)
         (replicate 1001 Demo.wiper) = Some est /\
       length (Ensemble.specialists est) = 1.
Proof.
  assert (Hs : slice (replicate 1001 Demo.wiper) 1000 1250 = [Demo.wiper])
    by (vm_compute; reflexivity).
  assert (H : Forall
    (fun item : Item.t =>
       exists text, Ensemble.description item = Some text /\
         is_Some (Some (inject_Z (Z.of_nat (String.length text)))) /\
         is_Some (Some 10%Q) /\ is_Some (Some 12%Q))
    (slice (replicate 1001 Demo.wiper) 1000 1250)).
  { rewrite Hs. constructor; [|constructor].
    exists "Wiper blade, 22 inch". split; [vm_compute; reflexivity|].
    repeat split; by eexists. }
  split; [exact H|].
  destruct (collect_feeds_feature_matrix
              (fun text => Some (inject_Z (Z.of_nat (String.length text))))
              (fun _ => Some 10%Q) (fun _ => Some 12%Q)
              (replicate 1001 Demo.wiper) H)
    as (est & X & Hrun & Hlen & _).
  exists est. split; [exact Hrun|]. by rewrite Hlen, Hs.
Defined.

(** ** The table of opportunities *)

(** X14. The table has one row per opportunity, in order.  Selecting row
    [row] alerts the opportunity whose description, price, estimate,
    discount and url that row shows, and no other; a row past the end of
    the list raises [IndexError] and sends nothing. *)
Theorem do_select_alerts_shown_row (opps : list UI.Opportunity) (row : nat)
    (alerts : list UI.Opportunity) :
  length (UI.get_table opps) = length opps /\
  match UI.do_select opps row alerts with
  | Some alerts' =>
      exists opp,
        opps !! row = Some opp /\ alerts' = alerts ++ [opp] /\
        UI.get_table opps !! row
        = Some (Deals.product_description (UI.deal opp),
                Deals.price (UI.deal opp), UI.estimate opp, UI.discount opp,
                Deals.url (UI.deal opp))
  | None => length opps <= row /\ UI.get_table opps !! row = None
  end.
Proof.
  unfold UI.get_table, UI.do_select. rewrite length_map. split; [done|].
  rewrite map_fmap, list_lookup_fmap.
  destruct (opps !! row) as [opp|] eqn:Hrow; cbn [mbind option_bind].
  - by exists opp.
  - split; [by apply lookup_ge_None | done].
Qed.

(** ** The user prompt of the deal filter *)

Lemma contains_refl (x : string) : PyStr.contains x x = true.
Proof.
  apply prefix_contains.
  rewrite <- (string_app_empty_r x) at 2. apply prefix_app_self.
Qed.

Lemma contains_join (sep x : string) (parts : list string) :
  x ∈ parts -> PyStr.contains x (join sep parts) = true.
Proof.
  induction parts as [|p parts IH]; [by intros ?%elem_of_nil|].
  intros [->|Hin]%elem_of_cons.
  - destruct parts as [|q parts]; [apply contains_refl|].
    cbn [join]. apply contains_app_l, contains_refl.
  - destruct parts as [|q parts]; [by apply elem_of_nil in Hin|].
    change (join sep (p :: q :: parts))
      with (p +:+ sep +:+ join sep (q :: parts)).
    apply contains_app_r, contains_app_r. by apply IH.
Qed.

Section ScannerPrompt.

Variable ScrapedDeal : Type.
Variable describe : ScrapedDeal -> string.

(** X15. The user prompt opens with the fixed instructions and holds the
    description of every scraped deal: none is left out of the request. *)
Theorem user_prompt_holds_every_deal (deals : list ScrapedDeal)
    (d : ScrapedDeal) :
  d ∈ deals ->
  String.prefix user_prompt_header (user_prompt ScrapedDeal describe deals)
  = true /\
  PyStr.contains (describe d) (user_prompt ScrapedDeal describe deals) = true.
Proof.
  intros Hd. unfold user_prompt. split; [apply prefix_app_self|].
  apply contains_app_r, contains_join.
  rewrite map_fmap. by apply list_elem_of_fmap_2.
Qed.

End ScannerPrompt.

Lemma user_prompt_holds_every_deal_witness :
  "Laptop, 16GB" ∈ ["Phone, 128GB"; "Laptop, 16GB"] /\
  PyStr.contains "Laptop, 16GB"
    (user_prompt string id ["Phone, 128GB"; "Laptop, 16GB"]) = true.
Proof.
  assert (H : "Laptop, 16GB" ∈ ["Phone, 128GB"; "Laptop, 16GB"])
    by (apply elem_of_cons; right; apply elem_of_cons; by left).
  split; [exact H|].
  exact (proj2 (user_prompt_holds_every_deal string id
                  ["Phone, 128GB"; "Laptop, 16GB"] "Laptop, 16GB" H)).
Defined.

(** ** The colors of the plot *)

Lemma list_index_Some (l : list string) (x : string) (i : nat) :
  list_index l x = Some i -> l !! i = Some x.
Proof.
  revert i. induction l as [|y l IH]; intros i; [done|].
  cbn [list_index]. destruct (String.eqb_spec y x) as [->|Hne].
  - by intros [= <-].
  - destruct (list_index l x) as [j|]; [|done].
    intros [= <-]. by apply IH.
Qed.

Lemma list_index_elem (l : list string) (x : string) :
  x ∈ l -> is_Some (list_index l x).
Proof.
  induction l as [|y l IH]; [by intros ?%elem_of_nil|].
  intros Hin. cbn [list_index]. destruct (String.eqb_spec y x) as [->|Hne].
  - by eexists.
  - apply elem_of_cons in Hin as [->|Hin]; [done|].
    destruct (IH Hin) as [j ->]. by eexists.
Qed.

Lemma dataset_names_CATEGORIES (c : string) :
  c ∈ dataset_names <-> c ∈ CATEGORIES.
Proof.
  unfold dataset_names, CATEGORIES.
  rewrite !elem_of_cons, !elem_of_nil. tauto.
Qed.

Lemma COLORS_NoDup : NoDup COLORS.
Proof. by apply (bool_decide_unpack _). Qed.

(** A category has a color exactly when it is in the list; the subscript
    never fails, the two lists being of one length. *)
Lemma color_of_spec (c : string) :
  (c ∈ CATEGORIES ->
   exists i color, list_index CATEGORIES c = Some i /\
                   COLORS !! i = Some color /\
                   Plot.color_of c = inr color) /\
  (c ∉ CATEGORIES -> Plot.color_of c = inl Plot.ValueError).
Proof.
  unfold Plot.color_of. split.
  - intros Hc. destruct (list_index_elem _ _ Hc) as [i Hi].
    pose proof (list_index_Some _ _ _ Hi) as Hl.
    apply lookup_lt_Some in Hl.
    change (length CATEGORIES) with (length COLORS) in Hl.
    destruct (lookup_lt_is_Some_2 COLORS i Hl) as [color Hcolor].
    exists i, color. by rewrite Hi, Hcolor.
  - intros Hc. destruct (list_index CATEGORIES c) as [i|] eqn:Hi; [|done].
    apply list_index_Some in Hi. destruct Hc.
    by eapply list_elem_of_lookup_2.
Qed.

Lemma color_of_inj (c1 c2 color : string) :
  Plot.color_of c1 = inr color -> Plot.color_of c2 = inr color -> c1 = c2.
Proof.
  intros H1 H2.
  destruct (decide (c1 ∈ CATEGORIES)) as [Hc1|Hc1];
    [|by rewrite (proj2 (color_of_spec c1) Hc1) in H1].
  destruct (decide (c2 ∈ CATEGORIES)) as [Hc2|Hc2];
    [|by rewrite (proj2 (color_of_spec c2) Hc2) in H2].
  destruct (proj1 (color_of_spec c1) Hc1) as (i & col1 & Hi & Hl1 & E1).
  destruct (proj1 (color_of_spec c2) Hc2) as (j & col2 & Hj & Hl2 & E2).
  rewrite E1 in H1. rewrite E2 in H2.
  injection H1 as ->. injection H2 as ->.
  assert (i = j) as ->.
  { eapply NoDup_lookup; [apply COLORS_NoDup | exact Hl1 | exact Hl2]. }
  apply list_index_Some in Hi, Hj. congruence.
Qed.

Lemma colors_of_spec (categories : list string) :
  match Plot.colors_of categories with
  | inr colors =>
      Forall (fun c => c ∈ CATEGORIES) categories /\
      Forall2 (fun c color => Plot.color_of c = inr color) categories colors
  | inl e =>
      e = Plot.ValueError /\ ~ Forall (fun c => c ∈ CATEGORIES) categories
  end.
Proof.
  induction categories as [|c rest IH]; [by split|].
  cbn [Plot.colors_of].
  destruct (decide (c ∈ CATEGORIES)) as [Hc|Hc].
  - destruct (proj1 (color_of_spec c) Hc) as (i & color & _ & _ & E).
    rewrite E. destruct (Plot.colors_of rest) as [e|colors].
    + destruct IH as [-> Hnot]. split; [done|].
      intros [_ H]%Forall_cons. by apply Hnot.
    + destruct IH as [Hall Hcols]. split; by constructor.
  - rewrite (proj2 (color_of_spec c) Hc). split; [done|].
    by intros [H _]%Forall_cons.
Qed.

(** X16. The prework cell of the plot reads [MAXIMUM_DATAPOINTS] before
    anything else, and the configuration cell binds [MAX_DATAPOINTS]: run
    after it, in a namespace that does not bind the other name, the cell
    raises [NameError] whatever the store holds, and no color is computed.
    Where the name is bound to a limit, the cell goes on with the first
    [limit] records: it ends without an error exactly when the category
    of each is one of the eight dataset names, the only other error being
    the [ValueError] of [index]; there is then one color per record, and
    two records have the same color only if they have the same
    category. *)
Theorem prework_raises_name_error (g : gmap string Z)
    (coll : list Store.record) :
  (g !! "MAXIMUM_DATAPOINTS" = None ->
   Plot.prework (Plot.configuration g) coll
   = inl (Plot.NameError "MAXIMUM_DATAPOINTS")) /\
  (forall limit,
     g !! "MAXIMUM_DATAPOINTS" = Some limit ->
     let records := take (Z.to_nat limit) coll in
     ((exists res, Plot.prework g coll = inr res)
      <-> Forall (fun r => Metadata.category (Store.metadata r)
                           ∈ dataset_names) records) /\
     (forall e, Plot.prework g coll = inl e -> e = Plot.ValueError) /\
     (forall res,
        Plot.prework g coll = inr res ->
        Plot.categories res
        = map (fun r => Metadata.category (Store.metadata r)) records /\
        length (Plot.colors res) = length records /\
        forall i j ci cj color,
          Plot.categories res !! i = Some ci ->
          Plot.categories res !! j = Some cj ->
          Plot.colors res !! i = Some color ->
          Plot.colors res !! j = Some color -> ci = cj)).
Proof.
  split.
  - intros Hg. unfold Plot.prework, Plot.configuration.
    by rewrite lookup_insert_ne, Hg.
  - intros limit Hg records. unfold Plot.prework. rewrite Hg. cbv zeta.
    unfold Plot.collection_get. fold records.
    pose proof (colors_of_spec
                  (map (fun r => Metadata.category (Store.metadata r))
                       records)) as Hspec.
    assert (Hnames :
      Forall (fun c => c ∈ CATEGORIES)
        (map (fun r => Metadata.category (Store.metadata r)) records)
      <-> Forall (fun r => Metadata.category (Store.metadata r)
                           ∈ dataset_names) records).
    { rewrite map_fmap, Forall_fmap. apply Forall_iff. intros r.
      unfold compose. by rewrite dataset_names_CATEGORIES. }
    destruct (Plot.colors_of _) as [e|colors].
    + destruct Hspec as [-> Hnot]. split; [|split].
      * split; [by intros [res Hres] | intros H; by apply Hnames in H].
      * by intros e [= <-].
      * by intros res Hres.
    + destruct Hspec as [Hall Hcols]. split; [|split].
      * split; [intros _; by apply Hnames | intros _; by eexists].
      * by intros e He.
      * intros res [= <-]. cbn [Plot.categories Plot.colors].
        split; [done|]. split.
        { apply Forall2_length in Hcols.
          by rewrite <- Hcols, length_map. }
        intros i j ci cj color Hi Hj Hci Hcj.
        destruct (Forall2_lookup_l _ _ _ _ _ Hcols Hi) as (x & Hx & E1).
        destruct (Forall2_lookup_l _ _ _ _ _ Hcols Hj) as (y & Hy & E2).
        rewrite Hci in Hx. rewrite Hcj in Hy.
        injection Hx as <-. injection Hy as <-.
        exact (color_of_inj ci cj color E1 E2).
Qed.

Lemma prework_raises_name_error_witness :
  (∅ : gmap string Z) !! "MAXIMUM_DATAPOINTS" = None /\
  Plot.prework (Plot.configuration ∅) Demo.coll
  = inl (Plot.NameError "MAXIMUM_DATAPOINTS").
Proof.
  assert (H : (∅ : gmap string Z) !! "MAXIMUM_DATAPOINTS" = None)
    by apply lookup_empty.
  split; [exact H|].
  exact (proj1 (prework_raises_name_error ∅ Demo.coll) H).
Defined.

(** ** The price read from a reply *)

Lemma replace_char_app (c : ascii) (a b : string) :
  PyStr.replace (String c EmptyString) EmptyString (a +:+ b)
  = PyStr.replace (String c EmptyString) EmptyString a
    +:+ PyStr.replace (String c EmptyString) EmptyString b.
Proof.
  induction a as [|x a IH]; [reflexivity|].
  rewrite app_cons, !replace_char_cons, IH.
  by destruct (ascii_dec c x).
Qed.

Lemma strip_price_chars_app (a b : string) :
  strip_price_chars (a +:+ b) = strip_price_chars a +:+ strip_price_chars b.
Proof. unfold strip_price_chars. by rewrite !replace_char_app. Qed.

(** X17. [get_price] never raises: the text that the pattern matches is
    always one that [float] converts.  It falls back to 0 exactly on the
    replies that hold no digit; on any other reply the price is the
    conversion of a piece of the reply, dollar signs and commas removed,
    that the pattern denotes. *)
Theorem get_price_never_raises (s : string) :
  exists q,
    get_price s = Some q /\
    (Re.search price_re (strip_price_chars s) = None
     <-> PyStr.has_digit s = false) /\
    (PyStr.has_digit s = false -> q = 0%Q) /\
    (PyStr.has_digit s = true ->
     exists pre tok rest,
       strip_price_chars s = pre +:+ tok +:+ rest /\
       Re.matches price_re tok /\ PyStr.float tok = Some q).
Proof.
  destruct (PyStr.has_digit s) eqn:Hd.
  - destruct (get_price_digit s Hd) as (pre & tok & rest & q & Hs & Hm & Hf & Hq).
    exists q. split; [exact Hq|]. split; [|split; [done|]].
    + split; [|done]. intros Hnone.
      rewrite <- has_digit_strip in Hd.
      destruct (search_finds _ Hd) as [x Hx]. congruence.
    + intros _. by exists pre, tok, rest.
  - exists 0%Q. split; [by apply get_price_no_digit|].
    split; [|split; [done|done]].
    split; [done|]. intros _. apply search_no_digit.
    by rewrite has_digit_strip.
Qed.

(** X18. Dollar signs and commas do not count: a reply with one of them
    put in anywhere has the price of the reply without it. *)
Theorem get_price_ignores_separators (a b : string) :
  get_price (a +:+ "$" +:+ b) = get_price (a +:+ b) /\
  get_price (a +:+ "," +:+ b) = get_price (a +:+ b).
Proof.
  unfold get_price. rewrite !strip_price_chars_app.
  change (strip_price_chars "$") with EmptyString.
  change (strip_price_chars ",") with EmptyString.
  by rewrite !app_nil.
Qed.

(** ** Prices in the format of the context *)

Lemma all_digits_app (a b : string) :
  all_digits (a +:+ b) = all_digits a && all_digits b.
Proof.
  induction a as [|c a IH]; [done|].
  rewrite app_cons. cbn [all_digits]. by rewrite IH, andb_assoc.
Qed.

Lemma digits_value_app (a b : string) (acc : Z) :
  digits_value (a +:+ b) acc = digits_value b (digits_value a acc).
Proof.
  revert acc. induction a as [|c a IH]; intros acc; [done|].
  rewrite app_cons. cbn [digits_value]. apply IH.
Qed.

Lemma take_digits_value (d rest : string) (acc : Z) (n : nat) :
  all_digits d = true ->
  match rest with
  | EmptyString => True
  | String c _ => PyStr.is_digit c = false
  end ->
  PyStr.take_digits (d +:+ rest) acc n
  = (digits_value d acc, n + String.length d, rest).
Proof.
  revert acc n. induction d as [|c d IH]; intros acc n Hd Hrest.
  - rewrite app_nil, Nat.add_0_r. cbn [digits_value].
    destruct rest as [|x rest]; [done|]. cbn [PyStr.take_digits].
    by rewrite Hrest.
  - cbn [all_digits] in Hd. apply andb_true_iff in Hd as [Hc Hd].
    rewrite app_cons. cbn [PyStr.take_digits digits_value String.length].
    rewrite Hc, (IH _ _ Hd Hrest). do 2 f_equal. lia.
Qed.

(** The greedy repetition of digits takes the whole run when what follows
    the run lets the match go on. *)
Lemma star_digits_greedy (k : string -> option string) (rest r : string)
    (d : string) :
  all_digits d = true ->
  match rest with
  | EmptyString => True
  | String c _ => PyStr.is_digit c = false
  end ->
  k rest = Some r ->
  forall fuel, String.length d <= fuel ->
    Re.star_loop (Re.exec (Re.Cls PyStr.is_digit)) k fuel (d +:+ rest)
    = Some r.
Proof.
  intros Hd Hrest Hk. induction d as [|c d IH]; intros fuel Hfuel.
  - rewrite app_nil. destruct fuel as [|fuel]; [exact Hk|].
    cbn [Re.star_loop Re.exec].
    destruct rest as [|x rest]; [exact Hk|]. by rewrite Hrest.
  - cbn [all_digits] in Hd. apply andb_true_iff in Hd as [Hc Hd].
    destruct fuel as [|fuel]; [cbn in Hfuel; lia|].
    rewrite app_cons. cbn [Re.star_loop Re.exec]. rewrite Hc.
    assert (Hlt : (String.length (d +:+ rest)
                   <? String.length (String c (d +:+ rest)))%nat = true).
    { apply Nat.ltb_lt. cbn [String.length]. lia. }
    rewrite Hlt, (IH Hd) by (cbn in Hfuel; lia). reflexivity.
Qed.

Lemma strip_price_chars_id (s : string) :
  PyStr.mem "$" s = false -> PyStr.mem "," s = false ->
  strip_price_chars s = s.
Proof.
  unfold strip_price_chars.
  assert (H : forall c s, PyStr.mem c s = false ->
              PyStr.replace (String c EmptyString) EmptyString s = s).
  { intros c. induction s0 as [|x s0 IH]; intros Hm; [done|].
    cbn [PyStr.mem] in Hm. apply orb_false_iff in Hm as [Hx Hm].
    rewrite replace_char_cons. destruct (ascii_dec c x) as [->|_].
    - by rewrite Ascii.eqb_refl in Hx.
    - by rewrite IH. }
  intros H1 H2. by rewrite (H "$"%char s H1), (H ","%char s H2).
Qed.

Lemma mem_app (c : ascii) (a b : string) :
  PyStr.mem c (a +:+ b) = PyStr.mem c a || PyStr.mem c b.
Proof.
  induction a as [|x a IH]; [done|].
  rewrite app_cons. cbn [PyStr.mem]. by rewrite IH, orb_assoc.
Qed.

Lemma mem_all_digits (c : ascii) (d : string) :
  PyStr.is_digit c = false -> all_digits d = true -> PyStr.mem c d = false.
Proof.
  intros Hc. induction d as [|x d IH]; [done|].
  cbn [all_digits PyStr.mem]. intros [Hx Hd]%andb_true_iff.
  rewrite (IH Hd), orb_false_r.
  destruct (Ascii.eqb_spec x c) as [->|]; [congruence|done].
Qed.

Lemma take_length (s : string) : PyStr.take (String.length s) s = s.
Proof. induction s as [|c s IH]; [done|]. cbn. by rewrite IH. Qed.

Lemma exec_price_re_unfold (s : string) :
  Re.exec price_re s Some
  = match
      match
        Re.exec (Re.Cls is_sign) s
          (fun s1 =>
             Re.star_loop (Re.exec (Re.Cls PyStr.is_digit))
               (fun s' => Re.exec (Re.Cls is_dot) s'
                  (fun s'' => Re.exec (Re.Plus (Re.Cls PyStr.is_digit))
                                s'' Some))
               (String.length s1) s1)
      with
      | Some rest => Some rest
      | None =>
          Re.star_loop (Re.exec (Re.Cls PyStr.is_digit))
            (fun s' => Re.exec (Re.Cls is_dot) s'
               (fun s'' => Re.exec (Re.Plus (Re.Cls PyStr.is_digit))
                             s'' Some))
            (String.length s) s
      end
    with
    | Some rest => Some rest
    | None => Re.exec (Re.Plus (Re.Cls PyStr.is_digit)) s Some
    end.
Proof. reflexivity. Qed.

(** A price written as digits, a point and digits, with or without a dollar
    sign in front, is read as the decimal number it denotes. *)
Lemma get_price_decimal (c1 : ascii) (d1 : string) (c2 : ascii) (d2 : string) :
  all_digits (String c1 d1) = true -> all_digits (String c2 d2) = true ->
  get_price ("$" +:+ String c1 d1 +:+ "." +:+ String c2 d2)
  = Some (Qred ((1 * (digits_value (String c1 d1) 0
                      * 10 ^ Z.of_nat (String.length (String c2 d2))
                      + digits_value (String c2 d2) 0))
                # Z.to_pos (10 ^ Z.of_nat (String.length (String c2 d2))))).
Proof.
  intros H1 H2.
  set (i := String c1 d1) in *. set (f := String c2 d2) in *.
  assert (Hstrip : strip_price_chars ("$" +:+ i +:+ "." +:+ f)
                   = i +:+ "." +:+ f).
  { rewrite strip_price_chars_app.
    change (strip_price_chars "$") with EmptyString. rewrite app_nil.
    apply strip_price_chars_id; rewrite !mem_app;
      rewrite (mem_all_digits _ i), (mem_all_digits _ f) by done;
      reflexivity. }
  assert (Hplus : Re.exec (Re.Plus (Re.Cls PyStr.is_digit)) f Some
                  = Some EmptyString).
  { unfold f, Re.Plus. cbn [Re.exec].
    cbn [all_digits] in H2. apply andb_true_iff in H2 as [Hc Hd].
    rewrite Hc. rewrite <- (string_app_empty_r d2).
    apply star_digits_greedy; try done.
    rewrite string_app_empty_r. lia. }
  assert (Hbody : Re.star_loop (Re.exec (Re.Cls PyStr.is_digit))
                    (fun s' => Re.exec (Re.Cls is_dot) s'
                       (fun s'' => Re.exec (Re.Plus (Re.Cls PyStr.is_digit))
                                     s'' Some))
                    (String.length (i +:+ "." +:+ f)) (i +:+ "." +:+ f)
                  = Some EmptyString).
  { apply star_digits_greedy; try done.
    rewrite string_length_app. lia. }
  assert (Hexec : Re.exec price_re (i +:+ "." +:+ f) Some = Some EmptyString).
  { rewrite exec_price_re_unfold.
    assert (Hsign : forall k, Re.exec (Re.Cls is_sign) (i +:+ "." +:+ f) k
                              = None).
    { intros k. unfold i. rewrite app_cons. cbn [Re.exec].
      cbn [all_digits] in H1. apply andb_true_iff in H1 as [Hc _].
      by rewrite (digit_not_sign c1 Hc). }
    by rewrite Hsign, Hbody. }
  unfold get_price. rewrite Hstrip. 
  assert (Hsearch : Re.search price_re (i +:+ "." +:+ f)
                    = Some (i +:+ "." +:+ f)).
  { unfold i at 1. rewrite app_cons. cbn [Re.search].
    rewrite <- app_cons. fold i. rewrite Hexec. f_equal.
    change (String.length EmptyString) with 0. rewrite Nat.sub_0_r.
    apply take_length. }
  rewrite Hsearch.
  unfold i at 1. rewrite app_cons, float_unsigned.
  2:{ cbn [all_digits] in H1. apply andb_true_iff in H1 as [Hc _].
      by apply digit_not_sign. }
  rewrite <- app_cons. fold i. unfold PyStr.float_body.
  rewrite (take_digits_value i ("." +:+ f) 0 0 H1) by done.
  change ("." +:+ f) with (String "." f). cbv iota. 
  rewrite <- (string_app_empty_r f) at 1.
  rewrite (take_digits_value f EmptyString 0 0 H2) by done.
  cbv iota. cbn [Nat.add].
  destruct (String.length i + String.length f =? 0)%nat eqn:E; [|done].
  apply Nat.eqb_eq in E. unfold i in E. cbn [String.length] in E. lia.
Qed.

Lemma pretty_N_char_digit (m : N) :
  (m < 10)%N ->
  PyStr.is_digit (pretty_N_char m) = true /\
  PyStr.digit_val (pretty_N_char m) = Z.of_N m.
Proof.
  intros Hm.
  assert (m = 0 \/ m = 1 \/ m = 2 \/ m = 3 \/ m = 4 \/ m = 5 \/ m = 6 \/
          m = 7 \/ m = 8 \/ m = 9)%N as H by lia.
  repeat (destruct H as [->|H]; [by vm_compute|]). subst m. by vm_compute.
Qed.

(** The digits that [pretty] writes for a natural number denote it. *)
Lemma pretty_N_go_spec (x : N) :
  exists a,
    (forall s, pretty_N_go x s = a +:+ s) /\
    all_digits a = true /\
    (forall acc,
       digits_value a acc
       = (acc * 10 ^ Z.of_nat (String.length a) + Z.of_N x)%Z) /\
    ((0 < x)%N -> a <> EmptyString).
Proof.
  induction (N.lt_wf_0 x) as [x _ IH].
  destruct (decide (x = 0)%N) as [->|Hx].
  - exists EmptyString. split; [intros s; apply pretty_N_go_0|].
    split; [done|]. split; [|lia]. intros acc. cbn. lia.
  - assert (Hpos : (0 < x)%N) by lia.
    destruct (IH (x `div` 10)%N) as (a & Hgo & Hdig & Hval & _).
    { by apply N.div_lt. }
    destruct (pretty_N_char_digit (x `mod` 10)%N) as [Hc Hv].
    { by apply N.mod_lt. }
    exists (a +:+ String (pretty_N_char (x `mod` 10)) EmptyString).
    split; [|split; [|split]].
    + intros s. rewrite pretty_N_go_step, Hgo by done.
      by rewrite string_app_assoc.
    + rewrite all_digits_app, Hdig. cbn [all_digits]. by rewrite Hc.
    + intros acc. rewrite digits_value_app, Hval. cbn [digits_value].
      rewrite Hv, string_length_app. cbn [String.length].
      rewrite Nat2Z.inj_add, Z.pow_add_r by lia.
      change (10 ^ Z.of_nat 1)%Z with 10%Z.
      assert (Hdm : Z.of_N x
                    = (10 * Z.of_N (x `div` 10) + Z.of_N (x `mod` 10))%Z).
      { rewrite N2Z.inj_div, N2Z.inj_mod. apply Z.div_mod. lia. }
      rewrite Hdm. ring.
    + intros _. by destruct a.
Qed.

Lemma pretty_Z_nonneg (n : Z) :
  (0 <= n)%Z ->
  exists c d,
    pretty n = String c d /\ all_digits (String c d) = true /\
    digits_value (String c d) 0 = n.
Proof.
  intros Hn. destruct n as [|p|p]; [|clear Hn|lia].
  - by exists "0"%char, EmptyString.
  - destruct (pretty_N_go_spec (N.pos p)) as (a & Hgo & Hdig & Hval & Hne).
    assert (Hp : pretty (Z.pos p) = a).
    { change (pretty (Z.pos p)) with (pretty (N.pos p)).
      unfold pretty, pretty_N. case_decide as H0; [done|].
      by rewrite Hgo, string_app_empty_r. }
    destruct a as [|c d]; [by destruct Hne|].
    exists c, d. split; [exact Hp|]. split; [exact Hdig|].
    rewrite Hval. lia.
Qed.

Lemma two_digits_spec (m : Z) :
  (0 <= m < 100)%Z ->
  exists c1 c2,
    PyNum.two_digits m = String c1 (String c2 EmptyString) /\
    all_digits (PyNum.two_digits m) = true /\
    digits_value (PyNum.two_digits m) 0 = m.
Proof.
  intros Hm.
  assert (H : Forall (fun m =>
                 String.length (PyNum.two_digits m) = 2 /\
                 all_digits (PyNum.two_digits m) = true /\
                 digits_value (PyNum.two_digits m) 0 = m) (seqZ 0 100)).
  { apply (bool_decide_unpack _). by vm_compute. }
  rewrite Forall_forall in H.
  destruct (H m) as (Hlen & Hdig & Hval).
  { apply elem_of_seqZ. lia. }
  destruct (PyNum.two_digits m) as [|c1 [|c2 [|c3 r]]]; try discriminate Hlen.
  by exists c1, c2.
Qed.

Lemma round_nonneg (y : Q) : (0 <= y)%Q -> (0 <= PyNum.round y)%Z.
Proof.
  intros Hy. unfold PyNum.round.
  pose proof (Qfloor_resp_le _ _ Hy) as Hfl.
  change (Qfloor 0) with 0%Z in Hfl.
  destruct (Qcompare _ _); [destruct (Z.even _)|..]; lia.
Qed.

(** X19. A price in the format of the context, a dollar sign and the
    amount with two decimals, is read back by [get_price] as that amount:
    the price rounded to the cent. *)
Theorem get_price_reads_formatted_price (x : Q) :
  (0 <= x)%Q ->
  get_price ("$" +:+ PyNum.format_2f x)
  = Some (Qred (PyNum.round (x * 100) # 100)).
Proof.
  intros Hx. unfold PyNum.format_2f. cbv zeta.
  assert (Habs : Qabs x = x).
  { destruct x as [a b]. unfold Qabs. f_equal. apply Z.abs_eq.
    unfold Qle in Hx. cbn in Hx. lia. }
  rewrite Habs.
  assert (Hle : Qle_bool 0 x = true) by (by apply Qle_bool_iff).
  rewrite Hle, app_nil.
  set (n := PyNum.round (x * 100)).
  assert (Hn : (0 <= n)%Z).
  { apply round_nonneg. by apply Qmult_le_0_compat. }
  destruct (pretty_Z_nonneg (n / 100)%Z) as (c1 & d1 & Hi & Hdi & Hvi).
  { apply Z.div_pos; lia. }
  destruct (two_digits_spec (n mod 100)%Z) as (c2 & c3 & Hf & Hdf & Hvf).
  { apply Z.mod_pos_bound. lia. }
  rewrite Hi. rewrite Hf in Hdf, Hvf |- *.
  rewrite (get_price_decimal c1 d1 c2 (String c3 EmptyString) Hdi Hdf).
  rewrite Hvi, Hvf. cbn [String.length].
  change (Z.to_pos (10 ^ Z.of_nat 2)) with 100%positive.
  change (10 ^ Z.of_nat 2)%Z with 100%Z.
  do 3 f_equal. pose proof (Z.div_mod n 100 ltac:(lia)). lia.
Qed.

Lemma get_price_reads_formatted_price_witness :
  (0 <= 139)%Q /\
  get_price ("$" +:+ PyNum.format_2f 139)
  = Some (Qred (PyNum.round (139 * 100) # 100)).
Proof.
  assert (H : (0 <= 139)%Q) by (by vm_compute).
  split; [exact H|]. exact (get_price_reads_formatted_price 139 H).
Defined.

(** ** From the dataset to the sample *)

Section Pipeline.

Variable py_float : string -> option Q.
Variable Item_init : Datapoint.t -> Q -> Item.t.
Variable np_rng : Type.
Variable np_seed : Z -> np_rng.
Variable np_choice : np_rng -> nat -> nat -> list Q -> list nat * np_rng.

(** [Item(datapoint, price)] stores the price it is given. *)
Hypothesis Item_init_price :
  forall d price, Item.price (Item_init d price) = price.

Hypothesis np_choice_ok :
  forall g n size p,
    size <= n ->
    length (np_choice g n size p).1 = size /\
    NoDup (np_choice g n size p).1 /\
    Forall (fun j => j < n) (np_choice g n size p).1.

Lemma items_prices_in_range (dataset : list Datapoint.t) :
  Forall (fun item => (1 <= Item.price item <= 999)%Q)
         (items py_float Item_init dataset).
Proof.
  rewrite items_omap. apply Forall_forall. intros item Hin.
  apply list_elem_of_omap in Hin as (d & _ & Hd).
  unfold curated in Hd.
  destruct (py_float (Datapoint.price d)) as [price|]; [|discriminate Hd].
  destruct (Qle_bool 1 price && Qle_bool price 999) eqn:Hr;
    [|discriminate Hd].
  destruct (Item.include (Item_init d price)); [|discriminate Hd].
  injection Hd as <-. rewrite Item_init_price.
  apply andb_true_iff in Hr as [Ha Hb]. split; by apply Qle_bool_iff.
Qed.

(** X20. Run on the items that the curation loop keeps, the sampling cell
    visits every slot that has an item: the sample keeps whole every slot
    of rounded price 240 or more and every slot of at most 1200 items, and
    holds at most 1200 items of any slot below 240. *)
Theorem curated_sample_balanced (dataset : list Datapoint.t) :
  let curated_items := items py_float Item_init dataset in
  exists out g',
    sample np_seed np_choice curated_items = Some (out, g') /\
    forall i : Z,
      ((240 <= i)%Z -> in_slot i out = in_slot i curated_items) /\
      ((i < 240)%Z -> length (in_slot i curated_items) <= 1200 ->
       in_slot i out = in_slot i curated_items) /\
      ((i < 240)%Z -> length (in_slot i out) <= 1200).
Proof.
  cbv zeta.
  exact (sample_of_curated np_rng np_seed np_choice np_choice_ok _
           (items_prices_in_range dataset)).
Qed.

End Pipeline.

Lemma curated_sample_balanced_witness :
  (forall d price, Item.price (Demo.item_of d price) = price) /\
  (forall g n size p,
     size <= n ->
     length (Demo.np_choice g n size p).1 = size /\
     NoDup (Demo.np_choice g n size p).1 /\
     Forall (fun j => j < n) (Demo.np_choice g n size p).1) /\
  exists out g',
    sample Z.to_nat Demo.np_choice
      (items PyStr.float Demo.item_of
         [Datapoint.mk "Mixer" [] [] "{}" "25.00";
          Datapoint.mk "Cable" [] [] "{}" "None"]) = Some (out, g') /\
    length (in_slot 25 out) <= 1200.
Proof.
  assert (H : forall d price, Item.price (Demo.item_of d price) = price)
    by reflexivity.
  split; [exact H|]. split; [exact Demo_np_choice_ok|].
  destruct (curated_sample_balanced PyStr.float Demo.item_of nat Z.to_nat
              Demo.np_choice H Demo_np_choice_ok
              [Datapoint.mk "Mixer" [] [] "{}" "25.00";
               Datapoint.mk "Cable" [] [] "{}" "None"])
    as (out & g' & Hrun & Hslots).
  exists out, g'. split; [exact Hrun|].
  destruct (Hslots 25%Z) as (_ & _ & H3). apply H3. lia.
Defined.

(** ** The batches of the insert loop *)

Section BuildBatches.

Variable encode : string -> list Q.

(** X21. The ids of the whole insert loop are pairwise distinct.  Every
    call has as many ids as documents when the number of items is a
    multiple of 1000; when it is not, the last call has 1000 ids for the
    documents that are left, fewer than 1000. *)
Theorem build_store_batches (train : list Item.t) :
  NoDup (concat (map ids (build_store encode train))) /\
  (length train mod 1000 = 0 ->
   Forall (fun call => length (ids call) = length (documents call))
          (build_store encode train)) /\
  (length train mod 1000 <> 0 ->
   exists call,
     last (build_store encode train) = Some call /\
     length (ids call) = 1000 /\
     length (documents call) = length train mod 1000 /\
     length (documents call) < length (ids call)).
Proof.
  split; [apply build_store_ids_unique|]. split.
  - intros Hmod. apply (build_store_full_batches encode train
                          (length train / 1000)).
    pose proof (Nat.div_mod_eq (length train) 1000). lia.
  - intros Hmod.
    destruct (build_store_partial_batch encode train Hmod)
      as (call & Hlast & Hids & Hdocs).
    exists call. split; [exact Hlast|]. split; [exact Hids|].
    split; [exact Hdocs|]. rewrite Hids, Hdocs.
    apply Nat.mod_upper_bound. lia.
Qed.

End BuildBatches.
